(** * Author style-space operations: a shallow embedding

    This development embeds the style-space core of the author-style
    server (author_style_taxonomy.py, author_style_operations.py and
    the two prompt tools of author_style_mcp.py) and proves the
    properties stated about it.

    Modelling conventions.
    - A Python [dict] is an association list in insertion order.
    - A raised exception is the [Raise] case of the result type [M].
    - Numbers are read in two ways.

    The exact reading.  A Python [float] is a rational ([Q]); [+], [-],
    [*], [/] are exact, [round(x, n)] and [round(x)] round half to even
    on the value they are given, and [math.sqrt(x)] is the real square
    root, kept symbolically as [Sqrt x]: the only things the code does
    with a root are to compare two of them, to divide one by another
    and to round one to a fixed number of decimals, and each of these
    is computed exactly.  This reading is used over the catalog, whose
    values are finitely many decimals, and for statements about a blend
    that are bounds or relations between its fields.

    The binary64 reading ([Float64]).  A [float] is an IEEE 754 double
    with the correctly rounded operations of [SpecFloat], infinities
    and NaN included; a decimal literal is the double nearest to it;
    [round(x, n)] returns the double nearest to the rounded decimal;
    [round(x)] fails on an infinity or a NaN; the built-in [sum] is a
    parameter.  This reading is used where the rounding of a weight
    decides the outcome: the failures of a blend, its signature moves,
    and what the signs and the size of the weights can do.  The inputs
    named in the tier-boundary property are evaluated in binary64 as
    well ([Binary64]). *)

From Stdlib Require Import ZArith QArith Qround Qabs Qminmax Qpower Lqa.
From Stdlib Require Import String Ascii List Bool Lia.
From Stdlib Require Import Permutation Sorted.
From Stdlib Require Import SpecFloat.
From Stdlib Require DecimalString.
Import ListNotations.

Set Warnings "-register-all".

Open Scope string_scope.
Open Scope Q_scope.

(* ================================================================== *)
(** * Exceptions *)
(* ================================================================== *)

Inductive exn : Type :=
| ValueError (msg : string)
| KeyError (key : string)
| TypeError (msg : string)
| OverflowError (msg : string)
| ZeroDivisionError (msg : string).

Inductive M (A : Type) : Type :=
| Ok (a : A)
| Raise (e : exn).
Arguments Ok {A} a.
Arguments Raise {A} e.

Definition bind {A B : Type} (m : M A) (k : A -> M B) : M B :=
  match m with
  | Ok a => k a
  | Raise e => Raise e
  end.

Notation "x <- m ;; k" := (bind m (fun x => k))
  (at level 61, m at next level, right associativity).
Notation "' pat <- m ;; k" := (bind m (fun x => match x with pat => k end))
  (at level 61, pat pattern, m at next level, right associativity).

(** [for x in l: acc = body(acc, x)], stopping at the first exception. *)
Fixpoint for_each {A S : Type} (l : list A) (body : S -> A -> M S) (acc : S)
  : M S :=
  match l with
  | [] => Ok acc
  | x :: l' => acc' <- body acc x ;; for_each l' body acc'
  end.

Definition is_ok {A : Type} (m : M A) : bool :=
  match m with Ok _ => true | Raise _ => false end.

(* ================================================================== *)
(** * Dictionaries *)
(* ================================================================== *)

Definition dict (V : Type) : Type := list (string * V).

Fixpoint lookup {V : Type} (k : string) (d : dict V) : option V :=
  match d with
  | [] => None
  | (k', v) :: d' => if String.eqb k k' then Some v else lookup k d'
  end.

(** [d[k]] *)
Definition getitem {V : Type} (d : dict V) (k : string) : M V :=
  match lookup k d with
  | Some v => Ok v
  | None => Raise (KeyError k)
  end.

(** [k in d] *)
Definition contains {V : Type} (d : dict V) (k : string) : bool :=
  match lookup k d with Some _ => true | None => false end.

(** [d[k] = v]: overwrite in place when the key exists, append otherwise. *)
Fixpoint setitem {V : Type} (d : dict V) (k : string) (v : V) : dict V :=
  match d with
  | [] => [(k, v)]
  | (k', v') :: d' =>
      if String.eqb k k' then (k', v) :: d' else (k', v') :: setitem d' k v
  end.

(** [result = {}] followed by [for k in names: result[k] = f(k)]. *)
Definition build_dict {V : Type} (names : list string) (f : string -> M V)
  : M (dict V) :=
  for_each names (fun result k => v <- f k ;; Ok (setitem result k v)) [].

Definition keys {V : Type} (d : dict V) : list string := map fst d.
Definition values {V : Type} (d : dict V) : list V := map snd d.

(** JSON-like values stored in the vocabulary tables. *)
Inductive pyobj : Type :=
| VStr (s : string)
| VInt (z : Z)
| VFloat (q : Q)
| VList (l : list string)
| VDict (d : list (string * pyobj)).

(* ================================================================== *)
(** * Numbers *)
(* ================================================================== *)

Definition Qltb (x y : Q) : bool :=
  match x ?= y with Lt => true | _ => false end.

Definition Qleb (x y : Q) : bool :=
  match x ?= y with Gt => false | _ => true end.

(** [round(x)]: nearest integer, a tie going to the even neighbour. *)
Definition py_round_int (x : Q) : Z :=
  let f := Qfloor x in
  match Qcompare (x - inject_Z f) (1 # 2) with
  | Lt => f
  | Gt => (f + 1)%Z
  | Eq => if Z.even f then f else (f + 1)%Z
  end.

Definition pow10 (ndigits : nat) : Z := (10 ^ Z.of_nat ndigits)%Z.

(** [round(x, ndigits)] *)
Definition py_round (x : Q) (ndigits : nat) : Q :=
  Qred (inject_Z (py_round_int (x * inject_Z (pow10 ndigits)))
        / inject_Z (pow10 ndigits)).

(** The value of [math.sqrt(radicand)]. *)
Inductive root : Type := Sqrt (radicand : Q).

Definition radicand (r : root) : Q := let 'Sqrt s := r in s.

(** [math.sqrt(x)]; a negative argument is a domain error. *)
Definition math_sqrt (x : Q) : M root :=
  if Qltb x 0 then Raise (ValueError "math domain error") else Ok (Sqrt x).

(** [a < b] on two roots of non-negative radicands. *)
Definition root_ltb (a b : root) : bool := Qltb (radicand a) (radicand b).

(** [a / b] on two roots. *)
Definition root_div (a b : root) : root := Sqrt (radicand a / radicand b).

(** [round(r, ndigits)] for a root [r = Sqrt s].  With
    [t = 4 * s * 100^ndigits] and [m = floor (sqrt t)], the scaled root
    [10^ndigits * sqrt s] lies in [[m/2, (m+1)/2)]: it rounds down to
    [m/2] when [m] is even and up when [m] is odd, unless it is the exact
    midpoint ([t = m * m]), which goes to the even neighbour. *)
Definition round_root (r : root) (ndigits : nat) : Q :=
  let t := 4 * radicand r * inject_Z (pow10 ndigits * pow10 ndigits) in
  let m := Z.sqrt (Qfloor t) in
  let j := (m / 2)%Z in
  let k := if Z.even m then j
           else if Qeq_bool t (inject_Z (m * m)) && Z.even j then j
           else (j + 1)%Z in
  Qred (inject_Z k / inject_Z (pow10 ndigits)).

(** [sum(l)] *)
Definition py_sum (l : list Q) : Q := fold_left Qplus l 0.

(** [str(z)] for an integer. *)
Definition str_of_Z (z : Z) : string :=
  DecimalString.NilZero.string_of_int (Z.to_int z).

(* ================================================================== *)
(** * Strings and lists *)
(* ================================================================== *)

(** [sep.join(l)] *)
Fixpoint join (sep : string) (l : list string) : string :=
  match l with
  | [] => ""
  | [s] => s
  | s :: l' => s ++ sep ++ join sep l'
  end.

Fixpoint rev_string (s : string) : string :=
  match s with
  | EmptyString => EmptyString
  | String c s' => rev_string s' ++ String c EmptyString
  end.

(** [s.endswith(suffix)] *)
Definition endswith (s suffix : string) : bool :=
  String.prefix (rev_string suffix) (rev_string s).

Definition is_space (c : ascii) : bool :=
  let n := nat_of_ascii c in
  ((9 <=? n) && (n <=? 13) || (28 <=? n) && (n <=? 32))%nat.

Fixpoint lstrip (s : string) : string :=
  match s with
  | String c s' => if is_space c then lstrip s' else s
  | EmptyString => EmptyString
  end.

(** [s.strip()], on the ASCII white space. *)
Definition strip (s : string) : string :=
  rev_string (lstrip (rev_string (lstrip s))).

(** [repr(l)] for a list of plain identifiers. *)
Definition repr_list (l : list string) : string :=
  "[" ++ join ", " (map (fun s => "'" ++ s ++ "'") l) ++ "]".

(** [l[:n]] for [n >= 0] is [firstn]; a negative bound counts from the
    end. *)
Definition slice_to {A : Type} (l : list A) (n : Z) : list A :=
  if (0 <=? n)%Z then firstn (Z.to_nat n) l
  else firstn (length l - Z.to_nat (- n)) l.

(** [not l] *)
Definition is_empty {A : Type} (l : list A) : bool :=
  match l with [] => true | _ :: _ => false end.

(** [sorted(l, key=key)]: a stable sort, ascending in the key. *)
Fixpoint insert_by {A : Type} (key : A -> Q) (x : A) (l : list A) : list A :=
  match l with
  | [] => [x]
  | y :: l' =>
      if Qleb (key x) (key y) then x :: y :: l'
      else y :: insert_by key x l'
  end.

Fixpoint sorted {A : Type} (key : A -> Q) (l : list A) : list A :=
  match l with
  | [] => []
  | x :: l' => insert_by key x (sorted key l')
  end.

(** [max(l, key=key)]: the first element whose key is maximal. *)
Fixpoint max_by {A : Type} (key : A -> Q) (best : A) (l : list A) : A :=
  match l with
  | [] => best
  | x :: l' => max_by key (if Qltb (key best) (key x) then x else best) l'
  end.

(* ================================================================== *)
(** * The taxonomy (author_style_taxonomy.py) *)
(* ================================================================== *)

Definition AuthorCoordinates : Type := dict Q.

Record DimensionSpec : Type := {
  spec_id : string;
  name : string;
  description : string;
  low_label : string;
  high_label : string;
  text_output_mapping : dict (dict pyobj);
  image_output_mapping : dict (dict pyobj)
}.

Record AuthorEntry : Type := {
  entry_id : string;
  display_name : string;
  language_origin : string;
  coordinates : AuthorCoordinates;
  signature_moves : list string;
  text_vocabulary : dict pyobj;
  image_vocabulary : dict pyobj
}.

Module Dimensions.

Definition syntactic_density : DimensionSpec := {|
  spec_id := "syntactic_density";
  name := "Syntactic Density";
  description :=
    "Structural load per sentence — clause nesting depth, ratio of subordinate to main clauses.";
  low_label := "paratactic / flat";
  high_label := "hypotactic / deeply nested";
  text_output_mapping :=
    [("low",
      [("sentence_length", VStr "short");
       ("clause_depth", VInt 1);
       ("conjunction_preference", VList
          ["and"; "then"; "but"]);
       ("structure_directive", VStr "Simple declarative sentences. One main clause. Coordinating conjunctions only.")]);
     ("mid",
      [("sentence_length", VStr "variable");
       ("clause_depth", VInt 2);
       ("conjunction_preference", VList
          ["which"; "although"; "because"; "while"]);
       ("structure_directive", VStr "Balanced sentence architecture. Mix simple and complex structures. Periodic sentences permitted.")]);
     ("high",
      [("sentence_length", VStr "long");
       ("clause_depth", VInt 4);
       ("conjunction_preference", VList
          ["wherein"; "notwithstanding"; "such that"; "inasmuch as"]);
       ("structure_directive", VStr "Deeply nested subordination. Sentences carry multiple embedded qualifications. Delay main verb. Exhaustive clause stacking.")])];
  image_output_mapping :=
    [("low",
      [("compositional_layers", VInt 1);
       ("depth_planes", VStr "flat");
       ("visual_directive", VStr "Minimal layering. Single visual plane. Clean negative space. Figure isolated against ground.")]);
     ("mid",
      [("compositional_layers", VInt 3);
       ("depth_planes", VStr "moderate");
       ("visual_directive", VStr "Three distinct depth planes. Foreground, subject, background clearly articulated.")]);
     ("high",
      [("compositional_layers", VInt 5);
       ("depth_planes", VStr "deep");
       ("visual_directive", VStr "Dense visual layering. Multiple overlapping planes. Nested frames-within-frames. Baroque spatial depth.")])]
|}.

Definition sensory_concreteness : DimensionSpec := {|
  spec_id := "sensory_concreteness";
  name := "Sensory Concreteness";
  description :=
    "Ratio of concrete sensory nouns/verbs to abstract conceptual language.";
  low_label := "abstract / conceptual";
  high_label := "concrete / sensory";
  text_output_mapping :=
    [("low",
      [("noun_register", VStr "abstract");
       ("verb_type", VStr "conceptual");
       ("vocabulary_directive", VStr "Latinate abstract vocabulary. Ideas, categories, logical relations. Nouns you cannot photograph.")]);
     ("mid",
      [("noun_register", VStr "mixed");
       ("verb_type", VStr "balanced");
       ("vocabulary_directive", VStr "Ground abstractions in occasional concrete detail. Alternate between sensory and conceptual.")]);
     ("high",
      [("noun_register", VStr "concrete");
       ("verb_type", VStr "physical");
       ("vocabulary_directive", VStr "Anglo-Saxon concrete vocabulary. Things with weight, temperature, texture. Actions visible to a camera. Nouns you can hold.")])];
  image_output_mapping :=
    [("low",
      [("material_rendering", VStr "diagrammatic");
       ("texture_specificity", VStr "minimal");
       ("visual_directive", VStr "Geometric abstraction. Flat color fields. Schematic rather than photographic. Conceptual space.")]);
     ("mid",
      [("material_rendering", VStr "suggested");
       ("texture_specificity", VStr "moderate");
       ("visual_directive", VStr "Recognizable materials with selective detail. Key textures rendered, others implied.")]);
     ("high",
      [("material_rendering", VStr "photographic");
       ("texture_specificity", VStr "explicit");
       ("visual_directive", VStr "Explicit material rendering. Visible grain, weave, condensation, patina. Surfaces you can feel.")])]
|}.

Definition ornamental_register : DimensionSpec := {|
  spec_id := "ornamental_register";
  name := "Ornamental Register";
  description :=
    "Decoration density — adjective frequency, figurative language, lexical rarity. The prose surface treatment.";
  low_label := "stripped / anti-ornamental";
  high_label := "lush / baroque";
  text_output_mapping :=
    [("low",
      [("adjective_density", VStr "minimal");
       ("figurative_frequency", VStr "rare");
       ("vocabulary_register", VStr "common");
       ("surface_directive", VStr "No unnecessary adjectives. Plain nouns. Metaphor only when unavoidable. Common Anglo-Saxon vocabulary.")]);
     ("mid",
      [("adjective_density", VStr "selective");
       ("figurative_frequency", VStr "occasional");
       ("vocabulary_register", VStr "educated");
       ("surface_directive", VStr "Selective ornamentation. Well-placed figurative language. Elegant but not excessive.")]);
     ("high",
      [("adjective_density", VStr "abundant");
       ("figurative_frequency", VStr "dense");
       ("vocabulary_register", VStr "rare/archaic");
       ("surface_directive", VStr "Lush adjectival profusion. Dense figurative language. Rare and archaic vocabulary. Cataloging through ornamental excess.")])];
  image_output_mapping :=
    [("low",
      [("surface_complexity", VStr "clean");
       ("detail_density", VStr "minimal");
       ("visual_directive", VStr "Clean surfaces. Minimal texture. Modernist reduction. Negative space as design element.")]);
     ("mid",
      [("surface_complexity", VStr "detailed");
       ("detail_density", VStr "moderate");
       ("visual_directive", VStr "Selective surface detail. Key areas rendered with precision, others simplified.")]);
     ("high",
      [("surface_complexity", VStr "ornate");
       ("detail_density", VStr "maximal");
       ("visual_directive", VStr "Highly detailed ornamental surfaces. Pattern-on-pattern. Filigree, brocade, botanical density. Horror vacui — every surface activated.")])]
|}.

Definition tension_visibility : DimensionSpec := {|
  spec_id := "tension_visibility";
  name := "Tension Visibility";
  description :=
    "Whether tension lives on the surface or remains submerged.";
  low_label := "submerged / iceberg";
  high_label := "externalized / explicit";
  text_output_mapping :=
    [("low",
      [("show_tell_ratio", VStr "show");
       ("emotional_vocabulary", VStr "absent");
       ("tension_directive", VStr "Never name the emotion. Render behavior and objects. Reader infers tension from what is not said.")]);
     ("mid",
      [("show_tell_ratio", VStr "balanced");
       ("emotional_vocabulary", VStr "restrained");
       ("tension_directive", VStr "Acknowledge tension through measured observation. Clinical precision about emotional states.")]);
     ("high",
      [("show_tell_ratio", VStr "tell");
       ("emotional_vocabulary", VStr "explicit");
       ("tension_directive", VStr "Name the tension directly. Escalating emotional vocabulary. Narrator's distress is the content.")])];
  image_output_mapping :=
    [("low",
      [("lighting_drama", VStr "even");
       ("contrast_ratio", VStr "low");
       ("visual_directive", VStr "Even, ambient lighting. Tension encoded in compositional unease — off-center framing, ambiguous gaze vectors, objects slightly wrong.")]);
     ("mid",
      [("lighting_drama", VStr "directional");
       ("contrast_ratio", VStr "moderate");
       ("visual_directive", VStr "Directional lighting creating defined shadows. Moderate tonal contrast. Tension visible but controlled.")]);
     ("high",
      [("lighting_drama", VStr "chiaroscuro");
       ("contrast_ratio", VStr "extreme");
       ("visual_directive", VStr "Dramatic chiaroscuro. Deep shadows, hard light. Diagonal composition lines. Explicit visual conflict and confrontation.")])]
|}.

Definition tension_temporality : DimensionSpec := {|
  spec_id := "tension_temporality";
  name := "Tension Temporality";
  description :=
    "Whether tension accumulates slowly over time or arrives as rupture.";
  low_label := "ruptural / episodic";
  high_label := "accumulative / inevitable";
  text_output_mapping :=
    [("low",
      [("pacing", VStr "episodic");
       ("foreshadowing", VStr "none");
       ("tempo_directive", VStr "Self-contained moments. Each passage complete in itself. Tension arrives without warning.")]);
     ("mid",
      [("pacing", VStr "building");
       ("foreshadowing", VStr "subtle");
       ("tempo_directive", VStr "Gradual escalation through observation. Evidence accumulates. Paragraphs lengthen.")]);
     ("high",
      [("pacing", VStr "inevitable");
       ("foreshadowing", VStr "heavy");
       ("tempo_directive", VStr "Fate announced early, then approached with terrible patience. Each sentence worse than the last. Progressive revelation of the already-known.")])];
  image_output_mapping :=
    [("low",
      [("temporal_framing", VStr "frozen_instant");
       ("sequence_implication", VStr "none");
       ("visual_directive", VStr "Frozen moment. No implied before or after. Complete in the frame. Snapshot temporality.")]);
     ("mid",
      [("temporal_framing", VStr "implied_sequence");
       ("sequence_implication", VStr "moderate");
       ("visual_directive", VStr "Implied motion. Traces of what came before — footprints, smoke, residue. Subject mid-action.")]);
     ("high",
      [("temporal_framing", VStr "durational");
       ("sequence_implication", VStr "heavy");
       ("visual_directive", VStr "Temporal compositing. Multiple moments layered in single frame. Long exposure blur. Generational accumulation visible in environmental detail.")])]
|}.

Definition reality_stability : DimensionSpec := {|
  spec_id := "reality_stability";
  name := "Reality Stability";
  description :=
    "How trustworthy is the depicted world — how much impossibility the text's internal logic permits.";
  low_label := "unstable / paradoxical";
  high_label := "stable / verifiable";
  text_output_mapping :=
    [("low",
      [("epistemic_mode", VStr "unreliable");
       ("modality", VStr "impossible");
       ("reality_directive", VStr "State impossible things as fact. No hedging. Paradox presented in declarative mode. Logic that folds back on itself.")]);
     ("mid",
      [("epistemic_mode", VStr "liminal");
       ("modality", VStr "conditional");
       ("reality_directive", VStr "Reality bends under observation. Familiar things behave strangely. One impossible element in an otherwise stable frame.")]);
     ("high",
      [("epistemic_mode", VStr "reliable");
       ("modality", VStr "declarative");
       ("reality_directive", VStr "Journalistic reliability. Verifiable details. Physical accuracy. Hedging language for uncertainty.")])];
  image_output_mapping :=
    [("low",
      [("spatial_logic", VStr "impossible");
       ("physics_accuracy", VStr "violated");
       ("visual_directive", VStr "Impossible geometry. Escher-like spatial paradox. Recursive visual structures. Dream logic composition. Perspective that contradicts itself.")]);
     ("mid",
      [("spatial_logic", VStr "liminal");
       ("physics_accuracy", VStr "mostly_correct");
       ("visual_directive", VStr "Physically plausible with one wrong element. Uncanny valley of space. Light from impossible source. Scale inconsistency.")]);
     ("high",
      [("spatial_logic", VStr "correct");
       ("physics_accuracy", VStr "accurate");
       ("visual_directive", VStr "Physically accurate rendering. Correct perspective, lighting, material behavior. Photographic spatial logic.")])]
|}.

Definition interiority : DimensionSpec := {|
  spec_id := "interiority";
  name := "Interiority";
  description :=
    "Degree of access to inner experience — psychological depth and subjective consciousness rendered in the text.";
  low_label := "exterior / behavioral";
  high_label := "interior / consciousness";
  text_output_mapping :=
    [("low",
      [("pov_mode", VStr "external");
       ("thought_access", VStr "none");
       ("interiority_directive", VStr "Camera-eye. Behavior only. No access to thought. Dialogue and action. Reader infers psychology from surface.")]);
     ("mid",
      [("pov_mode", VStr "limited");
       ("thought_access", VStr "filtered");
       ("interiority_directive", VStr "Selective interiority. Observations filtered through a distinctive consciousness but not direct stream of thought.")]);
     ("high",
      [("pov_mode", VStr "deep");
       ("thought_access", VStr "immersive");
       ("interiority_directive", VStr "Language as thought happening. Consciousness rendered in real-time. The sentence IS the inner experience.")])];
  image_output_mapping :=
    [("low",
      [("framing_distance", VStr "wide");
       ("dof", VStr "deep");
       ("gaze_directive", VStr "Wide environmental framing. Figure-in-landscape. Deep depth of field. Subject as element of composition, not psychological center.")]);
     ("mid",
      [("framing_distance", VStr "medium");
       ("dof", VStr "moderate");
       ("gaze_directive", VStr "Medium shot. Subject's face visible. Environmental context retained. Gaze vector at 15-30° from camera axis.")]);
     ("high",
      [("framing_distance", VStr "close");
       ("dof", VStr "shallow");
       ("gaze_directive", VStr "Tight framing. Eyes prominent. Shallow depth of field isolating subject. Direct or near-direct gaze vector to viewer. Background dissolved into bokeh.")])]
|}.

Definition temporal_mode : DimensionSpec := {|
  spec_id := "temporal_mode";
  name := "Temporal Mode";
  description :=
    "The text's relationship to time — from episodic eternal present to cyclical/exhaustive temporal structures.";
  low_label := "eternal present / episodic";
  high_label := "cyclical / exhaustive";
  text_output_mapping :=
    [("low",
      [("tense", VStr "present");
       ("temporal_scope", VStr "moment");
       ("time_directive", VStr "Each passage exists in its own present. No before or after implied. Self-contained observation. Time as a series of discrete nows.")]);
     ("mid",
      [("tense", VStr "variable");
       ("temporal_scope", VStr "span");
       ("time_directive", VStr "Awareness of duration. Past informing present. Flashback and prolepsis available but controlled. Deep time acknowledged.")]);
     ("high",
      [("tense", VStr "omniscient_temporal");
       ("temporal_scope", VStr "generations");
       ("time_directive", VStr "All moments present simultaneously. Cyclical return. Generations rhyming. Every permutation explored. Time as exhaustive catalog.")])];
  image_output_mapping :=
    [("low",
      [("motion_state", VStr "frozen");
       ("temporal_texture", VStr "instantaneous");
       ("visual_directive", VStr "Crisp frozen instant. No motion blur. No implied sequence. Photograph temporality.")]);
     ("mid",
      [("motion_state", VStr "implied");
       ("temporal_texture", VStr "durational");
       ("visual_directive", VStr "Implied duration. Weathering, aging, patina suggesting passage of time. Environmental storytelling through wear.")]);
     ("high",
      [("motion_state", VStr "composite");
       ("temporal_texture", VStr "layered");
       ("visual_directive", VStr "Multiple temporal layers in single frame. Ghosting, palimpsest, archaeological stratification. Long exposure. Decay and growth co-present.")])]
|}.

End Dimensions.

Definition DIMENSIONS : dict DimensionSpec :=
  [("syntactic_density", Dimensions.syntactic_density);
   ("sensory_concreteness", Dimensions.sensory_concreteness);
   ("ornamental_register", Dimensions.ornamental_register);
   ("tension_visibility", Dimensions.tension_visibility);
   ("tension_temporality", Dimensions.tension_temporality);
   ("reality_stability", Dimensions.reality_stability);
   ("interiority", Dimensions.interiority);
   ("temporal_mode", Dimensions.temporal_mode)].

Module Authors.

Definition hemingway : AuthorEntry := {|
  entry_id := "hemingway";
  display_name := "Hemingway-esque";
  language_origin := "English (American)";
  coordinates :=
    [("syntactic_density", 0.10);
     ("sensory_concreteness", 0.90);
     ("ornamental_register", 0.05);
     ("tension_visibility", 0.10);
     ("tension_temporality", 0.25);
     ("reality_stability", 0.90);
     ("interiority", 0.15);
     ("temporal_mode", 0.20)];
  signature_moves :=
    ["Iceberg theory — emotional weight carried by omission";
     "Paratactic 'and' conjunction chains";
     "Dialogue carrying subtext the narrator won't state";
     "Concrete nouns, active verbs, minimal adjectives";
     "Short paragraphs as rhythmic percussion"];
  text_vocabulary :=
    [("conjunctions", VList
        ["and"; "but"; "then"]);
     ("sentence_starters", VList
        ["He"; "She"; "It was"; "There was"; "The"]);
     ("forbidden", VList
        ["very"; "really"; "beautiful"; "magnificent"; "incredible"; "amazing"]);
     ("register", VStr "Anglo-Saxon monosyllabic preference");
     ("paragraph_rhythm", VStr "short-short-short-medium-short")];
  image_vocabulary :=
    [("keywords", VList
        ["stark composition"; "high negative-space ratio";
         "single subject isolation"; "hard directional light";
         "minimal props"; "environmental realism"; "unflinching gaze";
         "dust and daylight"]);
     ("color_palette", VList
        ["ochre"; "bone white"; "dried blood"; "sun-bleached"; "khaki";
         "deep shadow"]);
     ("compositional_rules", VList
        ["Subject-to-negative-space ratio minimum 1:3";
         "Single dominant light source at 45° elevation";
         "No decorative elements in frame"; "Horizon line in lower third"])]
|}.

Definition de_sade : AuthorEntry := {|
  entry_id := "de_sade";
  display_name := "Marquis de Sade-esque";
  language_origin := "French";
  coordinates :=
    [("syntactic_density", 0.95);
     ("sensory_concreteness", 0.50);
     ("ornamental_register", 0.90);
     ("tension_visibility", 0.95);
     ("tension_temporality", 0.80);
     ("reality_stability", 0.60);
     ("interiority", 0.20);
     ("temporal_mode", 0.90)];
  signature_moves :=
    ["Exhaustive enumeration — every permutation cataloged";
     "Philosophical monologue embedded in extreme scenario";
     "Bodies as philosophical instruments, not psychological subjects";
     "Nested subordination mirroring power hierarchies";
     "Transgressive content delivered in aristocratic register"];
  text_vocabulary :=
    [("conjunctions", VList
        ["moreover"; "furthermore"; "notwithstanding"; "whereupon";
         "inasmuch as"]);
     ("sentence_starters", VList
        ["It is necessary that"; "One must observe"; "Let us now consider";
         "The principle demands"]);
     ("forbidden", VList
        ["nice"; "pleasant"; "comfortable"; "gentle"]);
     ("register", VStr "Aristocratic philosophical — Latinate, formal");
     ("paragraph_rhythm", VStr "long-longer-longest-philosophical_aside-resume")];
  image_vocabulary :=
    [("keywords", VList
        ["baroque layering"; "chiaroscuro extremes"; "diagonal tension lines";
         "dense ornamental surfaces"; "power geometry"; "theatrical staging";
         "overwhelming visual density"; "cataloging composition"]);
     ("color_palette", VList
        ["crimson"; "gold leaf"; "deep velvet"; "marble white";
         "candle flame"; "shadow black"]);
     ("compositional_rules", VList
        ["Multiple overlapping visual planes minimum 5 deep";
         "Diagonal dominant lines at 30-60° creating instability";
         "Every surface carries texture or pattern";
         "Lighting from multiple contradictory sources"])]
|}.

Definition le_guin : AuthorEntry := {|
  entry_id := "le_guin";
  display_name := "Ursula K. Le Guin-esque";
  language_origin := "English (American)";
  coordinates :=
    [("syntactic_density", 0.50);
     ("sensory_concreteness", 0.55);
     ("ornamental_register", 0.45);
     ("tension_visibility", 0.50);
     ("tension_temporality", 0.60);
     ("reality_stability", 0.40);
     ("interiority", 0.50);
     ("temporal_mode", 0.55)];
  signature_moves :=
    ["Worldbuilding through implication rather than exposition";
     "Balanced cadence — neither sparse nor baroque";
     "Anthropological precision about invented cultures";
     "Quiet radical premises delivered matter-of-factly";
     "Warm but unsentimental narrative voice"];
  text_vocabulary :=
    [("conjunctions", VList
        ["and"; "though"; "because"; "as if"; "while"]);
     ("sentence_starters", VList
        ["The"; "In the"; "There was a"; "She had"; "It was not"]);
     ("forbidden", VList
        ["awesome"; "literally"; "basically"; "epic"]);
     ("register", VStr "Educated but accessible — precise without ostentation");
     ("paragraph_rhythm", VStr "medium-medium-long-short-medium")];
  image_vocabulary :=
    [("keywords", VList
        ["balanced composition"; "warm natural light"; "inhabited landscape";
         "architectural worldbuilding"; "cultural detail in environment";
         "dignified framing"; "grounded fantasy"; "lived-in spaces"]);
     ("color_palette", VList
        ["earth tones"; "deep forest green"; "stone grey"; "warm amber";
         "twilight blue"; "weathered wood"]);
     ("compositional_rules", VList
        ["Rule of thirds with subject at intersection point";
         "Environmental context always visible — subject in world";
         "Warm color temperature 4500-5500K";
         "Balanced depth of field — subject sharp, context readable"])]
|}.

Definition didion : AuthorEntry := {|
  entry_id := "didion";
  display_name := "Joan Didion-esque";
  language_origin := "English (American)";
  coordinates :=
    [("syntactic_density", 0.45);
     ("sensory_concreteness", 0.70);
     ("ornamental_register", 0.15);
     ("tension_visibility", 0.30);
     ("tension_temporality", 0.40);
     ("reality_stability", 0.95);
     ("interiority", 0.60);
     ("temporal_mode", 0.40)];
  signature_moves :=
    ["Clinical sentence structure masking emotional intensity";
     "Specific sensory detail as existential evidence";
     "Retrospective present tense — reporting from aftermath";
     "Lists of concrete facts that accumulate into mood";
     "The personal made universal through precision"];
  text_vocabulary :=
    [("conjunctions", VList
        ["and"; "but"; "which"; "although"]);
     ("sentence_starters", VList
        ["I"; "We"; "The"; "It was"; "In the"; "That was the"]);
     ("forbidden", VList
        ["incredible"; "unbelievable"; "indescribable"; "breathtaking"]);
     ("register", VStr "Journalistic precision — cool, specific, exact");
     ("paragraph_rhythm", VStr "medium-short-long(periodic)-short-fragment")];
  image_vocabulary :=
    [("keywords", VList
        ["forensic observation"; "clinical framing";
         "specific light conditions"; "geographical precision";
         "quiet devastation"; "California light"; "motel aesthetic";
         "highway geometry"]);
     ("color_palette", VList
        ["bleached white"; "smog amber"; "pool blue"; "asphalt grey";
         "jacaranda purple"; "desert tan"]);
     ("compositional_rules", VList
        ["Slightly off-center framing suggesting unease";
         "Harsh midday light — no romantic golden hour";
         "Specific environmental details legible in frame";
         "Flat perspective suggesting journalistic distance"])]
|}.

Definition lovecraft : AuthorEntry := {|
  entry_id := "lovecraft";
  display_name := "Lovecraft-esque";
  language_origin := "English (American)";
  coordinates :=
    [("syntactic_density", 0.85);
     ("sensory_concreteness", 0.40);
     ("ornamental_register", 0.85);
     ("tension_visibility", 0.80);
     ("tension_temporality", 0.85);
     ("reality_stability", 0.15);
     ("interiority", 0.70);
     ("temporal_mode", 0.75)];
  signature_moves :=
    ["Accumulative horror through clause stacking";
     "The unspeakable — gesture toward sensory detail, then retreat";
     "Archaic register lending authority to impossible claims";
     "Geological/cosmic time dwarfing human experience";
     "Narrator's reliability degrading as text progresses"];
  text_vocabulary :=
    [("conjunctions", VList
        ["and yet"; "for"; "though"; "whilst"; "such that";
         "in consequence of which"]);
     ("sentence_starters", VList
        ["It was then that"; "I cannot describe"; "Of the";
         "There are things"; "What I saw"]);
     ("forbidden", VList
        ["cute"; "nice"; "fun"; "awesome"; "cool"]);
     ("register", VStr "Archaic academic — deliberately overwrought");
     ("paragraph_rhythm", VStr "medium-long-longer-longest-short(gasp)")];
  image_vocabulary :=
    [("keywords", VList
        ["non-Euclidean geometry"; "cyclopean architecture";
         "deep shadow with luminous edges"; "tentacular forms";
         "impossible scale"; "submarine depth"; "eldritch luminescence";
         "geological antiquity"]);
     ("color_palette", VList
        ["deep ocean green"; "phosphorescent"; "basalt black";
         "sickly yellow-green"; "void purple"; "corpse grey"]);
     ("compositional_rules", VList
        ["Subject dwarfed by environment — human scale minimized";
         "Light source origin impossible or contradictory";
         "Perspective lines converging at impossible vanishing point";
         "Geometry that almost resolves but doesn't"])]
|}.

Definition borges : AuthorEntry := {|
  entry_id := "borges";
  display_name := "Borges-esque";
  language_origin := "Spanish (Argentine)";
  coordinates :=
    [("syntactic_density", 0.80);
     ("sensory_concreteness", 0.15);
     ("ornamental_register", 0.60);
     ("tension_visibility", 0.55);
     ("tension_temporality", 0.70);
     ("reality_stability", 0.10);
     ("interiority", 0.80);
     ("temporal_mode", 0.70)];
  signature_moves :=
    ["Labyrinthine logic — the trap closes through reasoning";
     "Infinite libraries, mirrors, recursive structures";
     "Philosophical density compressed into miniature forms";
     "Scholarly apparatus (footnotes, citations) for fictional subjects";
     "Time as simultaneous rather than sequential"];
  text_vocabulary :=
    [("conjunctions", VList
        ["perhaps"; "or rather"; "that is to say"; "in other words";
         "which is to say"]);
     ("sentence_starters", VList
        ["It is said that"; "The curious reader"; "According to";
         "One might conjecture"; "The universe"]);
     ("forbidden", VList
        ["simple"; "straightforward"; "obvious"; "clearly"]);
     ("register", VStr "Erudite philosophical — precise, recursive, scholarly");
     ("paragraph_rhythm", VStr "long-medium-long(recursive)-parenthetical-short(sting)")];
  image_vocabulary :=
    [("keywords", VList
        ["infinite regression"; "mirror recursion"; "impossible library";
         "labyrinthine geometry"; "Escher-like spatial paradox";
         "miniature containing cosmos"; "scholarly manuscript";
         "hexagonal architecture"]);
     ("color_palette", VList
        ["parchment"; "library mahogany"; "ink blue"; "mirror silver";
         "candlelight amber"; "mathematical white"]);
     ("compositional_rules", VList
        ["Recursive visual structures — frame contains smaller version of itself";
         "Impossible spatial logic — Penrose stairs, Klein bottle topology";
         "Text/manuscripts visible as compositional elements";
         "Symmetrical composition suggesting infinite extension"])]
|}.

Definition murakami : AuthorEntry := {|
  entry_id := "murakami";
  display_name := "Murakami-esque";
  language_origin := "Japanese";
  coordinates :=
    [("syntactic_density", 0.25);
     ("sensory_concreteness", 0.80);
     ("ornamental_register", 0.20);
     ("tension_visibility", 0.20);
     ("tension_temporality", 0.20);
     ("reality_stability", 0.20);
     ("interiority", 0.55);
     ("temporal_mode", 0.25)];
  signature_moves :=
    ["Flat affect juxtaposed with surreal intrusion";
     "Mundane sensory detail anchoring the uncanny";
     "Pop culture references as emotional shorthand";
     "Loneliness rendered through domestic routine";
     "Cats, jazz, cooking as consciousness markers"];
  text_vocabulary :=
    [("conjunctions", VList
        ["and"; "but"; "so"; "then"]);
     ("sentence_starters", VList
        ["I"; "She"; "The"; "It was a"; "For some reason"]);
     ("forbidden", VList
        ["magnificent"; "extraordinary"; "awe-inspiring"; "spectacular"]);
     ("register", VStr "Conversational flat — deliberately understated");
     ("paragraph_rhythm", VStr "medium-short-short-medium-short(offhand_surreal)")];
  image_vocabulary :=
    [("keywords", VList
        ["liminal space"; "quiet domestic interior";
         "single impossible element"; "empty urban night";
         "jazz club lighting"; "cat on kitchen counter"; "mundane surrealism";
         "rain on window"]);
     ("color_palette", VList
        ["warm interior amber"; "cold blue exterior"; "vinyl black";
         "kitchen white"; "neon reflection"; "twilight grey"]);
     ("compositional_rules", VList
        ["Domestic interior framing — through doorways, across tables";
         "One element that doesn't belong in an otherwise normal scene";
         "Warm artificial light contrasting cold exterior visible through window";
         "Subject alone in frame — isolation geometry"])]
|}.

Definition marquez : AuthorEntry := {|
  entry_id := "marquez";
  display_name := "Márquez-esque";
  language_origin := "Spanish (Colombian)";
  coordinates :=
    [("syntactic_density", 0.75);
     ("sensory_concreteness", 0.75);
     ("ornamental_register", 0.80);
     ("tension_visibility", 0.70);
     ("tension_temporality", 0.95);
     ("reality_stability", 0.30);
     ("interiority", 0.40);
     ("temporal_mode", 0.85)];
  signature_moves :=
    ["Magical realism — impossible content in matter-of-fact declarative";
     "Multigenerational time — fate announced, then approached patiently";
     "Tropical profusion of sensory detail";
     "Names and lineages as structural architecture";
     "Death foretold — opening sentence contains the ending"];
  text_vocabulary :=
    [("conjunctions", VList
        ["and"; "who"; "which"; "where"; "until"; "as though"]);
     ("sentence_starters", VList
        ["Many years later"; "It was"; "The day"; "Colonel"; "No one"]);
     ("forbidden", VList
        ["basically"; "literally"; "actually"; "arguably"]);
     ("register", VStr "Declarative lush — matter-of-fact about the impossible");
     ("paragraph_rhythm", VStr "long-long-very_long-short(fate)-long")];
  image_vocabulary :=
    [("keywords", VList
        ["tropical botanical density"; "butterflies as portent";
         "golden afternoon light"; "crumbling colonial architecture";
         "magical realism composite"; "generational portrait";
         "rain of flowers"; "solitude geometry"]);
     ("color_palette", VList
        ["tropical green"; "marigold yellow"; "terracotta"; "butterfly blue";
         "aged sepia"; "blood orange"]);
     ("compositional_rules", VList
        ["Dense botanical framing — foliage filling edges";
         "Multiple generations suggested in single frame";
         "One physically impossible element rendered photorealistically";
         "Warm saturated color temperature 3500-4500K"])]
|}.

Definition kafka : AuthorEntry := {|
  entry_id := "kafka";
  display_name := "Kafka-esque";
  language_origin := "German (Czech)";
  coordinates :=
    [("syntactic_density", 0.65);
     ("sensory_concreteness", 0.35);
     ("ornamental_register", 0.10);
     ("tension_visibility", 0.35);
     ("tension_temporality", 0.30);
     ("reality_stability", 0.25);
     ("interiority", 0.35);
     ("temporal_mode", 0.30)];
  signature_moves :=
    ["Impossible premise accepted, bureaucratic logic thereafter";
     "Plain surface describing impossible situations";
     "Arrested time — events happen but nothing progresses";
     "Authority that can never be reached or understood";
     "The body as site of inexplicable transformation"];
  text_vocabulary :=
    [("conjunctions", VList
        ["however"; "nevertheless"; "in spite of"; "which"; "although"]);
     ("sentence_starters", VList
        ["He"; "It was"; "The"; "Someone"; "There was no"]);
     ("forbidden", VList
        ["magical"; "wonderful"; "extraordinary"; "miraculous"]);
     ("register", VStr "Bureaucratic plain — institutional clarity about the absurd");
     ("paragraph_rhythm", VStr "medium-medium-medium-medium(relentless_same)-medium")];
  image_vocabulary :=
    [("keywords", VList
        ["institutional corridor"; "impossible bureaucracy";
         "clean lines with subtle wrongness"; "door that leads nowhere";
         "fluorescent institutional light"; "scale distortion";
         "empty waiting room"; "metamorphic body"]);
     ("color_palette", VList
        ["institutional beige"; "corridor green"; "fluorescent white";
         "document manila"; "ink stamp blue"; "grey suit"]);
     ("compositional_rules", VList
        ["Symmetrical institutional framing with one element disrupted";
         "Vanishing-point corridors implying infinite recession";
         "Flat even lighting — no drama, no escape into shadow";
         "Human figure scaled slightly wrong relative to architecture"])]
|}.

Definition shonagon : AuthorEntry := {|
  entry_id := "shonagon";
  display_name := "Sei Shōnagon-esque";
  language_origin := "Japanese (Classical)";
  coordinates :=
    [("syntactic_density", 0.15);
     ("sensory_concreteness", 0.95);
     ("ornamental_register", 0.40);
     ("tension_visibility", 0.25);
     ("tension_temporality", 0.15);
     ("reality_stability", 0.85);
     ("interiority", 0.65);
     ("temporal_mode", 0.10)];
  signature_moves :=
    ["List-based observation as primary literary form";
     "Aesthetic judgment as the content — 'things that are...'";
     "Radical sensory specificity about transient moments";
     "Categorical thinking — grouping experiences by quality";
     "Brevity with maximum sensory payload per word"];
  text_vocabulary :=
    [("conjunctions", VList
        ["and"; "—"; ";"]);
     ("sentence_starters", VList
        ["Things that"; "In spring"; "It is"; "A"; "The"; "One"]);
     ("forbidden", VList
        ["basically"; "essentially"; "in conclusion"; "furthermore";
         "moreover"]);
     ("register", VStr "Elegant brevity — each word carries maximum sensory weight");
     ("paragraph_rhythm", VStr "fragment-fragment-short-fragment-observation")];
  image_vocabulary :=
    [("keywords", VList
        ["seasonal specificity"; "single perfect object";
         "morning light on silk"; "rain on veranda"; "ink brush precision";
         "negative space as reverence"; "insect on flower";
         "paper screen diffused light"]);
     ("color_palette", VList
        ["cherry blossom pink"; "ink black"; "rice paper white"; "moss green";
         "persimmon orange"; "dawn grey"]);
     ("compositional_rules", VList
        ["Single subject dominating frame — no competing elements";
         "Extreme negative space ratio minimum 1:5 subject to ground";
         "Natural light only — seasonal quality explicit";
         "Shallow depth isolating one perfect detail"])]
|}.

Definition lispector : AuthorEntry := {|
  entry_id := "lispector";
  display_name := "Clarice Lispector-esque";
  language_origin := "Brazilian Portuguese";
  coordinates :=
    [("syntactic_density", 0.55);
     ("sensory_concreteness", 0.60);
     ("ornamental_register", 0.55);
     ("tension_visibility", 0.65);
     ("tension_temporality", 0.50);
     ("reality_stability", 0.50);
     ("interiority", 0.95);
     ("temporal_mode", 0.45)];
  signature_moves :=
    ["Language turning to examine itself mid-sentence";
     "Interior stream — consciousness as the event";
     "The body as epistemological instrument";
     "Recursive self-interruption and self-correction";
     "Philosophical viscerality — abstract ideas with physical weight"];
  text_vocabulary :=
    [("conjunctions", VList
        ["but"; "and yet"; "or rather"; "—"; "that is"; "no"]);
     ("sentence_starters", VList
        ["She"; "It was"; "What she"; "The"; "But"; "No—"]);
     ("forbidden", VList
        ["simply"; "obviously"; "naturally"; "of course"]);
     ("register", VStr "Philosophical intimate — thought caught in the act of thinking");
     ("paragraph_rhythm", VStr "medium-long(spiraling)-short(correction)-medium-fragment")];
  image_vocabulary :=
    [("keywords", VList
        ["extreme close-up"; "organic texture as landscape";
         "introspective gaze vector"; "skin as terrain"; "interior light";
         "mirror self-regard"; "domestic object elevated to icon";
         "visceral abstraction"]);
     ("color_palette", VList
        ["skin tones"; "interior shadow"; "egg white"; "blood warmth";
         "kitchen tile"; "afternoon gold"]);
     ("compositional_rules", VList
        ["Extreme close framing — face fills frame edge to edge";
         "Shallow depth of field f/1.4-f/2.0 equivalent";
         "Gaze vector direct to viewer or at own reflection";
         "Organic textures rendered at macro scale"])]
|}.

End Authors.

Definition AUTHOR_CATALOG : dict AuthorEntry :=
  [("hemingway", Authors.hemingway);
   ("de_sade", Authors.de_sade);
   ("le_guin", Authors.le_guin);
   ("didion", Authors.didion);
   ("lovecraft", Authors.lovecraft);
   ("borges", Authors.borges);
   ("murakami", Authors.murakami);
   ("marquez", Authors.marquez);
   ("kafka", Authors.kafka);
   ("shonagon", Authors.shonagon);
   ("lispector", Authors.lispector)].

Definition PARAMETER_NAMES : list string :=
  ["syntactic_density";
   "sensory_concreteness";
   "ornamental_register";
   "tension_visibility";
   "tension_temporality";
   "reality_stability";
   "interiority";
   "temporal_mode"].

Definition unknown_author (author_id : string) : exn :=
  ValueError ("Unknown author '" ++ author_id ++ "'. "
              ++ "Available: " ++ repr_list (keys AUTHOR_CATALOG)).

Definition get_coordinates (author_id : string) : M AuthorCoordinates :=
  if negb (contains AUTHOR_CATALOG author_id) then
    Raise (unknown_author author_id)
  else
    entry <- getitem AUTHOR_CATALOG author_id ;;
    Ok (coordinates entry).

Definition get_author_ids : list string := keys AUTHOR_CATALOG.

(** [dim[key]] on a dimension record; the two mapping keys are the only
    ones the operations index with. *)
Definition dimension_getitem (dim : DimensionSpec) (key : string)
  : M (dict (dict pyobj)) :=
  if String.eqb key "text_output_mapping" then Ok (text_output_mapping dim)
  else if String.eqb key "image_output_mapping" then
    Ok (image_output_mapping dim)
  else if existsb (String.eqb key)
            ["id"; "name"; "description"; "low_label"; "high_label"] then
    Raise (TypeError "string indices must be integers, not 'str'")
  else Raise (KeyError key).

(* ================================================================== *)
(** * Distance computation (author_style_operations.py) *)
(* ================================================================== *)

Module Distance.

Record DimensionGap : Type := {
  value_1 : Q;
  value_2 : Q;
  raw_difference : Q;
  weighted_difference : Q;
  absolute_gap : Q
}.

Record Report : Type := {
  author_1 : string;
  author_2 : string;
  euclidean_distance : Q;
  normalized_distance : Q;
  max_contrast_axis : string;
  max_contrast_gap : Q;
  per_dimension : dict DimensionGap
}.

End Distance.

Definition PERCEPTUAL_WEIGHTS : dict Q :=
  [("syntactic_density", 1.2);
   ("sensory_concreteness", 1.0);
   ("ornamental_register", 1.1);
   ("tension_visibility", 0.9);
   ("tension_temporality", 0.8);
   ("reality_stability", 1.0);
   ("interiority", 1.0);
   ("temporal_mode", 0.8)].

(** One turn of the loop over [PARAMETER_NAMES]: the state is
    [(per_dim, sum_sq)]. *)
Definition distance_step (c1 c2 : AuthorCoordinates) (weighted : bool)
    (acc : dict Distance.DimensionGap * Q) (p : string)
  : M (dict Distance.DimensionGap * Q) :=
  let '(per_dim, sum_sq) := acc in
  v2 <- getitem c2 p ;;
  v1 <- getitem c1 p ;;
  let diff := v2 - v1 in
  w <- (if weighted then getitem PERCEPTUAL_WEIGHTS p else Ok 1.0) ;;
  let weighted_diff := diff * w in
  Ok (setitem per_dim p
        {| Distance.value_1 := v1;
           Distance.value_2 := v2;
           Distance.raw_difference := py_round diff 3;
           Distance.weighted_difference := py_round weighted_diff 3;
           Distance.absolute_gap := py_round (Qabs diff) 3 |},
      sum_sq + weighted_diff ^ 2).

Definition compute_style_distance (author_id_1 author_id_2 : string)
    (weighted : bool) : M Distance.Report :=
  c1 <- get_coordinates author_id_1 ;;
  c2 <- get_coordinates author_id_2 ;;
  '(per_dim, sum_sq) <-
     for_each PARAMETER_NAMES (distance_step c1 c2 weighted) ([], 0) ;;
  total <- math_sqrt sum_sq ;;
  (* max over the keys of per_dim, by that key's absolute_gap *)
  '(max_axis, max_gap) <-
     match per_dim with
     | [] => Raise (ValueError "max() arg is an empty sequence")
     | kv :: rest =>
         Ok (max_by (fun kv => Distance.absolute_gap (snd kv)) kv rest)
     end ;;
  e1 <- getitem AUTHOR_CATALOG author_id_1 ;;
  e2 <- getitem AUTHOR_CATALOG author_id_2 ;;
  root_n <- math_sqrt (inject_Z (Z.of_nat (length PARAMETER_NAMES))) ;;
  Ok {| Distance.author_1 := display_name e1;
        Distance.author_2 := display_name e2;
        Distance.euclidean_distance := round_root total 4;
        Distance.normalized_distance := round_root (root_div total root_n) 4;
        Distance.max_contrast_axis := max_axis;
        Distance.max_contrast_gap := Distance.absolute_gap max_gap;
        Distance.per_dimension := per_dim |}.

(* ================================================================== *)
(** * Vocabulary extraction *)
(* ================================================================== *)

Definition _get_tier (value : Q) : string :=
  if Qltb value 0.33 then "low"
  else if Qltb value 0.67 then "mid"
  else "high".

Definition _interpolate_tier_vocabularies (dim_id : string) (value : Q)
    (output_type : string) : M (dict pyobj) :=
  dim <- getitem DIMENSIONS dim_id ;;
  let tier := _get_tier value in
  mapping <- dimension_getitem dim output_type ;;
  bundle <- getitem mapping tier ;;
  let result := bundle in
  let result := setitem result "_dimension" (VStr dim_id) in
  let result := setitem result "_value" (VFloat (py_round value 3)) in
  let result := setitem result "_tier" (VStr tier) in
  let proximity :=
    if Qltb value 0.33 then py_round (value / 0.33) 3
    else if Qltb value 0.67 then py_round ((value - 0.33) / 0.34) 3
    else py_round ((value - 0.67) / 0.33) 3 in
  Ok (setitem result "_boundary_proximity" (VFloat proximity)).

Definition extract_vocabulary (output_type : string)
    (coordinates : dict Q) : M (dict (dict pyobj)) :=
  build_dict PARAMETER_NAMES
    (fun dim_id =>
       v <- getitem coordinates dim_id ;;
       _interpolate_tier_vocabularies dim_id v output_type).

Definition _extract_text_vocabulary (coordinates : dict Q)
  : M (dict (dict pyobj)) :=
  extract_vocabulary "text_output_mapping" coordinates.

Definition _extract_image_vocabulary (coordinates : dict Q)
  : M (dict (dict pyobj)) :=
  extract_vocabulary "image_output_mapping" coordinates.

(* ================================================================== *)
(** * Interpolation (blending) *)
(* ================================================================== *)

Module Blend.

Record Nearest : Type := {
  id : string;
  display_name : string;
  distance : Q
}.

Record Result : Type := {
  blend_spec : dict Q;
  blend_display : string;
  coordinates : dict Q;
  nearest_catalog_author : Nearest;
  signature_moves : list string;
  text_vocabulary : dict (dict pyobj);
  image_vocabulary : dict (dict pyobj)
}.

End Blend.

(** [{k: v / total_weight for k, v in blend_spec.items()}]; the keys of
    a dict are distinct, so the comprehension is a map over the items. *)
Definition normalize (blend_spec : dict Q) (total_weight : Q) : dict Q :=
  map (fun '(k, v) => (k, v / total_weight)) blend_spec.

(** The inner loop of the blend: [val] for one parameter [p]. *)
Definition blended_value (normalized : dict Q) (p : string) : M Q :=
  for_each normalized
    (fun val '(author_id, weight) =>
       coords <- get_coordinates author_id ;;
       c <- getitem coords p ;;
       Ok (val + c * weight))
    0.0.

(** The outer loop: the dict [blended]. *)
Definition blended_coordinates (normalized : dict Q) : M (dict Q) :=
  build_dict PARAMETER_NAMES
    (fun p =>
       val <- blended_value normalized p ;;
       Ok (py_round val 4)).

(** [sum((blended[p] - coords[p]) ** 2 for p in PARAMETER_NAMES)] *)
Definition squared_gap (blended coords : dict Q) : M Q :=
  for_each PARAMETER_NAMES
    (fun s p =>
       b <- getitem blended p ;;
       c <- getitem coords p ;;
       Ok (s + (b - c) ^ 2))
    0.

(** [dist < min_dist], where [None] is [float("inf")]. *)
Definition below (dist : root) (min_dist : option root) : bool :=
  match min_dist with
  | None => true
  | Some m => root_ltb dist m
  end.

(** The scan for the nearest catalog author: the state is
    [(min_dist, nearest)]. *)
Definition nearest_scan (blended : dict Q)
  : M (option root * option string) :=
  for_each (keys AUTHOR_CATALOG)
    (fun '(min_dist, nearest) aid =>
       coords <- get_coordinates aid ;;
       s <- squared_gap blended coords ;;
       dist <- math_sqrt s ;;
       if below dist min_dist then Ok (Some dist, Some aid)
       else Ok (min_dist, nearest))
    (None, None).

(** The contributors in the order they are visited for the moves and for
    the display: [sorted(normalized.items(), key=lambda x: -x[1])]. *)
Definition by_weight (normalized : dict Q) : list (string * Q) :=
  sorted (fun x => - snd x) normalized.

Definition n_moves (weight : Q) : Z := Z.max 1 (py_round_int (weight * 5)).

Definition blended_moves (normalized : dict Q) : M (list string) :=
  for_each (by_weight normalized)
    (fun moves '(author_id, weight) =>
       entry <- getitem AUTHOR_CATALOG author_id ;;
       Ok (moves ++ slice_to (signature_moves entry) (n_moves weight))%list)
    [].

Definition blend_display_of (normalized : dict Q) : M string :=
  parts <- for_each (by_weight normalized)
             (fun parts '(aid, w) =>
                entry <- getitem AUTHOR_CATALOG aid ;;
                Ok (parts ++ [(str_of_Z (py_round_int (w * 100)) ++ "% "
                               ++ display_name entry)%string])%list)
             [] ;;
  Ok (join " / " parts).

Definition interpolate_styles (blend_spec : dict Q) : M Blend.Result :=
  if is_empty blend_spec then
    Raise (ValueError "blend_spec must contain at least one author")
  else
    let total_weight := py_sum (values blend_spec) in
    if Qleb total_weight 0 then
      Raise (ValueError "Weights must sum to a positive value")
    else
      let normalized := normalize blend_spec total_weight in
      blended <- blended_coordinates normalized ;;
      '(min_dist, nearest) <- nearest_scan blended ;;
      text_output <- _extract_text_vocabulary blended ;;
      image_output <- _extract_image_vocabulary blended ;;
      moves <- blended_moves normalized ;;
      display <- blend_display_of normalized ;;
      match nearest, min_dist with
      | Some aid, Some d =>
          entry <- getitem AUTHOR_CATALOG aid ;;
          Ok {| Blend.blend_spec :=
                  map (fun '(aid, w) => (aid, py_round w 3)) normalized;
                Blend.blend_display := display;
                Blend.coordinates := blended;
                Blend.nearest_catalog_author :=
                  {| Blend.id := aid;
                     Blend.display_name := display_name entry;
                     Blend.distance := round_root d 4 |};
                Blend.signature_moves := moves;
                Blend.text_vocabulary := text_output;
                Blend.image_vocabulary := image_output |}
      | _, _ => Raise (KeyError "None")
      end.

(* ================================================================== *)
(** * Prompt generation *)
(* ================================================================== *)

Module TextPrompt.

Record Result : Type := {
  source : string;
  coordinates : dict Q;
  master_directive : string;
  signature_moves : string;
  vocabulary_constraints : string;
  full_prompt : string;
  per_dimension_directives : dict (dict pyobj)
}.

End TextPrompt.

Module ImagePrompt.

Record Result : Type := {
  source : string;
  coordinates : dict Q;
  prompt : string;
  keywords : list string;
  color_palette : list string;
  compositional_rules : list string;
  per_dimension_visuals : dict (dict pyobj)
}.

End ImagePrompt.

Definition no_source : exn :=
  ValueError "Provide author_id, blend_spec, or custom_coordinates".

(** The strings of one tier bundle kept by
    [if k.endswith("_directive") and isinstance(v, str)]. *)
Definition directive_sentences (tier_data : dict pyobj) : list string :=
  flat_map
    (fun '(k, v) =>
       match v with
       | VStr s => if endswith k "_directive" then [s] else []
       | _ => []
       end)
    tier_data.

Definition collect_directives (dims : dict (dict pyobj)) : M (list string) :=
  for_each PARAMETER_NAMES
    (fun parts dim_id =>
       tier_data <- getitem dims dim_id ;;
       Ok (parts ++ directive_sentences tier_data)%list)
    [].

(** A table value placed in an f-string.  The catalog stores a string
    under every key that is formatted; other shapes are outside the model
    and reported as a [TypeError]. *)
Definition format_str (v : pyobj) : M string :=
  match v with
  | VStr s => Ok s
  | _ => Raise (TypeError "not a string")
  end.

(** A table value used as a list of strings; same remark. *)
Definition as_list (v : pyobj) : M (list string) :=
  match v with
  | VList l => Ok l
  | _ => Raise (TypeError "not a list")
  end.

(** [d.get(k, [])] *)
Definition get_list (d : dict pyobj) (k : string) : M (list string) :=
  match lookup k d with
  | Some v => as_list v
  | None => Ok []
  end.

Definition vocabulary_text (text_vocab : dict pyobj) : M string :=
  match text_vocab with
  | [] => Ok ""
  | _ :: _ =>
      t1 <- (if contains text_vocab "register" then
               v <- getitem text_vocab "register" ;;
               s <- format_str v ;;
               Ok ("Register: " ++ s ++ ". ")
             else Ok "") ;;
      t2 <- (if contains text_vocab "paragraph_rhythm" then
               v <- getitem text_vocab "paragraph_rhythm" ;;
               s <- format_str v ;;
               Ok (t1 ++ "Paragraph rhythm: " ++ s ++ ". ")
             else Ok t1) ;;
      if contains text_vocab "forbidden" then
        v <- getitem text_vocab "forbidden" ;;
        l <- as_list v ;;
        Ok (t2 ++ "Avoid these words: " ++ join ", " l ++ ". ")
      else Ok t2
  end.

Definition generate_text_prompt (author_id : option string)
    (blend_spec custom_coordinates : option (dict Q))
  : M TextPrompt.Result :=
  '(coords, source_label, text_vocab, sig_moves) <-
     match author_id, blend_spec, custom_coordinates with
     | Some ((String _ _) as author_id), _, _ =>
         coords <- get_coordinates author_id ;;
         entry <- getitem AUTHOR_CATALOG author_id ;;
         Ok (coords, display_name entry, text_vocabulary entry,
             signature_moves entry)
     | _, Some ((_ :: _) as blend_spec), _ =>
         result <- interpolate_styles blend_spec ;;
         Ok (Blend.coordinates result, Blend.blend_display result, [],
             Blend.signature_moves result)
     | _, _, Some ((_ :: _) as custom_coordinates) =>
         Ok (custom_coordinates, "Custom coordinates", [], [])
     | _, _, _ => Raise no_source
     end ;;
  dim_directives <- _extract_text_vocabulary coords ;;
  directive_parts <- collect_directives dim_directives ;;
  let master_directive := join " " directive_parts in
  let moves_text :=
    match sig_moves with
    | [] => ""
    | _ :: _ => "Key techniques: " ++ join "; " (slice_to sig_moves 5) ++ "."
    end in
  vocab_text <- vocabulary_text text_vocab ;;
  Ok {| TextPrompt.source := source_label;
        TextPrompt.coordinates := coords;
        TextPrompt.master_directive := master_directive;
        TextPrompt.signature_moves := moves_text;
        TextPrompt.vocabulary_constraints := vocab_text;
        TextPrompt.full_prompt :=
          strip ("[Style: " ++ source_label ++ "] " ++ master_directive
                 ++ " " ++ moves_text ++ " " ++ vocab_text);
        TextPrompt.per_dimension_directives := dim_directives |}.

Definition generate_image_prompt (author_id : option string)
    (blend_spec custom_coordinates : option (dict Q))
    (style_modifier : string) : M ImagePrompt.Result :=
  '(coords, source_label, img_vocab) <-
     match author_id, blend_spec, custom_coordinates with
     | Some ((String _ _) as author_id), _, _ =>
         coords <- get_coordinates author_id ;;
         entry <- getitem AUTHOR_CATALOG author_id ;;
         Ok (coords, display_name entry, image_vocabulary entry)
     | _, Some ((_ :: _) as blend_spec), _ =>
         result <- interpolate_styles blend_spec ;;
         Ok (Blend.coordinates result, Blend.blend_display result,
             map (fun '(k, b) => (k, VDict b)) (Blend.image_vocabulary result))
     | _, _, Some ((_ :: _) as custom_coordinates) =>
         Ok (custom_coordinates, "Custom coordinates",
             [("keywords", VList []); ("color_palette", VList []);
              ("compositional_rules", VList [])])
     | _, _, _ => Raise no_source
     end ;;
  dim_visuals <- _extract_image_vocabulary coords ;;
  visual_directive_parts <- collect_directives dim_visuals ;;
  all_keywords <- get_list img_vocab "keywords" ;;
  colors <- get_list img_vocab "color_palette" ;;
  rules <- get_list img_vocab "compositional_rules" ;;
  let prompt_parts :=
    ((match style_modifier with EmptyString => [] | _ => [style_modifier] end)
     ++ slice_to all_keywords 8
     ++ (match colors with
         | [] => []
         | _ :: _ =>
             [("color palette: " ++ join ", " (slice_to colors 4))%string]
         end)
     ++ slice_to visual_directive_parts 6)%list in
  Ok {| ImagePrompt.source := source_label;
        ImagePrompt.coordinates := coords;
        ImagePrompt.prompt := join ", " prompt_parts;
        ImagePrompt.keywords := all_keywords;
        ImagePrompt.color_palette := colors;
        ImagePrompt.compositional_rules := rules;
        ImagePrompt.per_dimension_visuals := dim_visuals |}.

(* ================================================================== *)
(** * Catalog queries, extremes and neighbours *)
(* ================================================================== *)

Definition get_author_profile (author_id : string) : M AuthorEntry :=
  if negb (contains AUTHOR_CATALOG author_id) then
    Raise (unknown_author author_id)
  else getitem AUTHOR_CATALOG author_id.

(** The pairs visited by
    [for i, a1 in enumerate(authors): for a2 in authors[i + 1:]]. *)
Fixpoint pairs_in_order (authors : list string) : list (string * string) :=
  match authors with
  | [] => []
  | a1 :: rest => (map (pair a1) rest ++ pairs_in_order rest)%list
  end.

(** One turn of the double loop: the state is [(max_dist, max_pair)]. *)
Definition contrast_step (acc : Q * option (string * string))
    (pr : string * string) : M (Q * option (string * string)) :=
  let '(max_dist, max_pair) := acc in
  let '(a1, a2) := pr in
  result <- compute_style_distance a1 a2 false ;;
  if Qltb max_dist (Distance.euclidean_distance result) then
    Ok (Distance.euclidean_distance result, Some (a1, a2))
  else Ok (max_dist, max_pair).

Definition max_contrast_scan : M (Q * option (string * string)) :=
  for_each (pairs_in_order (keys AUTHOR_CATALOG)) contrast_step (0.0, None).

Definition find_max_contrast_pair : M Distance.Report :=
  '(_, max_pair) <- max_contrast_scan ;;
  match max_pair with
  | Some (a1, a2) => compute_style_distance a1 a2 false
  | None => Raise (unknown_author "None")
  end.

(** One turn of the neighbour loop: the state is [(min_dist, nearest)],
    with [None] for [float("inf")]. *)
Definition neighbor_step (author_id : string)
    (acc : option Q * option string) (other : string)
  : M (option Q * option string) :=
  let '(min_dist, nearest) := acc in
  if String.eqb other author_id then Ok (min_dist, nearest)
  else
    result <- compute_style_distance author_id other false ;;
    let d := Distance.euclidean_distance result in
    match min_dist with
    | Some m =>
        if Qltb d m then Ok (Some d, Some other)
        else Ok (min_dist, nearest)
    | None => Ok (Some d, Some other)
    end.

Definition find_nearest_neighbor (author_id : string) : M Distance.Report :=
  '(_, nearest) <-
     for_each (keys AUTHOR_CATALOG) (neighbor_step author_id) (None, None) ;;
  match nearest with
  | Some other => compute_style_distance author_id other false
  | None =>
      _ <- get_coordinates author_id ;;
      Raise (unknown_author "None")
  end.

(* ================================================================== *)
(** * Vocabulary of the statements *)
(* ================================================================== *)

(** Ascending order of the sort key. *)
Definition key_le {A : Type} (key : A -> Q) (x y : A) : Prop :=
  key x <= key y.

Definition output_types : list string :=
  ["text_output_mapping"; "image_output_mapping"].

(** What a tier bundle is annotated with. *)
Definition annotated (r : dict pyobj) (tier : string) (proximity : Q)
  : Prop :=
  lookup "_tier" r = Some (VStr tier) /\
  exists q, lookup "_boundary_proximity" r = Some (VFloat q)
            /\ q == proximity.

Definition known (author_id : string) : Prop :=
  In author_id (keys AUTHOR_CATALOG).

(** Every entry stores the 8 coordinates, in the canonical order, each
    with at most 4 decimals. *)
Definition entry_ok (e : AuthorEntry) : bool :=
  (if list_eq_dec string_dec (keys (coordinates e)) PARAMETER_NAMES
   then true else false)
  && forallb (fun kv => Qeq_bool (py_round (snd kv) 4) (snd kv))
       (coordinates e).

(** What the annotated bundle of dimension [dim_id] at value [v] holds. *)
Definition bundle_for (dim_id : string) (v : Q) (r : dict pyobj) : Prop :=
  lookup "_dimension" r = Some (VStr dim_id)
  /\ lookup "_value" r = Some (VFloat (py_round v 3))
  /\ lookup "_tier" r = Some (VStr (_get_tier v))
  /\ (exists q, lookup "_boundary_proximity" r = Some (VFloat q))
  /\ length (directive_sentences r) = 1%nat.

Definition has_all_dimensions (coordinates : dict Q) : Prop :=
  forall p, In p PARAMETER_NAMES -> exists v, lookup p coordinates = Some v.

(** [get_coordinates(author_id)[p]] *)
Definition stored (author_id p : string) : M Q :=
  coords <- get_coordinates author_id ;;
  getitem coords p.

Definition coordinate (author_id p : string) : Q :=
  match stored author_id p with Ok v => v | Raise _ => 0 end.

Fixpoint weighted_sum (p : string) (l : dict Q) : Q :=
  match l with
  | [] => 0
  | (a, w) :: l' => coordinate a p * w + weighted_sum p l'
  end.

Fixpoint Qsum (l : list Q) : Q :=
  match l with
  | [] => 0
  | x :: l' => x + Qsum l'
  end.

Definition moves_of (author_id : string) : list string :=
  match getitem AUTHOR_CATALOG author_id with
  | Ok entry => signature_moves entry
  | Raise _ => []
  end.





(** Python truth of the three optional sources: [None], the empty
    string and the empty dict are false. *)
Definition truthy_str (o : option string) : bool :=
  match o with Some (String _ _) => true | _ => false end.

Definition truthy_dict (o : option (dict Q)) : bool :=
  match o with Some (_ :: _) => true | _ => false end.

(** Every dimension of the extraction is the tier bundle of the value
    supplied for it. *)
Definition follows_tiers (cc : dict Q) (dims : dict (dict pyobj)) : Prop :=
  keys dims = PARAMETER_NAMES
  /\ forall p, In p PARAMETER_NAMES ->
       exists v b, lookup p cc = Some v /\ lookup p dims = Some b
                   /\ bundle_for p v b.

(** [other_failure m]: whatever [m] raises, it is not the demand for a
    source. *)
Definition other_failure {A : Type} (m : M A) : Prop :=
  m <> Raise no_source.

Definition any_source (author_id : option string)
    (blend_spec custom_coordinates : option (dict Q)) : bool :=
  truthy_str author_id || truthy_dict blend_spec
  || truthy_dict custom_coordinates.

(** Leibniz equality of two rationals, decided on their fractions. *)
Definition Q_same (x y : Q) : bool :=
  (Qnum x =? Qnum y)%Z && (Qden x =? Qden y)%positive.

Definition symmetric_at (a b : string) (weighted : bool) : bool :=
  match compute_style_distance a b weighted,
        compute_style_distance b a weighted with
  | Ok r1, Ok r2 =>
      Q_same (Distance.euclidean_distance r1) (Distance.euclidean_distance r2)
      && Q_same (Distance.normalized_distance r1)
           (Distance.normalized_distance r2)
  | _, _ => false
  end.

(** The unrounded distance [total] of an unweighted report. *)
Definition euclidean (a b : string) : M root :=
  c1 <- get_coordinates a ;;
  c2 <- get_coordinates b ;;
  '(_, sum_sq) <- for_each PARAMETER_NAMES (distance_step c1 c2 false)
                    ([], 0) ;;
  math_sqrt sum_sq.

Definition closer_than (total : root) (pr : string * string) : bool :=
  match euclidean (fst pr) (snd pr) with
  | Ok d => root_ltb d total
  | Raise _ => false
  end.

Definition no_farther_than (total : root) (pr : string * string) : bool :=
  match euclidean (fst pr) (snd pr) with
  | Ok d => negb (root_ltb total d)
  | Raise _ => false
  end.

Definition catalog_pairs : list (string * string) :=
  pairs_in_order (keys AUTHOR_CATALOG).

Definition pair_listed (x y : string) : bool :=
  existsb (fun pr => String.eqb (fst pr) x && String.eqb (snd pr) y
                     || String.eqb (fst pr) y && String.eqb (snd pr) x)
    catalog_pairs.

(** [sqrt a < sqrt b] and [sqrt a <= sqrt b], on non-negative radicands. *)
Definition root_lt (a b : root) : Prop := radicand a < radicand b.
Definition root_le (a b : root) : Prop := radicand a <= radicand b.

(** The pair [pr] is strictly closer than [total], resp. no farther. *)
Definition closer (total : root) (pr : string * string) : Prop :=
  exists d, euclidean (fst pr) (snd pr) = Ok d /\ root_lt d total.

Definition no_farther (total : root) (pr : string * string) : Prop :=
  exists d, euclidean (fst pr) (snd pr) = Ok d /\ root_le d total.

(* ================================================================== *)
(** * The tier boundaries in binary64 *)
(* ================================================================== *)

(** The three boundary inputs are also run through IEEE binary64
    arithmetic (round to nearest even), to see that the exact model and
    the floats agree on them. *)
Module Binary64.

Definition prec : Z := 53.
Definition emax : Z := 1024.

(** The doubles nearest to the decimal literals of the source. *)
Definition lit_0_33 : spec_float := S754_finite false 5944751508129055 (-54).
Definition lit_0_34 : spec_float := S754_finite false 6124895493223875 (-54).
Definition lit_0_67 : spec_float := S754_finite false 6034823500676465 (-53).
Definition lit_0_329999 : spec_float :=
  S754_finite false 5944733493730545 (-54).

Definition to_Q (x : spec_float) : option Q :=
  match x with
  | S754_zero _ => Some 0
  | S754_finite s m e =>
      Some (inject_Z (if s then Z.neg m else Z.pos m) * Qpower 2 e)
  | _ => None
  end.

Definition _get_tier (value : spec_float) : string :=
  if SFltb value lit_0_33 then "low"
  else if SFltb value lit_0_67 then "mid"
  else "high".

(** The value stored under [_boundary_proximity]: the quotient is a
    double, and [round(., 3)] gives the decimal nearest to it. *)
Definition boundary_proximity (value : spec_float) : option Q :=
  let x :=
    if SFltb value lit_0_33 then SFdiv prec emax value lit_0_33
    else if SFltb value lit_0_67 then
      SFdiv prec emax (SFsub prec emax value lit_0_33) lit_0_34
    else SFdiv prec emax (SFsub prec emax value lit_0_67) lit_0_33 in
  option_map (fun q => py_round q 3) (to_Q x).

(** [x] is within half a unit in the last place, [2^e / 2], of the
    decimal [d]. *)
Definition nearest_to (d : Q) (x : spec_float) (e : Z) : Prop :=
  exists q, to_Q x = Some q /\ Qabs (q - d) <= Qpower 2 (e - 1).

End Binary64.

(* ================================================================== *)
(** * The tool wrappers (author_style_mcp.py) *)
(* ================================================================== *)

Section Tools.

(** [json.loads] on a blend or coordinate string, and [json.dumps] on a
    result, are left abstract. *)
Variable json_loads : string -> M (dict Q).
Variable dumps_text : TextPrompt.Result -> string.
Variable dumps_image : ImagePrompt.Result -> string.

(** The [kwargs] built by the [if]/[elif] chain of both wrappers. *)
Definition source_kwargs
    (author_id blend_spec_json custom_coordinates_json : string)
  : M (option string * option (dict Q) * option (dict Q)) :=
  match author_id, blend_spec_json, custom_coordinates_json with
  | String _ _, _, _ => Ok (Some author_id, None, None)
  | _, String _ _, _ =>
      blend_spec <- json_loads blend_spec_json ;;
      Ok (None, Some blend_spec, None)
  | _, _, String _ _ =>
      custom_coordinates <- json_loads custom_coordinates_json ;;
      Ok (None, None, Some custom_coordinates)
  | _, _, _ => Ok (None, None, None)
  end.

Definition generate_text_style_prompt
    (author_id blend_spec_json custom_coordinates_json : string)
  : M string :=
  '(a, b, c) <- source_kwargs author_id blend_spec_json
                  custom_coordinates_json ;;
  result <- generate_text_prompt a b c ;;
  Ok (dumps_text result).

Definition generate_image_style_prompt
    (author_id blend_spec_json custom_coordinates_json style_modifier
     : string) : M string :=
  '(a, b, c) <- source_kwargs author_id blend_spec_json
                  custom_coordinates_json ;;
  result <- generate_image_prompt a b c style_modifier ;;
  Ok (dumps_image result).

End Tools.

(* ================================================================== *)
(** * Catalog listings *)
(* ================================================================== *)

Module AuthorSummary.

Record t : Type := {
  display_name : string;
  language_origin : string;
  coordinates : AuthorCoordinates
}.

End AuthorSummary.

(** [{aid: {...} for aid, entry in AUTHOR_CATALOG.items()}] *)
Definition list_authors : dict AuthorSummary.t :=
  map (fun '(aid, entry) =>
         (aid, {| AuthorSummary.display_name := display_name entry;
                  AuthorSummary.language_origin := language_origin entry;
                  AuthorSummary.coordinates := coordinates entry |}))
    AUTHOR_CATALOG.

Definition get_all_coordinates : dict AuthorCoordinates :=
  map (fun '(aid, entry) => (aid, coordinates entry)) AUTHOR_CATALOG.

(* ================================================================== *)
(** * Vocabulary of the further properties *)
(* ================================================================== *)

(** What the loop over the parameters puts in [per_dim]. *)
Definition gap_of (c1 c2 : AuthorCoordinates) (p : string)
    (g : Distance.DimensionGap) : Prop :=
  exists v1 v2,
    lookup p c1 = Some v1 /\ lookup p c2 = Some v2
    /\ Distance.value_1 g = v1 /\ Distance.value_2 g = v2
    /\ Distance.raw_difference g = py_round (v2 - v1) 3
    /\ Distance.absolute_gap g = py_round (Qabs (v2 - v1)) 3.

(** One line of the breakdown of (b, a) against the line of (a, b): the
    values swapped, the differences negated, the gap unchanged. *)
Definition gap_mirrored (g1 g2 : Distance.DimensionGap) : bool :=
  Q_same (Distance.value_1 g2) (Distance.value_2 g1)
  && Q_same (Distance.value_2 g2) (Distance.value_1 g1)
  && Qeq_bool (Distance.raw_difference g2) (- Distance.raw_difference g1)
  && Qeq_bool (Distance.weighted_difference g2)
       (- Distance.weighted_difference g1)
  && Q_same (Distance.absolute_gap g2) (Distance.absolute_gap g1).

Definition report_mirrored (r1 r2 : Distance.Report) : bool :=
  String.eqb (Distance.author_1 r1) (Distance.author_2 r2)
  && String.eqb (Distance.author_2 r1) (Distance.author_1 r2)
  && String.eqb (Distance.max_contrast_axis r1) (Distance.max_contrast_axis r2)
  && Q_same (Distance.max_contrast_gap r1) (Distance.max_contrast_gap r2)
  && forallb
       (fun kv =>
          match lookup (fst kv) (Distance.per_dimension r2) with
          | Some g2 => gap_mirrored (snd kv) g2
          | None => false
          end)
       (Distance.per_dimension r1).

Definition mirrored_at (a b : string) (weighted : bool) : bool :=
  match compute_style_distance a b weighted,
        compute_style_distance b a weighted with
  | Ok r1, Ok r2 => report_mirrored r1 r2
  | _, _ => false
  end.

(** The distances of a report are within range and vanish exactly when
    [same] holds. *)
Definition report_in_range (same : bool) (r : Distance.Report) : bool :=
  Qleb 0 (Distance.euclidean_distance r)
  && Qleb 0 (Distance.normalized_distance r)
  && Qleb (Distance.normalized_distance r) 1
  && Bool.eqb (Qeq_bool (Distance.euclidean_distance r) 0) same
  && Bool.eqb (Qeq_bool (Distance.normalized_distance r) 0) same
  && Bool.eqb (Qeq_bool (Distance.max_contrast_gap r) 0) same.

Definition in_range_at (a b : string) (weighted : bool) : bool :=
  match compute_style_distance a b weighted with
  | Ok r => report_in_range (String.eqb a b) r
  | Raise _ => false
  end.

(** The bound [m0] of the neighbour scan is above / not below [d]
    ([None] is infinite). *)
Definition bound_above (m0 : option Q) (d : Q) : Prop :=
  match m0 with Some v => d < v | None => True end.

Definition bound_not_above (m0 : option Q) (d : Q) : Prop :=
  match m0 with Some v => v <= d | None => False end.

(** The reported distance from [a] to [x]. *)
Definition reported_distance (a x : string) : Q :=
  match compute_style_distance a x false with
  | Ok r => Distance.euclidean_distance r
  | Raise _ => 0
  end.

(** Two weightings of the same authors, in the same order, with equal
    weights. *)
Definition weights_equiv (l l' : dict Q) : Prop :=
  Forall2 (fun x y => fst x = fst y /\ snd x == snd y) l l'.

(** Two outcomes that agree: the same exception, or related results. *)
Definition M_rel {A B : Type} (R : A -> B -> Prop) (m : M A) (m' : M B)
  : Prop :=
  match m, m' with
  | Ok a, Ok b => R a b
  | Raise e, Raise e' => e = e'
  | _, _ => False
  end.

(** A blend of the single author [a] with weight 1, checked against the
    author's own entry. *)
Definition single_blend_check (a : string) : bool :=
  match interpolate_styles [(a, 1)], getitem AUTHOR_CATALOG a with
  | Ok r, Ok e =>
      let nearest := Blend.nearest_catalog_author r in
      String.eqb (Blend.id nearest) a
      && String.eqb (Blend.display_name nearest) (display_name e)
      && Q_same (Blend.distance nearest) 0
      && (if list_eq_dec string_dec (Blend.signature_moves r)
               (signature_moves e) then true else false)
      && String.eqb (Blend.blend_display r) ("100% " ++ display_name e)
      && match Blend.blend_spec r with
         | [(k, v)] => String.eqb k a && Q_same v 1
         | _ => false
         end
  | _, _ => false
  end.

(** [DIMENSIONS[dim_id][output_type][tier]] *)
Definition table_bundle (dim_id output_type tier : string)
  : M (dict pyobj) :=
  dim <- getitem DIMENSIONS dim_id ;;
  mapping <- dimension_getitem dim output_type ;;
  getitem mapping tier.

(** The progress of a value through its own tier, as stored under
    [_boundary_proximity]. *)
Definition boundary_proximity (value : Q) : Q :=
  if Qltb value 0.33 then py_round (value / 0.33) 3
  else if Qltb value 0.67 then py_round ((value - 0.33) / 0.34) 3
  else py_round ((value - 0.67) / 0.33) 3.

(** The four entries added to a copied tier bundle. *)
Definition annotations (dim_id : string) (value : Q) : dict pyobj :=
  [("_dimension", VStr dim_id);
   ("_value", VFloat (py_round value 3));
   ("_tier", VStr (_get_tier value));
   ("_boundary_proximity", VFloat (boundary_proximity value))].

(** The directive sentences the tables hold for a point: for each
    dimension in canonical order, those of the bundle of its tier. *)
Definition tier_directives (output_type : string) (coords : dict Q)
  : list string :=
  flat_map
    (fun p =>
       match lookup p coords with
       | Some v =>
           match table_bundle p output_type (_get_tier v) with
           | Ok bundle => directive_sentences bundle
           | Raise _ => []
           end
       | None => []
       end)
    PARAMETER_NAMES.

(** [[style_modifier]] if it is not empty. *)
Definition modifier_part (style_modifier : string) : list string :=
  match style_modifier with EmptyString => [] | _ => [style_modifier] end.

(** Two points with the same tier on each of the given dimensions. *)
Definition same_tiers (dims : list string) (c c' : dict Q) : Prop :=
  forall p, In p dims ->
    exists v v', lookup p c = Some v /\ lookup p c' = Some v'
                 /\ _get_tier v = _get_tier v'.

(** [generate_text_prompt] from the extraction on, once the source has
    been selected. *)
Definition text_prompt_of (coords : dict Q) (source_label : string)
    (text_vocab : dict pyobj) (sig_moves : list string)
  : M TextPrompt.Result :=
  dim_directives <- _extract_text_vocabulary coords ;;
  directive_parts <- collect_directives dim_directives ;;
  let master_directive := join " " directive_parts in
  let moves_text :=
    match sig_moves with
    | [] => ""
    | _ :: _ => "Key techniques: " ++ join "; " (slice_to sig_moves 5) ++ "."
    end in
  vocab_text <- vocabulary_text text_vocab ;;
  Ok {| TextPrompt.source := source_label;
        TextPrompt.coordinates := coords;
        TextPrompt.master_directive := master_directive;
        TextPrompt.signature_moves := moves_text;
        TextPrompt.vocabulary_constraints := vocab_text;
        TextPrompt.full_prompt :=
          strip ("[Style: " ++ source_label ++ "] " ++ master_directive
                 ++ " " ++ moves_text ++ " " ++ vocab_text);
        TextPrompt.per_dimension_directives := dim_directives |}.

(** [generate_image_prompt] from the extraction on. *)
Definition image_prompt_of (coords : dict Q) (source_label : string)
    (img_vocab : dict pyobj) (style_modifier : string)
  : M ImagePrompt.Result :=
  dim_visuals <- _extract_image_vocabulary coords ;;
  visual_directive_parts <- collect_directives dim_visuals ;;
  all_keywords <- get_list img_vocab "keywords" ;;
  colors <- get_list img_vocab "color_palette" ;;
  rules <- get_list img_vocab "compositional_rules" ;;
  let prompt_parts :=
    ((match style_modifier with EmptyString => [] | _ => [style_modifier] end)
     ++ slice_to all_keywords 8
     ++ (match colors with
         | [] => []
         | _ :: _ =>
             [("color palette: " ++ join ", " (slice_to colors 4))%string]
         end)
     ++ slice_to visual_directive_parts 6)%list in
  Ok {| ImagePrompt.source := source_label;
        ImagePrompt.coordinates := coords;
        ImagePrompt.prompt := join ", " prompt_parts;
        ImagePrompt.keywords := all_keywords;
        ImagePrompt.color_palette := colors;
        ImagePrompt.compositional_rules := rules;
        ImagePrompt.per_dimension_visuals := dim_visuals |}.

(** The six author-specific vocabulary entries the prompts read, in the
    shape they read them; the colour palette is not empty. *)
Definition entry_vocabulary_ok (e : AuthorEntry) : bool :=
  match lookup "register" (text_vocabulary e),
        lookup "paragraph_rhythm" (text_vocabulary e),
        lookup "forbidden" (text_vocabulary e),
        lookup "keywords" (image_vocabulary e),
        lookup "color_palette" (image_vocabulary e),
        lookup "compositional_rules" (image_vocabulary e) with
  | Some (VStr _), Some (VStr _), Some (VList _),
    Some (VList _), Some (VList (_ :: _)), Some (VList _) => true
  | _, _, _, _, _, _ => false
  end.

Definition author_vocabulary_check (author_id : string) : bool :=
  match getitem AUTHOR_CATALOG author_id with
  | Ok e => entry_vocabulary_ok e
  | Raise _ => false
  end.

(** One line of the weighted breakdown against the same line of the
    unweighted one: the stored values, the raw difference and the gap
    are the same; without weights the weighted difference is the raw
    one, with weights it is the rounded product with the weight [w]. *)
Definition gap_reweighted (w : Q) (gu gw : Distance.DimensionGap) : bool :=
  Q_same (Distance.value_1 gw) (Distance.value_1 gu)
  && Q_same (Distance.value_2 gw) (Distance.value_2 gu)
  && Q_same (Distance.raw_difference gw) (Distance.raw_difference gu)
  && Q_same (Distance.absolute_gap gw) (Distance.absolute_gap gu)
  && Qeq_bool (Distance.weighted_difference gu) (Distance.raw_difference gu)
  && Q_same (Distance.weighted_difference gw)
       (py_round ((Distance.value_2 gu - Distance.value_1 gu) * w) 3).

Definition report_reweighted (ru rw : Distance.Report) : bool :=
  String.eqb (Distance.author_1 rw) (Distance.author_1 ru)
  && String.eqb (Distance.author_2 rw) (Distance.author_2 ru)
  && String.eqb (Distance.max_contrast_axis rw) (Distance.max_contrast_axis ru)
  && Q_same (Distance.max_contrast_gap rw) (Distance.max_contrast_gap ru)
  && forallb
       (fun kv =>
          match lookup (fst kv) (Distance.per_dimension rw),
                lookup (fst kv) PERCEPTUAL_WEIGHTS with
          | Some gw, Some w => gap_reweighted w (snd kv) gw
          | _, _ => false
          end)
       (Distance.per_dimension ru).

Definition reweighted_at (a b : string) (weighted : bool) : bool :=
  match compute_style_distance a b false,
        compute_style_distance a b true with
  | Ok ru, Ok rw => report_reweighted ru rw
  | _, _ => false
  end.

(* ================================================================== *)
(** * The blend in binary64 *)
(* ================================================================== *)

(** The numbers of a blend as Python has them: IEEE 754 binary64, with
    the correctly rounded operations of [SpecFloat], infinities and NaN
    included.  The catalog coordinates are the doubles their decimal
    literals are read as.  The built-in [sum] is a parameter of the
    model, because its rounding depends on the interpreter (CPython adds
    from left to right up to 3.11 and compensates since 3.12);
    [left_sum] is the left-to-right sum. *)
Module Float64.

Definition float : Type := spec_float.

Definition prec : Z := 53.
Definition emax : Z := 1024.

Definition add : float -> float -> float := SFadd prec emax.
Definition sub : float -> float -> float := SFsub prec emax.
Definition mul : float -> float -> float := SFmul prec emax.
Definition div : float -> float -> float := SFdiv prec emax.
Definition neg : float -> float := SFopp.
Definition ltb : float -> float -> bool := SFltb.
Definition leb : float -> float -> bool := SFleb.
Definition eqb : float -> float -> bool := SFeqb.

Definition zero : float := S754_zero false.
Definition infinity : float := S754_infinity false.

Definition is_nan (x : float) : bool :=
  match x with S754_nan => true | _ => false end.

Definition is_finite (x : float) : bool :=
  match x with
  | S754_zero _ | S754_finite _ _ _ => true
  | S754_infinity _ | S754_nan => false
  end.

(** The double nearest to a rational, ties to even: how a decimal
    literal is read, and how [round(x, n)] returns its decimal.  The
    quotient of the two integers is rounded once. *)
Definition of_Q (q : Q) : float :=
  match Qnum q with
  | Z0 => zero
  | Zpos n => div (S754_finite false n 0) (S754_finite false (Qden q) 0)
  | Zneg n => div (S754_finite true n 0) (S754_finite false (Qden q) 0)
  end.

(** [float(z)] for the small integers the code multiplies by. *)
Definition of_Z (z : Z) : float := of_Q (inject_Z z).

(** [x / y] *)
Definition truediv (x y : float) : M float :=
  match y with
  | S754_zero _ => Raise (ZeroDivisionError "float division by zero")
  | _ => Ok (div x y)
  end.

(** [round(x, ndigits)] on a float: the exact value of [x] is rounded to
    [ndigits] decimals, half to even, and the double nearest to that
    decimal is returned; a zero result keeps the sign of [x]; an
    infinity or a NaN is returned as it is. *)
Definition round_to (x : float) (ndigits : nat) : float :=
  match x with
  | S754_finite s _ _ =>
      match Binary64.to_Q x with
      | Some q =>
          let r := py_round q ndigits in
          if Qeq_bool r 0 then S754_zero s else of_Q r
      | None => x
      end
  | _ => x
  end.

(** [round(x)] on a float: an integer, or an exception for an infinity
    or a NaN. *)
Definition round_int (x : float) : M Z :=
  match x with
  | S754_nan => Raise (ValueError "cannot convert float NaN to integer")
  | S754_infinity _ =>
      Raise (OverflowError "cannot convert float infinity to integer")
  | S754_zero _ => Ok 0%Z
  | S754_finite _ _ _ =>
      match Binary64.to_Q x with
      | Some q => Ok (py_round_int q)
      | None => Ok 0%Z
      end
  end.

(** [x ** 2]: the square, taken as correctly rounded; a finite [x]
    whose square is out of range is an [OverflowError], with the text
    of the C library (here that of glibc).  Nothing stated below depends
    on the last bit of a square or on that text. *)
Definition square (x : float) : M float :=
  let y := mul x x in
  if is_finite x && negb (is_finite y) then
    Raise (OverflowError "(34, 'Numerical result out of range')")
  else Ok y.

(** [math.sqrt(x)] *)
Definition math_sqrt (x : float) : M float :=
  match x with
  | S754_finite true _ _ | S754_infinity true =>
      Raise (ValueError "math domain error")
  | _ => Ok (SFsqrt prec emax x)
  end.

(** [sum(l)], adding from left to right. *)
Definition left_sum (l : list float) : float := fold_left add l zero.

(** [sorted(l, key=key)] with float keys: stable, and decided by [<]
    alone.  With a NaN among the keys [<] is not an order and the
    result of Python's sort is left open; no key is a NaN in a blend
    that returns. *)
Fixpoint insert_by {A : Type} (key : A -> float) (x : A) (l : list A)
  : list A :=
  match l with
  | [] => [x]
  | y :: l' =>
      if ltb (key y) (key x) then y :: insert_by key x l'
      else x :: y :: l'
  end.

Fixpoint sorted {A : Type} (key : A -> float) (l : list A) : list A :=
  match l with
  | [] => []
  | x :: l' => insert_by key x (sorted key l')
  end.

(** The stored coordinates as doubles. *)
Definition get_coordinates (author_id : string) : M (dict float) :=
  coords <- get_coordinates author_id ;;
  Ok (map (fun '(p, v) => (p, of_Q v)) coords).

(** A value of an annotated tier bundle: one stored in the table, or a
    double computed from the coordinate. *)
Inductive obj : Type :=
| Stored (v : pyobj)
| Double (x : float).

Definition _get_tier (value : float) : string :=
  if ltb value (of_Q 0.33) then "low"
  else if ltb value (of_Q 0.67) then "mid"
  else "high".

Definition _interpolate_tier_vocabularies (dim_id : string) (value : float)
    (output_type : string) : M (dict obj) :=
  dim <- getitem DIMENSIONS dim_id ;;
  let tier := _get_tier value in
  mapping <- dimension_getitem dim output_type ;;
  bundle <- getitem mapping tier ;;
  let result := map (fun '(k, v) => (k, Stored v)) bundle in
  let result := setitem result "_dimension" (Stored (VStr dim_id)) in
  let result := setitem result "_value" (Double (round_to value 3)) in
  let result := setitem result "_tier" (Stored (VStr tier)) in
  proximity <-
    (if ltb value (of_Q 0.33) then truediv value (of_Q 0.33)
     else if ltb value (of_Q 0.67) then
       truediv (sub value (of_Q 0.33)) (of_Q 0.34)
     else truediv (sub value (of_Q 0.67)) (of_Q 0.33)) ;;
  Ok (setitem result "_boundary_proximity" (Double (round_to proximity 3))).

Definition extract_vocabulary (output_type : string)
    (coordinates : dict float) : M (dict (dict obj)) :=
  build_dict PARAMETER_NAMES
    (fun dim_id =>
       v <- getitem coordinates dim_id ;;
       _interpolate_tier_vocabularies dim_id v output_type).

Definition _extract_text_vocabulary (coordinates : dict float)
  : M (dict (dict obj)) :=
  extract_vocabulary "text_output_mapping" coordinates.

Definition _extract_image_vocabulary (coordinates : dict float)
  : M (dict (dict obj)) :=
  extract_vocabulary "image_output_mapping" coordinates.

Module Blend.

Record Nearest : Type := {
  id : string;
  display_name : string;
  distance : float
}.

Record Result : Type := {
  blend_spec : dict float;
  blend_display : string;
  coordinates : dict float;
  nearest_catalog_author : Nearest;
  signature_moves : list string;
  text_vocabulary : dict (dict obj);
  image_vocabulary : dict (dict obj)
}.

End Blend.

(** [{k: v / total_weight for k, v in blend_spec.items()}] *)
Fixpoint normalize (blend_spec : dict float) (total_weight : float)
  : M (dict float) :=
  match blend_spec with
  | [] => Ok []
  | (k, v) :: rest =>
      w <- truediv v total_weight ;;
      normalized <- normalize rest total_weight ;;
      Ok ((k, w) :: normalized)
  end.

(** The inner loop of the blend: [val] for one parameter [p]. *)
Definition blended_value (normalized : dict float) (p : string) : M float :=
  for_each normalized
    (fun val '(author_id, weight) =>
       coords <- get_coordinates author_id ;;
       c <- getitem coords p ;;
       Ok (add val (mul c weight)))
    zero.

(** The outer loop: the dict [blended]. *)
Definition blended_coordinates (normalized : dict float) : M (dict float) :=
  build_dict PARAMETER_NAMES
    (fun p =>
       val <- blended_value normalized p ;;
       Ok (round_to val 4)).

(** The terms [(blended[p] - coords[p]) ** 2 for p in PARAMETER_NAMES],
    in the order the generator yields them. *)
Definition squared_gaps (blended coords : dict float) : M (list float) :=
  for_each PARAMETER_NAMES
    (fun terms p =>
       b <- getitem blended p ;;
       c <- getitem coords p ;;
       s <- square (sub b c) ;;
       Ok (terms ++ [s])%list)
    [].

(** The contributors in the order they are visited for the moves and for
    the display: [sorted(normalized.items(), key=lambda x: -x[1])]. *)
Definition by_weight (normalized : dict float) : list (string * float) :=
  sorted (fun x => neg (snd x)) normalized.

(** [max(1, round(weight * 5))] *)
Definition n_moves (weight : float) : M Z :=
  k <- round_int (mul weight (of_Z 5)) ;;
  Ok (Z.max 1 k).

Definition blended_moves (normalized : dict float) : M (list string) :=
  for_each (by_weight normalized)
    (fun moves '(author_id, weight) =>
       entry <- getitem AUTHOR_CATALOG author_id ;;
       n <- n_moves weight ;;
       Ok (moves ++ slice_to (signature_moves entry) n)%list)
    [].

Definition blend_display_of (normalized : dict float) : M string :=
  parts <- for_each (by_weight normalized)
             (fun parts '(aid, w) =>
                percent <- round_int (mul w (of_Z 100)) ;;
                entry <- getitem AUTHOR_CATALOG aid ;;
                Ok (parts ++ [(str_of_Z percent ++ "% "
                               ++ display_name entry)%string])%list)
             [] ;;
  Ok (join " / " parts).

Section Sum.

Variable py_sum : list float -> float.

(** One turn of the scan for the nearest author: the state is
    [(min_dist, nearest)]. *)
Definition nearest_step (blended : dict float)
    (acc : float * option string) (aid : string)
  : M (float * option string) :=
  let '(min_dist, nearest) := acc in
  coords <- get_coordinates aid ;;
  terms <- squared_gaps blended coords ;;
  dist <- math_sqrt (py_sum terms) ;;
  if ltb dist min_dist then Ok (dist, Some aid)
  else Ok (min_dist, nearest).

Definition nearest_scan (blended : dict float)
  : M (float * option string) :=
  for_each (keys AUTHOR_CATALOG) (nearest_step blended) (infinity, None).

(** The blend of the normalized weights: the function from its blending
    loop on. *)
Definition blend_normalized (normalized : dict float) : M Blend.Result :=
  blended <- blended_coordinates normalized ;;
  '(min_dist, nearest) <- nearest_scan blended ;;
  text_output <- _extract_text_vocabulary blended ;;
  image_output <- _extract_image_vocabulary blended ;;
  moves <- blended_moves normalized ;;
  let rounded := map (fun '(aid, w) => (aid, round_to w 3)) normalized in
  display <- blend_display_of normalized ;;
  match nearest with
  | Some aid =>
      entry <- getitem AUTHOR_CATALOG aid ;;
      Ok {| Blend.blend_spec := rounded;
            Blend.blend_display := display;
            Blend.coordinates := blended;
            Blend.nearest_catalog_author :=
              {| Blend.id := aid;
                 Blend.display_name := display_name entry;
                 Blend.distance := round_to min_dist 4 |};
            Blend.signature_moves := moves;
            Blend.text_vocabulary := text_output;
            Blend.image_vocabulary := image_output |}
  | None =>
      (* [AUTHOR_CATALOG[None]]: the key is written as it prints *)
      Raise (KeyError "None")
  end.

Definition interpolate_styles (blend_spec : dict float)
  : M Blend.Result :=
  if is_empty blend_spec then
    Raise (ValueError "blend_spec must contain at least one author")
  else
    let total_weight := py_sum (values blend_spec) in
    if leb total_weight zero then
      Raise (ValueError "Weights must sum to a positive value")
    else
      normalized <- normalize blend_spec total_weight ;;
      blend_normalized normalized.

End Sum.

End Float64.

(* ================================================================== *)
(** * Vocabulary of the statements in binary64 *)
(* ================================================================== *)

(** The place of a float in the order of [<]: negative infinity, the
    negative finite numbers (by exponent, then mantissa, reversed), the
    two zeros, the positive finite numbers, positive infinity.  NaN has
    no place; it gets that of zero and is excluded where the order is
    used. *)
Definition rank (x : Float64.float) : Z * Z * Z :=
  match x with
  | S754_infinity true => (-2, 0, 0)%Z
  | S754_finite true m e => (-1, - e, Z.neg m)%Z
  | S754_zero _ | S754_nan => (0, 0, 0)%Z
  | S754_finite false m e => (1, e, Z.pos m)%Z
  | S754_infinity false => (2, 0, 0)%Z
  end.

Definition lex_compare (a b : Z * Z * Z) : comparison :=
  let '(a1, a2, a3) := a in
  let '(b1, b2, b3) := b in
  match (a1 ?= b1)%Z with
  | Eq => match (a2 ?= b2)%Z with Eq => (a3 ?= b3)%Z | c => c end
  | c => c
  end.

(** No later contributor has a larger weight. *)
Definition descending (x y : string * Float64.float) : Prop :=
  Float64.ltb (snd x) (snd y) = false.

(** What one contributor gives to the signature moves: the first
    [max(1, round(weight * 5))] of its stored moves. *)
Definition top_moves_of (x : string * Float64.float) (run : list string)
  : Prop :=
  exists entry k,
    getitem AUTHOR_CATALOG (fst x) = Ok entry
    /\ Float64.round_int (Float64.mul (snd x) (Float64.of_Z 5)) = Ok k
    /\ run = firstn (Z.to_nat (Z.max 1 k)) (signature_moves entry).

(** Not below zero: a zero of either sign, a positive number, positive
    infinity, or a NaN. *)
Definition not_negative (x : Float64.float) : Prop :=
  match x with
  | S754_finite true _ _ | S754_infinity true => False
  | _ => True
  end.

(** The failures of the float arithmetic of a blend: an
    [OverflowError] (the conversion of an infinity to an integer, or a
    square out of range), the conversion of a NaN to an integer, and
    the lookup of the nearest author when no distance was below
    infinity. *)
Definition arithmetic_error (e : exn) : Prop :=
  (exists msg, e = OverflowError msg)
  \/ e = ValueError "cannot convert float NaN to integer"
  \/ e = KeyError "None".

(** [x] does not come after [y]: the key of [y] is not below that of
    [x]. *)
Definition key_order {A : Type} (key : A -> Float64.float) (x y : A)
  : Prop :=
  Float64.ltb (key y) (key x) = false.

(** The outcome [m] is a result with the property [P], or a failure of
    the float arithmetic. *)
Definition ok_or_arithmetic {A : Type} (P : A -> Prop) (m : M A) : Prop :=
  match m with
  | Ok a => P a
  | Raise e => arithmetic_error e
  end.

(** The state of the scan for the nearest author names a catalog author
    or nobody. *)
Definition scan_names_known (acc : Float64.float * option string) : Prop :=
  match snd acc with
  | Some aid => known aid
  | None => True
  end.


(** Three catalog authors with the weights [1e200], [-1e200] and
    [1e-200]: the first two cancel and the float sum is [1e-200]. *)
Definition cancelling_blend : dict Float64.float :=
  [("hemingway", Float64.of_Q (10 ^ 200));
   ("borges", Float64.of_Q (- (10 ^ 200)));
   ("kafka", Float64.of_Q (10 ^ (-200)))].

(** [a] is the first identifier of the specification, in its order,
    that is not in the catalog. *)
Definition first_unknown_in {V : Type} (a : string) (blend_spec : dict V)
  : Prop :=
  exists before w after,
    blend_spec = (before ++ (a, w) :: after)%list
    /\ (forall x, In x (keys before) -> known x)
    /\ ~ known a.

(* ================================================================== *)
(** * Facts about the result type and the dictionaries *)
(* ================================================================== *)

Lemma bind_Ok {A B : Type} (m : M A) (k : A -> M B) (b : B) :
  bind m k = Ok b -> exists a, m = Ok a /\ k a = Ok b.
Proof.
  destruct m as [a|e]; simpl; intros H; [exists a; auto | discriminate].
Qed.

Lemma bind_Raise {A B : Type} (m : M A) (k : A -> M B) (e : exn) :
  bind m k = Raise e ->
  m = Raise e \/ exists a, m = Ok a /\ k a = Raise e.
Proof.
  destruct m as [a|e']; simpl; intros H.
  - right. exists a. split; [reflexivity | exact H].
  - left. now inversion H.
Qed.

Lemma getitem_Ok {V : Type} (d : dict V) (k : string) (v : V) :
  getitem d k = Ok v <-> lookup k d = Some v.
Proof.
  unfold getitem. destruct (lookup k d); split; intros H;
    inversion H; subst; reflexivity.
Qed.

Lemma lookup_In {V : Type} (k : string) (d : dict V) (v : V) :
  lookup k d = Some v -> In (k, v) d.
Proof.
  induction d as [|[k' v'] d IH]; simpl; [discriminate|].
  destruct (String.eqb_spec k k') as [->|Hne]; intros H.
  - inversion H; subst. now left.
  - right. auto.
Qed.

Lemma lookup_keys {V : Type} (k : string) (d : dict V) :
  In k (keys d) <-> exists v, lookup k d = Some v.
Proof.
  induction d as [|[k' v'] d IH]; simpl.
  - split; [tauto | intros [v H]; discriminate].
  - destruct (String.eqb_spec k k') as [->|Hne].
    + split; [intros _; eauto | intros _; now left].
    + rewrite <- IH. split; [intros [H|H]; [congruence | exact H] | tauto].
Qed.

Lemma lookup_setitem_same {V : Type} (d : dict V) (k : string) (v : V) :
  lookup k (setitem d k v) = Some v.
Proof.
  induction d as [|[k' v'] d IH]; simpl.
  - now rewrite String.eqb_refl.
  - destruct (String.eqb_spec k k') as [->|Hne]; simpl.
    + now rewrite String.eqb_refl.
    + destruct (String.eqb_spec k k'); [contradiction | exact IH].
Qed.

Lemma lookup_setitem_other {V : Type} (d : dict V) (k k' : string) (v : V) :
  k <> k' -> lookup k' (setitem d k v) = lookup k' d.
Proof.
  intros Hne. induction d as [|[k0 v0] d IH]; simpl.
  - destruct (String.eqb_spec k' k); [congruence | reflexivity].
  - destruct (String.eqb_spec k k0) as [->|Hne0]; simpl.
    + destruct (String.eqb_spec k' k0); [congruence | reflexivity].
    + destruct (String.eqb_spec k' k0); [reflexivity | exact IH].
Qed.

Lemma keys_setitem_new {V : Type} (d : dict V) (k : string) (v : V) :
  ~ In k (keys d) -> keys (setitem d k v) = (keys d ++ [k])%list.
Proof.
  induction d as [|[k0 v0] d IH]; simpl; intros Hn; [reflexivity|].
  destruct (String.eqb_spec k k0) as [->|Hne]; [tauto|].
  simpl. f_equal. apply IH. tauto.
Qed.

(* ================================================================== *)
(** * Facts about the numbers *)
(* ================================================================== *)

Lemma Qltb_lt (x y : Q) : Qltb x y = true <-> x < y.
Proof.
  unfold Qltb. rewrite Qlt_alt. destruct (x ?= y); split; congruence.
Qed.

Lemma Qltb_ge (x y : Q) : Qltb x y = false <-> y <= x.
Proof.
  unfold Qltb. destruct (Qcompare_spec x y) as [E|L|G]; split; intros H;
    try reflexivity; try discriminate.
  - rewrite E. apply Qle_refl.
  - exfalso. apply (Qlt_irrefl x). eapply Qlt_le_trans; eassumption.
  - now apply Qlt_le_weak.
Qed.

Lemma Qleb_le (x y : Q) : Qleb x y = true <-> x <= y.
Proof.
  unfold Qleb. rewrite Qle_alt. destruct (x ?= y); split; congruence.
Qed.

Lemma Qleb_gt (x y : Q) : Qleb x y = false <-> y < x.
Proof.
  unfold Qleb. destruct (Qcompare_spec x y) as [E|L|G]; split; intros H;
    try reflexivity; try discriminate; try assumption.
  - exfalso. rewrite E in H. now apply Qlt_irrefl in H.
  - exfalso. apply (Qlt_irrefl x). eapply Qlt_trans; eassumption.
Qed.

#[export] Instance Qltb_proper : Proper (Qeq ==> Qeq ==> eq) Qltb.
Proof. intros x x' Hx y y' Hy. unfold Qltb. now rewrite Hx, Hy. Qed.

#[export] Instance Qleb_proper : Proper (Qeq ==> Qeq ==> eq) Qleb.
Proof. intros x x' Hx y y' Hy. unfold Qleb. now rewrite Hx, Hy. Qed.

#[export] Instance py_round_int_proper : Proper (Qeq ==> eq) py_round_int.
Proof.
  intros x y Hxy. unfold py_round_int.
  rewrite (Qfloor_comp _ _ Hxy).
  assert (E : x - inject_Z (Qfloor y) == y - inject_Z (Qfloor y))
    by now rewrite Hxy.
  now rewrite E.
Qed.

Lemma py_round_int_integer (z : Z) : py_round_int (inject_Z z) = z.
Proof.
  unfold py_round_int. rewrite Qfloor_Z.
  assert (E : inject_Z z - inject_Z z == 0) by ring.
  rewrite E. reflexivity.
Qed.

Lemma py_round_int_bounds (x : Q) :
  (Qfloor x <= py_round_int x <= Qfloor x + 1)%Z.
Proof.
  unfold py_round_int.
  destruct (Qcompare _ _); [destruct (Z.even _)| |]; lia.
Qed.

Lemma py_round_int_mono (x y : Q) :
  x <= y -> (py_round_int x <= py_round_int y)%Z.
Proof.
  intros Hxy.
  assert (Hf := Qfloor_resp_le _ _ Hxy).
  destruct (Z.eq_dec (Qfloor x) (Qfloor y)) as [E|NE].
  - unfold py_round_int. rewrite E.
    set (f := Qfloor y).
    assert (Hd : x - inject_Z f <= y - inject_Z f).
    { apply Qplus_le_l with (z := inject_Z f). ring_simplify. exact Hxy. }
    destruct (Qcompare_spec (x - inject_Z f) (1 # 2)) as [Hx|Hx|Hx];
      destruct (Qcompare_spec (y - inject_Z f) (1 # 2)) as [Hy|Hy|Hy];
      try destruct (Z.even f); try lia; exfalso; lra.
  - pose proof (py_round_int_bounds x). pose proof (py_round_int_bounds y).
    lia.
Qed.

Lemma pow10_pos (n : nat) : (0 < pow10 n)%Z.
Proof. unfold pow10. apply Z.pow_pos_nonneg; lia. Qed.

Lemma inject_pow10_pos (n : nat) : 0 < inject_Z (pow10 n).
Proof.
  pose proof (pow10_pos n). unfold Qlt. simpl. lia.
Qed.

#[export] Instance py_round_proper :
  Proper (Qeq ==> eq ==> eq) py_round.
Proof.
  intros x y Hxy n n' <-. unfold py_round.
  assert (E : x * inject_Z (pow10 n) == y * inject_Z (pow10 n))
    by now rewrite Hxy.
  now rewrite E.
Qed.

Lemma py_round_mono (x y : Q) (n : nat) :
  x <= y -> py_round x n <= py_round y n.
Proof.
  intros Hxy. unfold py_round. rewrite !Qred_correct.
  pose proof (inject_pow10_pos n) as Hp.
  apply Qmult_le_compat_r.
  - rewrite <- Zle_Qle. apply py_round_int_mono.
    apply Qmult_le_compat_r; [exact Hxy | now apply Qlt_le_weak].
  - apply Qlt_le_weak. now apply Qinv_lt_0_compat.
Qed.

(** A value with at most [n] decimals is left alone by [round(x, n)]. *)
Lemma py_round_exact (x : Q) (n : nat) (z : Z) :
  x * inject_Z (pow10 n) == inject_Z z -> py_round x n == x.
Proof.
  intros H. unfold py_round. rewrite Qred_correct, H, py_round_int_integer.
  rewrite <- H. field.
  pose proof (inject_pow10_pos n) as Hp. intros E. rewrite E in Hp.
  now apply Qlt_irrefl in Hp.
Qed.

(* ================================================================== *)
(** * Tiers *)
(* ================================================================== *)

(** The three tiers are the lower-closed intervals cut at 0.33 and
    0.67; every rational falls in exactly one. *)
Lemma _get_tier_spec (v : Q) :
  (_get_tier v = "low" <-> v < 0.33) /\
  (_get_tier v = "mid" <-> 0.33 <= v /\ v < 0.67) /\
  (_get_tier v = "high" <-> 0.67 <= v).
Proof.
  unfold _get_tier.
  destruct (Qltb v 0.33) eqn:E1; [|destruct (Qltb v 0.67) eqn:E2];
    try apply Qltb_lt in E1; try apply Qltb_ge in E1;
    try apply Qltb_lt in E2; try apply Qltb_ge in E2;
    (split; [|split]); (split; [intros H | intros H]);
    try discriminate; try reflexivity; try lra; exfalso; lra.
Qed.

(** C2.  For each of the 8 dimensions and both output tables, the
    value 0.33 is in tier "mid" with boundary proximity 0.0, the value
    0.329999 is in tier "low" with a boundary proximity that rounds to
    1.0, and 0.67 is in tier "high" with boundary proximity 0.0; the
    tiers are the lower-closed intervals below 0.33, from 0.33 to 0.67,
    and from 0.67 on. *)
Theorem tier_boundary_exactness (dim_id output_type : string) :
  In dim_id PARAMETER_NAMES ->
  In output_type output_types ->
  (exists r, _interpolate_tier_vocabularies dim_id 0.33 output_type = Ok r
             /\ annotated r "mid" 0.0) /\
  (exists r, _interpolate_tier_vocabularies dim_id 0.329999 output_type = Ok r
             /\ annotated r "low" 1.0
             /\ ~ 0.329999 / 0.33 == 1.0) /\
  (exists r, _interpolate_tier_vocabularies dim_id 0.67 output_type = Ok r
             /\ annotated r "high" 0.0) /\
  (forall v, (_get_tier v = "low" <-> v < 0.33) /\
             (_get_tier v = "mid" <-> 0.33 <= v /\ v < 0.67) /\
             (_get_tier v = "high" <-> 0.67 <= v)).
Proof.
  intros Hd Ho.
  assert (Hq : ~ 0.329999 / 0.33 == 1.0)
    by (intros E; vm_compute in E; discriminate).
  unfold annotated.
  simpl in Hd, Ho.
  repeat (destruct Hd as [<-|Hd]; [|try contradiction]);
    repeat (destruct Ho as [<-|Ho]; [|try contradiction]);
    (split; [|split; [|split; [|exact _get_tier_spec]]]);
    eexists; (split; [vm_compute; reflexivity|]);
    repeat split; try exact Hq; try (vm_compute; reflexivity);
    eexists; (split; [vm_compute; reflexivity | reflexivity]).
Qed.

Lemma tier_boundary_exactness_witness :
  (exists r, _interpolate_tier_vocabularies "interiority" 0.33
               "text_output_mapping" = Ok r
             /\ annotated r "mid" 0.0).
Proof.
  apply (tier_boundary_exactness "interiority" "text_output_mapping");
    simpl; tauto.
Defined.

(* ================================================================== *)
(** * Loops *)
(* ================================================================== *)

(** A loop whose body keeps an invariant and never raises under it
    runs to the end and keeps the invariant. *)
Lemma for_each_ok {A S : Type} (P : S -> Prop) (l : list A)
    (body : S -> A -> M S) (acc : S) :
  P acc ->
  (forall s x, In x l -> P s -> exists s', body s x = Ok s' /\ P s') ->
  exists s', for_each l body acc = Ok s' /\ P s'.
Proof.
  revert acc. induction l as [|x l IH]; simpl; intros acc Hacc Hbody.
  - eauto.
  - destruct (Hbody acc x (or_introl eq_refl) Hacc) as [s' [E Hs']].
    rewrite E. simpl. apply IH; [exact Hs'|].
    intros s y Hy. apply Hbody. now right.
Qed.

(** The first failing turn of a loop is its outcome. *)
Lemma for_each_raise {A S : Type} (l1 l2 : list A) (x : A)
    (body : S -> A -> M S) (acc s : S) (e : exn) :
  for_each l1 body acc = Ok s ->
  body s x = Raise e ->
  for_each (l1 ++ x :: l2) body acc = Raise e.
Proof.
  revert acc. induction l1 as [|y l1 IH]; simpl; intros acc H1 H2.
  - inversion H1; subst. now rewrite H2.
  - destruct (body acc y) as [s'|e']; simpl in *; [|discriminate].
    now apply IH.
Qed.

Lemma build_dict_from {V : Type} (names : list string) (f : string -> M V)
    (acc : dict V) :
  (forall k, In k names -> exists v, f k = Ok v) ->
  exists d,
    for_each names (fun result k => v <- f k ;; Ok (setitem result k v)) acc
    = Ok d
    /\ (forall k, In k names -> exists v, f k = Ok v /\ lookup k d = Some v)
    /\ (forall k, ~ In k names -> lookup k d = lookup k acc)
    /\ (NoDup names -> (forall k, In k names -> ~ In k (keys acc)) ->
        keys d = (keys acc ++ names)%list).
Proof.
  revert acc. induction names as [|k ns IH]; intros acc Hf.
  - exists acc. simpl. repeat split; try tauto.
    intros _ _. now rewrite app_nil_r.
  - destruct (Hf k (or_introl eq_refl)) as [v Ev].
    destruct (IH (setitem acc k v)) as [d [Ed [Hin [Hout Hkeys]]]].
    { intros k' Hk'. apply Hf. now right. }
    exists d. simpl. rewrite Ev. simpl. split; [exact Ed|]. repeat split.
    + intros k' [<-|Hk'].
      * destruct (in_dec string_dec k ns) as [Hi|Hn]; [now apply Hin|].
        exists v. split; [exact Ev|].
        rewrite (Hout k Hn). apply lookup_setitem_same.
      * now apply Hin.
    + intros k' Hk'. rewrite Hout by tauto.
      apply lookup_setitem_other. intros ->. apply Hk'. now left.
    + intros Hnd Hdisj. inversion Hnd as [|? ? Hk Hns]; subst.
      assert (Hnew : ~ In k (keys acc)) by (apply Hdisj; now left).
      rewrite Hkeys; [| exact Hns |].
      * rewrite (keys_setitem_new _ _ _ Hnew), <- app_assoc. reflexivity.
      * intros k' Hk'. rewrite (keys_setitem_new _ _ _ Hnew).
        rewrite in_app_iff. intros [H|[->|[]]]; [|contradiction].
        revert H. apply Hdisj. now right.
Qed.

Lemma build_dict_ok {V : Type} (names : list string) (f : string -> M V) :
  (forall k, In k names -> exists v, f k = Ok v) ->
  exists d,
    build_dict names f = Ok d
    /\ (forall k, In k names -> exists v, f k = Ok v /\ lookup k d = Some v)
    /\ (NoDup names -> keys d = names).
Proof.
  intros Hf. destruct (build_dict_from names f [] Hf) as [d [E [Hin [_ Hk]]]].
  exists d. split; [exact E|]. split; [exact Hin|].
  intros Hnd. apply Hk; [exact Hnd | intros k _ []].
Qed.

Lemma build_dict_raise {V : Type} (k : string) (names : list string)
    (f : string -> M V) (e : exn) :
  f k = Raise e -> build_dict (k :: names) f = Raise e.
Proof. intros H. unfold build_dict. simpl. now rewrite H. Qed.

(* ================================================================== *)
(** * Facts about the catalog *)
(* ================================================================== *)

Lemma NoDup_PARAMETER_NAMES : NoDup PARAMETER_NAMES.
Proof.
  unfold PARAMETER_NAMES.
  repeat (constructor; [simpl; intuition discriminate|]). constructor.
Qed.

Lemma get_coordinates_known (a : string) :
  known a ->
  exists e, In (a, e) AUTHOR_CATALOG /\ getitem AUTHOR_CATALOG a = Ok e
            /\ get_coordinates a = Ok (coordinates e).
Proof.
  intros H. apply lookup_keys in H. destruct H as [e He].
  exists e. split; [now apply lookup_In|].
  unfold get_coordinates, contains, getitem. rewrite He. simpl. auto.
Qed.

Lemma get_coordinates_unknown (a : string) :
  ~ known a -> get_coordinates a = Raise (unknown_author a).
Proof.
  intros H. unfold get_coordinates, contains.
  destruct (lookup a AUTHOR_CATALOG) as [e|] eqn:E; [|reflexivity].
  exfalso. apply H. apply lookup_keys. eauto.
Qed.

Lemma catalog_entries_ok :
  forall a e, In (a, e) AUTHOR_CATALOG -> entry_ok e = true.
Proof.
  assert (H : forallb (fun kv => entry_ok (snd kv)) AUTHOR_CATALOG = true)
    by (vm_compute; reflexivity).
  rewrite forallb_forall in H. intros a e Hin. exact (H _ Hin).
Qed.

Lemma entry_coordinate (a : string) (e : AuthorEntry) (p : string) :
  In (a, e) AUTHOR_CATALOG -> In p PARAMETER_NAMES ->
  exists c, lookup p (coordinates e) = Some c /\ py_round c 4 == c.
Proof.
  intros He Hp. apply catalog_entries_ok in He.
  unfold entry_ok in He. apply andb_true_iff in He. destruct He as [Hk Hv].
  destruct (list_eq_dec _ _ _) as [Ek|]; [|discriminate].
  rewrite <- Ek in Hp. apply lookup_keys in Hp. destruct Hp as [c Hc].
  exists c. split; [exact Hc|].
  rewrite forallb_forall in Hv. apply lookup_In in Hc.
  apply Qeq_bool_iff. exact (Hv _ Hc).
Qed.

Lemma entry_keys (a : string) (e : AuthorEntry) :
  In (a, e) AUTHOR_CATALOG -> keys (coordinates e) = PARAMETER_NAMES.
Proof.
  intros He. apply catalog_entries_ok in He.
  unfold entry_ok in He. apply andb_true_iff in He. destruct He as [Hk _].
  now destruct (list_eq_dec _ _ _).
Qed.

(* ================================================================== *)
(** * Vocabulary extraction never fails on the 8 dimensions *)
(* ================================================================== *)

Lemma _interpolate_tier_vocabularies_ok (dim_id : string) (v : Q)
    (output_type : string) :
  In dim_id PARAMETER_NAMES -> In output_type output_types ->
  exists r, _interpolate_tier_vocabularies dim_id v output_type = Ok r
            /\ bundle_for dim_id v r.
Proof.
  intros Hd Ho. unfold bundle_for, _interpolate_tier_vocabularies, _get_tier.
  generalize (py_round v 3); intros q0.
  generalize (py_round (v / 0.33) 3); intros q1.
  generalize (py_round ((v - 0.33) / 0.34) 3); intros q2.
  generalize (py_round ((v - 0.67) / 0.33) 3); intros q3.
  simpl in Hd, Ho.
  destruct (Qltb v 0.33); [|destruct (Qltb v 0.67)];
    repeat (destruct Hd as [<-|Hd]; [|try contradiction]);
    repeat (destruct Ho as [<-|Ho]; [|try contradiction]);
    (eexists; split; [vm_compute; reflexivity|]);
    (split; [reflexivity|]); (split; [reflexivity|]);
    (split; [reflexivity|]); (split; [eexists; reflexivity|]);
    vm_compute; reflexivity.
Qed.

Lemma extract_vocabulary_ok (output_type : string) (coordinates : dict Q) :
  In output_type output_types -> has_all_dimensions coordinates ->
  exists r, extract_vocabulary output_type coordinates = Ok r
            /\ keys r = PARAMETER_NAMES
            /\ forall p, In p PARAMETER_NAMES ->
                 exists v b, lookup p coordinates = Some v
                             /\ lookup p r = Some b /\ bundle_for p v b.
Proof.
  intros Ho Hc. unfold extract_vocabulary.
  destruct (build_dict_ok PARAMETER_NAMES
              (fun dim_id =>
                 v <- getitem coordinates dim_id ;;
                 _interpolate_tier_vocabularies dim_id v output_type))
    as [r [E [Hin Hk]]].
  - intros p Hp. destruct (Hc p Hp) as [v Hv].
    destruct (_interpolate_tier_vocabularies_ok p v output_type Hp Ho)
      as [b [Eb _]].
    exists b. unfold getitem. rewrite Hv. exact Eb.
  - exists r. split; [exact E|]. split; [exact (Hk NoDup_PARAMETER_NAMES)|].
    intros p Hp. destruct (Hin p Hp) as [b [Eb Hb]].
    destruct (Hc p Hp) as [v Hv]. exists v, b.
    split; [exact Hv|]. split; [exact Hb|].
    unfold getitem in Eb. rewrite Hv in Eb. simpl in Eb.
    destruct (_interpolate_tier_vocabularies_ok p v output_type Hp Ho)
      as [b' [Eb' Hb']].
    rewrite Eb in Eb'. inversion Eb'; subst. exact Hb'.
Qed.

(** The directive sentences are then collected without error, one per
    dimension. *)
Lemma collect_directives_ok (dims : dict (dict pyobj)) :
  (forall p, In p PARAMETER_NAMES -> exists b, lookup p dims = Some b) ->
  exists parts, collect_directives dims = Ok parts.
Proof.
  intros H. unfold collect_directives.
  destruct (for_each_ok (fun _ => True) PARAMETER_NAMES
              (fun parts dim_id =>
                 tier_data <- getitem dims dim_id ;;
                 Ok (parts ++ directive_sentences tier_data)%list) [] I)
    as [parts [E _]]; [|eauto].
  intros s p Hp _. destruct (H p Hp) as [b Hb].
  unfold getitem. rewrite Hb. simpl. eauto.
Qed.

(* ================================================================== *)
(** * Sorting *)
(* ================================================================== *)

Section Sorting.

Context {A : Type} (key : A -> Q).

Lemma insert_by_perm (x : A) (l : list A) :
  Permutation (insert_by key x l) (x :: l).
Proof.
  induction l as [|y l IH]; simpl; [reflexivity|].
  destruct (Qleb (key x) (key y)); [reflexivity|].
  rewrite IH. apply perm_swap.
Qed.

Lemma sorted_perm (l : list A) : Permutation (sorted key l) l.
Proof.
  induction l as [|x l IH]; simpl; [reflexivity|].
  rewrite insert_by_perm. now constructor.
Qed.

Lemma sorted_In (l : list A) (x : A) : In x (sorted key l) <-> In x l.
Proof.
  split; apply Permutation_in;
    [apply sorted_perm | apply Permutation_sym, sorted_perm].
Qed.

Lemma insert_by_sorted (x : A) (l : list A) :
  StronglySorted (key_le key) l ->
  StronglySorted (key_le key) (insert_by key x l).
Proof.
  induction 1 as [|y l Hl IH Hy]; simpl.
  - repeat constructor.
  - destruct (Qleb (key x) (key y)) eqn:E.
    + apply Qleb_le in E. constructor; [now constructor|].
      constructor; [exact E|].
      eapply Forall_impl; [|exact Hy].
      intros z Hz. unfold key_le in *. lra.
    + apply Qleb_gt in E. constructor; [exact IH|].
      apply (Permutation_Forall (Permutation_sym (insert_by_perm x l))).
      constructor; [|exact Hy]. unfold key_le. lra.
Qed.

Lemma sorted_sorted (l : list A) : StronglySorted (key_le key) (sorted key l).
Proof.
  induction l as [|x l IH]; simpl; [constructor|].
  now apply insert_by_sorted.
Qed.

(** Filtering commutes with sorting: the sort never reorders the
    elements it keeps, so elements with equal keys stay in input order. *)
Lemma insert_by_filter (f : A -> bool) (x : A) (l : list A) :
  StronglySorted (key_le key) l ->
  filter f (insert_by key x l)
  = if f x then insert_by key x (filter f l) else filter f l.
Proof.
  intros Hs. induction Hs as [|y l Hl IH Hy]; simpl.
  - destruct (f x); reflexivity.
  - destruct (Qleb (key x) (key y)) eqn:E; simpl.
    + destruct (f x) eqn:Fx, (f y) eqn:Fy; simpl; try reflexivity.
      * now rewrite E.
      * apply Qleb_le in E.
        destruct (filter f l) as [|z t] eqn:Ef; [reflexivity|]. simpl.
        assert (Hz : In z (filter f l)) by (rewrite Ef; now left).
        apply filter_In in Hz. destruct Hz as [Hz _].
        rewrite Forall_forall in Hy. specialize (Hy z Hz).
        unfold key_le in Hy.
        assert (Hxz : key x <= key z) by lra.
        apply Qleb_le in Hxz. now rewrite Hxz.
    + rewrite IH. destruct (f x) eqn:Fx, (f y) eqn:Fy; simpl;
        try reflexivity.
      now rewrite E.
Qed.

Lemma sorted_filter (f : A -> bool) (l : list A) :
  filter f (sorted key l) = sorted key (filter f l).
Proof.
  induction l as [|x l IH]; simpl; [reflexivity|].
  rewrite insert_by_filter by apply sorted_sorted.
  rewrite IH. destruct (f x); reflexivity.
Qed.

Lemma sorted_equal_keys (l : list A) (k : Q) :
  Forall (fun x => key x == k) l -> sorted key l = l.
Proof.
  induction 1 as [|x l Hx Hl IH]; simpl; [reflexivity|].
  rewrite IH. destruct Hl as [|y l Hy Hl]; simpl; [reflexivity|].
  assert (E : key x <= key y) by (rewrite Hx, Hy; apply Qle_refl).
  apply Qleb_le in E. now rewrite E.
Qed.

(** Stability of [sorted]: the elements of any one key appear in the
    order they had in the input. *)
Lemma sorted_stable (l : list A) (k : Q) :
  filter (fun x => Qeq_bool (key x) k) (sorted key l)
  = filter (fun x => Qeq_bool (key x) k) l.
Proof.
  rewrite sorted_filter. apply sorted_equal_keys with (k := k).
  apply Forall_forall. intros x Hx. apply filter_In in Hx.
  now apply Qeq_bool_iff.
Qed.

End Sorting.

(* ================================================================== *)
(** * The blended point in closed form *)
(* ================================================================== *)

Lemma stored_known (a p : string) :
  known a -> In p PARAMETER_NAMES ->
  stored a p = Ok (coordinate a p)
  /\ py_round (coordinate a p) 4 == coordinate a p.
Proof.
  intros Ha Hp. destruct (get_coordinates_known a Ha) as [e [He [_ Ec]]].
  destruct (entry_coordinate a e p He Hp) as [c [Hc Hr]].
  unfold coordinate, stored. rewrite Ec. simpl.
  unfold getitem. rewrite Hc. split; [reflexivity | exact Hr].
Qed.

Lemma get_coordinates_has_all (a : string) (c : AuthorCoordinates) :
  get_coordinates a = Ok c -> has_all_dimensions c.
Proof.
  intros E. unfold get_coordinates in E.
  destruct (contains AUTHOR_CATALOG a); simpl in E; [|discriminate].
  apply bind_Ok in E. destruct E as [e [He Hc]]. inversion Hc; subst.
  apply getitem_Ok, lookup_In in He.
  intros p Hp. destruct (entry_coordinate a e p He Hp) as [v [Hv _]]. eauto.
Qed.

Lemma py_sum_from (l : list Q) (acc : Q) :
  fold_left Qplus l acc == acc + Qsum l.
Proof.
  revert acc. induction l as [|x l IH]; simpl; intros acc; [ring|].
  rewrite IH. ring.
Qed.

Lemma py_sum_Qsum (l : list Q) : py_sum l == Qsum l.
Proof. unfold py_sum. rewrite py_sum_from. ring. Qed.

Lemma blended_value_from (p : string) (l : dict Q) (acc : Q) :
  In p PARAMETER_NAMES ->
  (forall a, In a (keys l) -> known a) ->
  exists val,
    for_each l
      (fun val '(author_id, weight) =>
         coords <- get_coordinates author_id ;;
         c <- getitem coords p ;;
         Ok (val + c * weight))
      acc = Ok val
    /\ val == acc + weighted_sum p l.
Proof.
  intros Hp. revert acc. induction l as [|[a w] l IH]; intros acc Hk.
  - exists acc. simpl. split; [reflexivity | ring].
  - assert (Ha : known a) by (apply Hk; now left).
    destruct (stored_known a p Ha Hp) as [Es _].
    unfold stored in Es. apply bind_Ok in Es.
    destruct Es as [coords [Ec Eg]].
    destruct (IH (acc + coordinate a p * w)) as [val [Ev Hv]].
    { intros a' Ha'. apply Hk. now right. }
    exists val. simpl. rewrite Ec. simpl. rewrite Eg. simpl.
    split; [exact Ev|]. rewrite Hv. ring.
Qed.

Lemma blended_value_ok (p : string) (normalized : dict Q) :
  In p PARAMETER_NAMES ->
  (forall a, In a (keys normalized) -> known a) ->
  exists val, blended_value normalized p = Ok val
              /\ val == weighted_sum p normalized.
Proof.
  intros Hp Hk.
  destruct (blended_value_from p normalized 0.0 Hp Hk) as [val [E Hv]].
  exists val. split; [exact E|]. rewrite Hv. ring.
Qed.

Lemma blended_coordinates_ok (normalized : dict Q) :
  (forall a, In a (keys normalized) -> known a) ->
  exists blended,
    blended_coordinates normalized = Ok blended
    /\ keys blended = PARAMETER_NAMES
    /\ forall p, In p PARAMETER_NAMES ->
         exists val, val == weighted_sum p normalized
                     /\ lookup p blended = Some (py_round val 4).
Proof.
  intros Hk. unfold blended_coordinates.
  destruct (build_dict_ok PARAMETER_NAMES
              (fun p => val <- blended_value normalized p ;;
                        Ok (py_round val 4)))
    as [d [E [Hin Hkeys]]].
  - intros p Hp. destruct (blended_value_ok p normalized Hp Hk) as [v [Ev _]].
    rewrite Ev. simpl. eauto.
  - exists d. split; [exact E|].
    split; [exact (Hkeys NoDup_PARAMETER_NAMES)|].
    intros p Hp. destruct (Hin p Hp) as [b [Eb Hb]].
    destruct (blended_value_ok p normalized Hp Hk) as [v [Ev Hv]].
    rewrite Ev in Eb. simpl in Eb. inversion Eb; subst.
    exists v. split; [exact Hv | exact Hb].
Qed.

Lemma keys_has_all (d : dict Q) :
  keys d = PARAMETER_NAMES -> has_all_dimensions d.
Proof.
  intros E p Hp. rewrite <- E in Hp. now apply lookup_keys.
Qed.

(* ================================================================== *)
(** * The nearest-author scan never fails *)
(* ================================================================== *)

Lemma squared_gap_ok (blended coords : dict Q) :
  has_all_dimensions blended -> has_all_dimensions coords ->
  exists s, squared_gap blended coords = Ok s /\ 0 <= s.
Proof.
  intros Hb Hc. unfold squared_gap.
  apply (for_each_ok (fun s => 0 <= s)); [apply Qle_refl|].
  intros s p Hp Hs. destruct (Hb p Hp) as [b Eb], (Hc p Hp) as [c Ec].
  unfold getitem. rewrite Eb, Ec. simpl. eexists. split; [reflexivity|].
  pose proof (Qsqr_nonneg (b - c)) as H. simpl in H. lra.
Qed.

Lemma math_sqrt_ok (x : Q) : 0 <= x -> math_sqrt x = Ok (Sqrt x).
Proof.
  intros H. unfold math_sqrt. apply Qltb_ge in H. now rewrite H.
Qed.

Lemma nearest_step_ok (blended : dict Q) (aid : string)
    (st : option root * option string) :
  has_all_dimensions blended -> known aid ->
  exists d,
    (let '(min_dist, nearest) := st in
     coords <- get_coordinates aid ;;
     s <- squared_gap blended coords ;;
     dist <- math_sqrt s ;;
     if below dist min_dist then Ok (Some dist, Some aid)
     else Ok (min_dist, nearest))
    = Ok (if below d (fst st) then (Some d, Some aid) else st).
Proof.
  intros Hb Ha. destruct st as [min_dist nearest].
  destruct (get_coordinates_known aid Ha) as [e [_ [_ Ec]]].
  rewrite Ec. simpl.
  destruct (squared_gap_ok blended (coordinates e) Hb
              (get_coordinates_has_all _ _ Ec)) as [s [Es Hs]].
  rewrite Es. simpl. rewrite (math_sqrt_ok s Hs). simpl.
  exists (Sqrt s). destruct (below (Sqrt s) min_dist); reflexivity.
Qed.

Lemma nearest_scan_ok (blended : dict Q) :
  has_all_dimensions blended ->
  exists d aid, nearest_scan blended = Ok (Some d, Some aid) /\ known aid.
Proof.
  intros Hb. unfold nearest_scan.
  set (P := fun st : option root * option string =>
              exists d aid, st = (Some d, Some aid) /\ known aid).
  enough (H : exists st,
             for_each (keys AUTHOR_CATALOG)
               (fun '(min_dist, nearest) aid =>
                  coords <- get_coordinates aid ;;
                  s <- squared_gap blended coords ;;
                  dist <- math_sqrt s ;;
                  if below dist min_dist then Ok (Some dist, Some aid)
                  else Ok (min_dist, nearest))
               (None, None) = Ok st /\ P st).
  { destruct H as [st [E [d [aid [-> Hk]]]]]. eauto. }
  assert (Hstep : forall st aid, In aid (keys AUTHOR_CATALOG) ->
            (st = (None, None) \/ P st) ->
            exists st',
              (let '(min_dist, nearest) := st in
               coords <- get_coordinates aid ;;
               s <- squared_gap blended coords ;;
               dist <- math_sqrt s ;;
               if below dist min_dist then Ok (Some dist, Some aid)
               else Ok (min_dist, nearest)) = Ok st' /\ P st').
  { intros st aid Ha Hst.
    destruct (nearest_step_ok blended aid st Hb Ha) as [d E].
    eexists. split; [exact E|].
    destruct Hst as [->|Hst]; simpl.
    - exists d, aid. auto.
    - destruct (below d (fst st)); [exists d, aid; auto | exact Hst]. }
  change (keys AUTHOR_CATALOG)
    with ("hemingway" :: tl (keys AUTHOR_CATALOG)).
  cbn [for_each].
  destruct (Hstep (None, None) "hemingway") as [st1 [E1 P1]];
    [now left | now left |].
  cbv beta iota in E1. rewrite E1. cbn [bind].
  apply (for_each_ok P); [exact P1|].
  intros st aid Ha Hst. destruct st as [m n].
  apply (Hstep (m, n) aid); [now right | now right].
Qed.

(* ================================================================== *)
(** * Signature moves and display in closed form *)
(* ================================================================== *)

Lemma keys_In {V : Type} (d : dict V) (k : string) :
  In k (keys d) <-> exists v, In (k, v) d.
Proof.
  unfold keys. rewrite in_map_iff. split.
  - intros [[k' v] [E H]]. simpl in E. subst. eauto.
  - intros [v H]. exists (k, v). auto.
Qed.

Lemma by_weight_keys (normalized : dict Q) (a : string) :
  In a (keys (by_weight normalized)) <-> In a (keys normalized).
Proof.
  rewrite !keys_In. unfold by_weight.
  split; intros [w H]; exists w; [apply sorted_In in H | apply sorted_In];
    exact H.
Qed.

Lemma normalize_keys (blend_spec : dict Q) (total : Q) :
  keys (normalize blend_spec total) = keys blend_spec.
Proof.
  unfold keys, normalize. rewrite map_map. apply map_ext.
  now intros [k v].
Qed.

Lemma blended_moves_from (l : dict Q) (acc : list string) :
  (forall a, In a (keys l) -> known a) ->
  for_each l
    (fun moves '(author_id, weight) =>
       entry <- getitem AUTHOR_CATALOG author_id ;;
       Ok (moves ++ slice_to (signature_moves entry) (n_moves weight))%list)
    acc
  = Ok (acc ++ flat_map (fun '(a, w) => slice_to (moves_of a) (n_moves w)) l)
       %list.
Proof.
  revert acc. induction l as [|[a w] l IH]; intros acc Hk; simpl.
  - now rewrite app_nil_r.
  - destruct (get_coordinates_known a) as [e [_ [Eg _]]];
      [apply Hk; now left|].
    unfold moves_of. rewrite Eg. simpl.
    rewrite IH by (intros a' Ha'; apply Hk; now right).
    now rewrite app_assoc.
Qed.

Lemma blended_moves_ok (normalized : dict Q) :
  (forall a, In a (keys normalized) -> known a) ->
  blended_moves normalized
  = Ok (flat_map (fun '(a, w) => slice_to (moves_of a) (n_moves w))
          (by_weight normalized)).
Proof.
  intros Hk. unfold blended_moves. rewrite blended_moves_from.
  - reflexivity.
  - intros a Ha. apply Hk. now apply by_weight_keys.
Qed.

Lemma blend_display_of_ok (normalized : dict Q) :
  (forall a, In a (keys normalized) -> known a) ->
  exists s, blend_display_of normalized = Ok s.
Proof.
  intros Hk. unfold blend_display_of.
  destruct (for_each_ok (fun _ => True) (by_weight normalized)
              (fun parts '(aid, w) =>
                 entry <- getitem AUTHOR_CATALOG aid ;;
                 Ok (parts ++ [(str_of_Z (py_round_int (w * 100)) ++ "% "
                                ++ display_name entry)%string])%list)
              [] I) as [parts [E _]].
  - intros s [a w] Hin _.
    destruct (get_coordinates_known a) as [e [_ [Eg _]]].
    { apply Hk, by_weight_keys, keys_In. eauto. }
    rewrite Eg. simpl. eauto.
  - rewrite E. simpl. eauto.
Qed.

(* ================================================================== *)
(** * A blend of known authors with a positive total succeeds *)
(* ================================================================== *)

Lemma interpolate_styles_ok (blend_spec : dict Q) :
  (forall a, In a (keys blend_spec) -> known a) ->
  0 < py_sum (values blend_spec) ->
  let normalized := normalize blend_spec (py_sum (values blend_spec)) in
  exists r,
    interpolate_styles blend_spec = Ok r
    /\ blended_coordinates normalized = Ok (Blend.coordinates r)
    /\ Blend.signature_moves r
       = flat_map (fun '(a, w) => slice_to (moves_of a) (n_moves w))
           (by_weight normalized)
    /\ Blend.blend_spec r
       = map (fun '(aid, w) => (aid, py_round w 3)) normalized
    /\ known (Blend.id (Blend.nearest_catalog_author r)).
Proof.
  intros Hk Hpos normalized.
  assert (Hkn : forall a, In a (keys normalized) -> known a).
  { intros a Ha. apply Hk. unfold normalized in Ha.
    now rewrite normalize_keys in Ha. }
  unfold interpolate_styles.
  destruct (is_empty blend_spec) eqn:Eempty.
  { destruct blend_spec; [|discriminate]. exfalso.
    unfold py_sum in Hpos. simpl in Hpos. lra. }
  apply Qleb_gt in Hpos. rewrite Hpos. cbv zeta. fold normalized.
  destruct (blended_coordinates_ok normalized Hkn) as [blended [Eb [Kb _]]].
  rewrite Eb. cbn [bind].
  pose proof (keys_has_all blended Kb) as Hall.
  destruct (nearest_scan_ok blended Hall) as [d [aid [En Hn]]].
  rewrite En. cbn [bind].
  destruct (extract_vocabulary_ok "text_output_mapping" blended)
    as [tv [Et _]]; [simpl; tauto | exact Hall |].
  destruct (extract_vocabulary_ok "image_output_mapping" blended)
    as [iv [Ei _]]; [simpl; tauto | exact Hall |].
  unfold _extract_text_vocabulary, _extract_image_vocabulary.
  rewrite Et, Ei. cbn [bind].
  rewrite (blended_moves_ok normalized Hkn). cbn [bind].
  destruct (blend_display_of_ok normalized Hkn) as [s Es].
  rewrite Es. cbn [bind].
  destruct (get_coordinates_known aid Hn) as [e [_ [Eg _]]].
  rewrite Eg. cbn [bind].
  eexists. split; [reflexivity|]. simpl. auto.
Qed.

(* ================================================================== *)
(** * Normalized weights *)
(* ================================================================== *)

Lemma Qsum_normalize (l : dict Q) (t : Q) :
  Qsum (values (normalize l t)) == Qsum (values l) / t.
Proof.
  induction l as [|[a w] l IH]; simpl.
  - unfold Qdiv. ring.
  - unfold values in *. rewrite IH. unfold Qdiv. ring.
Qed.

Lemma normalized_total (blend_spec : dict Q) :
  0 < py_sum (values blend_spec) ->
  Qsum (values (normalize blend_spec (py_sum (values blend_spec)))) == 1.
Proof.
  intros Hpos. rewrite Qsum_normalize, <- py_sum_Qsum.
  field. intros E. rewrite E in Hpos. now apply Qlt_irrefl in Hpos.
Qed.

Lemma normalize_In (l : dict Q) (t : Q) (a : string) (w : Q) :
  In (a, w) (normalize l t) -> exists v, In (a, v) l /\ w = v / t.
Proof.
  unfold normalize. rewrite in_map_iff.
  intros [[a' v] [E H]]. inversion E; subst. eauto.
Qed.

Lemma Qdiv_nonneg (v t : Q) : 0 <= v -> 0 < t -> 0 <= v / t.
Proof.
  intros Hv Ht. apply Qle_shift_div_l; [exact Ht|]. lra.
Qed.

(** A sum of values in [[lo, hi]] under non-negative weights lies
    between [lo] and [hi] times the total weight. *)
Lemma weighted_sum_bounds (p : string) (l : dict Q) (lo hi : Q) :
  (forall a w, In (a, w) l ->
     0 <= w /\ lo <= coordinate a p /\ coordinate a p <= hi) ->
  lo * Qsum (values l) <= weighted_sum p l
  /\ weighted_sum p l <= hi * Qsum (values l).
Proof.
  induction l as [|[a w] l IH]; intros H; simpl.
  - lra.
  - destruct (H a w (or_introl eq_refl)) as [Hw [Hlo Hhi]].
    destruct IH as [IHlo IHhi].
    { intros a' w' Hin. apply H. now right. }
    unfold values in *.
    pose proof (Qmult_le_compat_r _ _ w Hlo Hw) as H1.
    pose proof (Qmult_le_compat_r _ _ w Hhi Hw) as H2.
    split; lra.
Qed.




(* ================================================================== *)
(** * Properties of the blend *)
(* ================================================================== *)


Lemma blended_point (blend_spec : dict Q) (r : Blend.Result) :
  (forall a, In a (keys blend_spec) -> known a) ->
  0 < py_sum (values blend_spec) ->
  interpolate_styles blend_spec = Ok r ->
  keys (Blend.coordinates r) = PARAMETER_NAMES
  /\ forall p, In p PARAMETER_NAMES ->
       exists val,
         val == weighted_sum p
                  (normalize blend_spec (py_sum (values blend_spec)))
         /\ lookup p (Blend.coordinates r) = Some (py_round val 4).
Proof.
  intros Hk Hpos Er.
  destruct (interpolate_styles_ok blend_spec Hk Hpos) as [r' [Er' [Eb _]]].
  rewrite Er in Er'. inversion Er'; subst r'. clear Er'.
  destruct (blended_coordinates_ok
              (normalize blend_spec (py_sum (values blend_spec))))
    as [blended [Eb' H]].
  - intros a Ha. apply Hk. now rewrite normalize_keys in Ha.
  - rewrite Eb in Eb'. inversion Eb'; subst. exact H.
Qed.



(** C4.  A blend of one catalog author with any positive weight has
    exactly that author's stored coordinates: the same 8 keys, and under
    each key the same number. *)
Theorem single_entry_blend_identity (a : string) (w : Q) :
  known a -> 0 < w ->
  exists r coords,
    interpolate_styles [(a, w)] = Ok r
    /\ get_coordinates a = Ok coords
    /\ keys (Blend.coordinates r) = keys coords
    /\ forall p v, lookup p coords = Some v ->
         exists b, lookup p (Blend.coordinates r) = Some b /\ b == v.
Proof.
  intros Ha Hw.
  assert (Hk : forall a', In a' (keys [(a, w)]) -> known a').
  { intros a' [<-|[]]. exact Ha. }
  assert (Hpos : 0 < py_sum (values [(a, w)])).
  { unfold py_sum. simpl. lra. }
  destruct (interpolate_styles_ok _ Hk Hpos) as [r [Er _]].
  destruct (blended_point _ r Hk Hpos Er) as [Kb Hl].
  destruct (get_coordinates_known a Ha) as [e [He [_ Ec]]].
  exists r, (coordinates e).
  split; [exact Er|]. split; [exact Ec|].
  split; [now rewrite Kb, (entry_keys a e He)|].
  intros p v Hv.
  assert (Hp : In p PARAMETER_NAMES).
  { rewrite <- (entry_keys a e He). apply lookup_keys. eauto. }
  destruct (Hl p Hp) as [val [Hval Hb]].
  destruct (stored_known a p Ha Hp) as [Es Hr].
  assert (Ev : coordinate a p = v).
  { unfold stored in Es. rewrite Ec in Es. simpl in Es.
    apply getitem_Ok in Es. congruence. }
  exists (py_round val 4). split; [exact Hb|].
  assert (E : val == v).
  { rewrite Hval. simpl. rewrite Ev.
    unfold py_sum. simpl. field. lra. }
  rewrite E, <- Ev. exact Hr.
Qed.

Lemma single_entry_blend_identity_witness :
  exists r coords,
    interpolate_styles [("kafka", 3)] = Ok r
    /\ get_coordinates "kafka" = Ok coords
    /\ keys (Blend.coordinates r) = keys coords
    /\ forall p v, lookup p coords = Some v ->
         exists b, lookup p (Blend.coordinates r) = Some b /\ b == v.
Proof.
  apply (single_entry_blend_identity "kafka" 3).
  - unfold known. simpl. tauto.
  - reflexivity.
Defined.

(* ================================================================== *)
(** * Prompt generation from raw coordinates *)
(* ================================================================== *)

Lemma has_all_dimensions_nonempty (cc : dict Q) :
  has_all_dimensions cc -> exists c0 cc', cc = c0 :: cc'.
Proof.
  intros H. destruct cc as [|c0 cc']; [|eauto].
  destruct (H "syntactic_density") as [v Hv];
    [unfold PARAMETER_NAMES; simpl; tauto | discriminate].
Qed.

Lemma extraction_lookups (cc : dict Q) (dims : dict (dict pyobj)) :
  follows_tiers cc dims ->
  forall p, In p PARAMETER_NAMES -> exists b, lookup p dims = Some b.
Proof.
  intros [_ H] p Hp. destruct (H p Hp) as [v [b [_ [Hb _]]]]. eauto.
Qed.

Lemma text_prompt_custom (author_id : option string)
    (blend_spec : option (dict Q)) (cc : dict Q) :
  truthy_str author_id = false -> truthy_dict blend_spec = false ->
  has_all_dimensions cc ->
  exists r,
    generate_text_prompt author_id blend_spec (Some cc) = Ok r
    /\ TextPrompt.source r = "Custom coordinates"
    /\ TextPrompt.coordinates r = cc
    /\ follows_tiers cc (TextPrompt.per_dimension_directives r).
Proof.
  intros Ha Hb Hc.
  destruct (extract_vocabulary_ok "text_output_mapping" cc)
    as [dims [Ed [Kd Hd]]]; [simpl; tauto | exact Hc |].
  assert (Hf : follows_tiers cc dims) by (split; assumption).
  destruct (collect_directives_ok dims
              (extraction_lookups cc dims Hf))
    as [parts Ep].
  destruct (has_all_dimensions_nonempty cc Hc) as [c0 [cc' Ecc]].
  assert (E : generate_text_prompt author_id blend_spec (Some cc)
              = (dim_directives <- _extract_text_vocabulary cc ;;
                 directive_parts <- collect_directives dim_directives ;;
                 Ok {| TextPrompt.source := "Custom coordinates";
                       TextPrompt.coordinates := cc;
                       TextPrompt.master_directive := join " " directive_parts;
                       TextPrompt.signature_moves := "";
                       TextPrompt.vocabulary_constraints := "";
                       TextPrompt.full_prompt :=
                         strip ("[Style: " ++ "Custom coordinates" ++ "] "
                                ++ join " " directive_parts
                                ++ " " ++ "" ++ " " ++ "");
                       TextPrompt.per_dimension_directives :=
                         dim_directives |})).
  { subst cc.
    destruct author_id as [[|]|], blend_spec as [[|]|];
      try discriminate; reflexivity. }
  rewrite E. unfold _extract_text_vocabulary. rewrite Ed. cbn [bind].
  rewrite Ep. cbn [bind].
  eexists. split; [reflexivity|]. simpl. auto.
Qed.

Lemma image_prompt_custom (author_id : option string)
    (blend_spec : option (dict Q)) (cc : dict Q) (style_modifier : string) :
  truthy_str author_id = false -> truthy_dict blend_spec = false ->
  has_all_dimensions cc ->
  exists r,
    generate_image_prompt author_id blend_spec (Some cc) style_modifier = Ok r
    /\ ImagePrompt.source r = "Custom coordinates"
    /\ ImagePrompt.coordinates r = cc
    /\ follows_tiers cc (ImagePrompt.per_dimension_visuals r).
Proof.
  intros Ha Hb Hc.
  destruct (extract_vocabulary_ok "image_output_mapping" cc)
    as [dims [Ed [Kd Hd]]]; [simpl; tauto | exact Hc |].
  assert (Hf : follows_tiers cc dims) by (split; assumption).
  destruct (collect_directives_ok dims
              (extraction_lookups cc dims Hf))
    as [parts Ep].
  destruct (has_all_dimensions_nonempty cc Hc) as [c0 [cc' Ecc]].
  assert (E : generate_image_prompt author_id blend_spec (Some cc)
                style_modifier
              = (dim_visuals <- _extract_image_vocabulary cc ;;
                 visual_directive_parts <- collect_directives dim_visuals ;;
                 Ok {| ImagePrompt.source := "Custom coordinates";
                       ImagePrompt.coordinates := cc;
                       ImagePrompt.prompt :=
                         join ", "
                           ((match style_modifier with
                             | EmptyString => []
                             | _ => [style_modifier]
                             end)
                            ++ slice_to visual_directive_parts 6)%list;
                       ImagePrompt.keywords := [];
                       ImagePrompt.color_palette := [];
                       ImagePrompt.compositional_rules := [];
                       ImagePrompt.per_dimension_visuals := dim_visuals |})).
  { subst cc.
    destruct author_id as [[|]|], blend_spec as [[|]|];
      try discriminate; reflexivity. }
  rewrite E. unfold _extract_image_vocabulary. rewrite Ed. cbn [bind].
  rewrite Ep. cbn [bind].
  eexists. split; [reflexivity|]. simpl. auto.
Qed.

(** C9.  With no author and no blend given, any raw coordinates that
    cover the 8 dimensions are accepted by both prompt generators,
    whatever their values: the result is complete, it carries the
    coordinates unchanged, and each dimension gets the bundle of the
    tier of its value.  The tier is defined for every number: "low"
    below 0.33, negatives included, and "high" from 0.67 on, values
    above 1.0 included. *)
Theorem custom_coordinates_accepted (author_id : option string)
    (blend_spec : option (dict Q)) (custom_coordinates : dict Q)
    (style_modifier : string) :
  truthy_str author_id = false -> truthy_dict blend_spec = false ->
  has_all_dimensions custom_coordinates ->
  (exists r,
     generate_text_prompt author_id blend_spec (Some custom_coordinates)
     = Ok r
     /\ TextPrompt.source r = "Custom coordinates"
     /\ TextPrompt.coordinates r = custom_coordinates
     /\ follows_tiers custom_coordinates
          (TextPrompt.per_dimension_directives r))
  /\ (exists r,
        generate_image_prompt author_id blend_spec (Some custom_coordinates)
          style_modifier = Ok r
        /\ ImagePrompt.source r = "Custom coordinates"
        /\ ImagePrompt.coordinates r = custom_coordinates
        /\ follows_tiers custom_coordinates
             (ImagePrompt.per_dimension_visuals r))
  /\ (forall v, (v < 0.33 -> _get_tier v = "low")
                /\ (0.67 <= v -> _get_tier v = "high")).
Proof.
  intros Ha Hb Hc. split; [|split].
  - now apply text_prompt_custom.
  - now apply image_prompt_custom.
  - intros v. destruct (_get_tier_spec v) as [Hlow [_ Hhigh]].
    split; [apply Hlow | apply Hhigh].
Qed.

Lemma custom_coordinates_accepted_witness :
  exists r,
    generate_text_prompt None (Some [])
      (Some (map (fun p => (p, if String.eqb p "interiority" then 7 # 2
                               else - (5 # 1))) PARAMETER_NAMES))
    = Ok r
    /\ TextPrompt.source r = "Custom coordinates".
Proof.
  destruct (custom_coordinates_accepted None (Some [])
              (map (fun p => (p, if String.eqb p "interiority" then 7 # 2
                                 else - (5 # 1))) PARAMETER_NAMES) "")
    as [[r [Er [Es _]]] _].
  - reflexivity.
  - reflexivity.
  - intros p Hp. unfold PARAMETER_NAMES in Hp. simpl in Hp.
    repeat (destruct Hp as [<-|Hp]; [eexists; vm_compute; reflexivity|]).
    destruct Hp.
  - exists r. split; [exact Er | exact Es].
Defined.

(* ================================================================== *)
(** * Which calls ask for a source *)
(* ================================================================== *)

Lemma other_Ok {A : Type} (a : A) : other_failure (Ok a).
Proof. discriminate. Qed.

Lemma other_bind {A B : Type} (m : M A) (k : A -> M B) :
  other_failure m -> (forall a, other_failure (k a)) ->
  other_failure (bind m k).
Proof.
  intros Hm Hk H. apply bind_Raise in H.
  destruct H as [H|[a [_ H]]]; [now apply Hm | now apply (Hk a)].
Qed.

Lemma other_for_each {A S : Type} (l : list A) (body : S -> A -> M S)
    (acc : S) :
  (forall s x, other_failure (body s x)) ->
  other_failure (for_each l body acc).
Proof.
  intros Hb. revert acc. induction l as [|x l IH]; intros acc; simpl.
  - apply other_Ok.
  - apply other_bind; [apply Hb | exact IH].
Qed.

Lemma other_build_dict {V : Type} (names : list string)
    (f : string -> M V) :
  (forall k, other_failure (f k)) -> other_failure (build_dict names f).
Proof.
  intros Hf. unfold build_dict. apply other_for_each.
  intros s x. apply other_bind; [apply Hf | intros; apply other_Ok].
Qed.

Lemma other_getitem {V : Type} (d : dict V) (k : string) :
  other_failure (getitem d k).
Proof. unfold getitem. destruct (lookup k d); discriminate. Qed.

Lemma other_get_coordinates (a : string) :
  other_failure (get_coordinates a).
Proof.
  unfold get_coordinates.
  destruct (negb (contains AUTHOR_CATALOG a)); [discriminate|].
  apply other_bind; [apply other_getitem | intros; apply other_Ok].
Qed.

Lemma other_math_sqrt (x : Q) : other_failure (math_sqrt x).
Proof. unfold math_sqrt. destruct (Qltb x 0); discriminate. Qed.

Lemma other_dimension_getitem (dim : DimensionSpec) (key : string) :
  other_failure (dimension_getitem dim key).
Proof.
  unfold dimension_getitem.
  repeat match goal with
         | |- other_failure (if ?c then _ else _) => destruct c
         end; discriminate.
Qed.

Ltac other_step :=
  first
    [ apply other_Ok
    | apply other_getitem
    | apply other_get_coordinates
    | apply other_math_sqrt
    | apply other_dimension_getitem
    | apply other_build_dict; intros
    | apply other_for_each; intros
    | apply other_bind; [|intros]
    | match goal with
      | |- other_failure (match ?x with (_, _) => _ end) => destruct x
      | |- other_failure ((match ?x with (_, _) => _ end) _) =>
          destruct x; cbv beta iota
      | |- other_failure (match ?x with Some _ => _ | None => _ end) =>
          destruct x
      | |- other_failure (match ?x with [] => _ | _ :: _ => _ end) =>
          destruct x
      | |- other_failure (if ?c then _ else _) => destruct c
      | |- other_failure (Raise _) => discriminate
      end ].

Ltac other_failures := repeat other_step.

Lemma other_extract_vocabulary (output_type : string) (coords : dict Q) :
  other_failure (extract_vocabulary output_type coords).
Proof.
  unfold extract_vocabulary, _interpolate_tier_vocabularies.
  other_failures.
Qed.

Lemma other_collect_directives (dims : dict (dict pyobj)) :
  other_failure (collect_directives dims).
Proof. unfold collect_directives. other_failures. Qed.

Lemma other_as_list (v : pyobj) : other_failure (as_list v).
Proof. destruct v; discriminate. Qed.

Lemma other_format_str (v : pyobj) : other_failure (format_str v).
Proof. destruct v; discriminate. Qed.

Lemma other_get_list (d : dict pyobj) (k : string) :
  other_failure (get_list d k).
Proof.
  unfold get_list. destruct (lookup k d); [apply other_as_list|].
  apply other_Ok.
Qed.

Lemma other_vocabulary_text (text_vocab : dict pyobj) :
  other_failure (vocabulary_text text_vocab).
Proof.
  unfold vocabulary_text.
  repeat first [ apply other_as_list | apply other_format_str | other_step ].
Qed.

Lemma other_interpolate_styles (blend_spec : dict Q) :
  other_failure (interpolate_styles blend_spec).
Proof.
  unfold interpolate_styles, blended_coordinates, blended_value,
    nearest_scan, squared_gap, _extract_text_vocabulary,
    _extract_image_vocabulary, blended_moves, blend_display_of.
  repeat first [ apply other_extract_vocabulary | other_step ].
Qed.

Ltac other_prompt :=
  repeat first
    [ apply other_interpolate_styles
    | apply other_extract_vocabulary
    | apply other_collect_directives
    | apply other_vocabulary_text
    | apply other_get_list
    | other_step ].

Lemma text_prompt_with_source (author_id : option string)
    (blend_spec custom_coordinates : option (dict Q)) :
  any_source author_id blend_spec custom_coordinates = true ->
  other_failure (generate_text_prompt author_id blend_spec
                   custom_coordinates).
Proof.
  intros H. unfold generate_text_prompt, _extract_text_vocabulary.
  destruct author_id as [[|ch s]|], blend_spec as [[|x l]|],
    custom_coordinates as [[|y l']|]; try discriminate H;
    cbv beta iota; other_prompt.
Qed.

Lemma image_prompt_with_source (author_id : option string)
    (blend_spec custom_coordinates : option (dict Q))
    (style_modifier : string) :
  any_source author_id blend_spec custom_coordinates = true ->
  other_failure (generate_image_prompt author_id blend_spec
                   custom_coordinates style_modifier).
Proof.
  intros H. unfold generate_image_prompt, _extract_image_vocabulary.
  destruct author_id as [[|ch s]|], blend_spec as [[|x l]|],
    custom_coordinates as [[|y l']|]; try discriminate H;
    cbv beta iota; other_prompt.
Qed.

(** C1 as the code has it.  Both prompt generators fail with the
    demand for a source exactly when none of the three sources is given
    ([None], an empty string or an empty mapping count as not given).
    When more than one is given there is no such failure: the author
    identifier is used if present, else the blend, else the raw
    coordinates, and the sources after the one used are ignored. *)
Theorem source_selection (author_id : option string)
    (blend_spec custom_coordinates : option (dict Q))
    (style_modifier : string) :
  (generate_text_prompt author_id blend_spec custom_coordinates
   = Raise no_source
   <-> any_source author_id blend_spec custom_coordinates = false)
  /\ (generate_image_prompt author_id blend_spec custom_coordinates
        style_modifier = Raise no_source
      <-> any_source author_id blend_spec custom_coordinates = false)
  /\ (truthy_str author_id = true ->
      generate_text_prompt author_id blend_spec custom_coordinates
      = generate_text_prompt author_id None None
      /\ generate_image_prompt author_id blend_spec custom_coordinates
           style_modifier
         = generate_image_prompt author_id None None style_modifier)
  /\ (truthy_str author_id = false -> truthy_dict blend_spec = true ->
      generate_text_prompt author_id blend_spec custom_coordinates
      = generate_text_prompt None blend_spec None
      /\ generate_image_prompt author_id blend_spec custom_coordinates
           style_modifier
         = generate_image_prompt None blend_spec None style_modifier)
  /\ (truthy_str author_id = false -> truthy_dict blend_spec = false ->
      generate_text_prompt author_id blend_spec custom_coordinates
      = generate_text_prompt None None custom_coordinates
      /\ generate_image_prompt author_id blend_spec custom_coordinates
           style_modifier
         = generate_image_prompt None None custom_coordinates
             style_modifier).
Proof.
  split; [|split; [|split; [|split]]].
  - split.
    + intros E.
      destruct (any_source author_id blend_spec custom_coordinates) eqn:Ha;
        [|reflexivity].
      exfalso. exact (text_prompt_with_source _ _ _ Ha E).
    + intros H.
      destruct author_id as [[|ch s]|], blend_spec as [[|x l]|],
        custom_coordinates as [[|y l']|]; try discriminate H; reflexivity.
  - split.
    + intros E.
      destruct (any_source author_id blend_spec custom_coordinates) eqn:Ha;
        [|reflexivity].
      exfalso. exact (image_prompt_with_source _ _ _ _ Ha E).
    + intros H.
      destruct author_id as [[|ch s]|], blend_spec as [[|x l]|],
        custom_coordinates as [[|y l']|]; try discriminate H; reflexivity.
  - intros H. destruct author_id as [[|ch s]|]; try discriminate H.
    split; reflexivity.
  - intros Ha Hb.
    destruct author_id as [[|ch s]|], blend_spec as [[|x l]|];
      try discriminate; split; reflexivity.
  - intros Ha Hb.
    destruct author_id as [[|ch s]|], blend_spec as [[|x l]|];
      try discriminate; split; reflexivity.
Qed.

Lemma source_selection_witness :
  generate_text_prompt (Some "kafka") (Some [("borges", 1)]) (Some [])
  = generate_text_prompt (Some "kafka") None None
  /\ generate_text_prompt (Some "") None (Some []) = Raise no_source.
Proof.
  destruct (source_selection (Some "kafka") (Some [("borges", 1)])
              (Some []) "") as [_ [_ [H1 _]]].
  destruct (source_selection (Some "") None (Some []) "") as [[_ H2] _].
  split.
  - apply H1. reflexivity.
  - apply H2. reflexivity.
Defined.

(** C1 as stated fails: a call that gives both an author and a blend is
    served from the author, without error. *)
Lemma two_sources_accepted :
  (exists r,
     generate_text_prompt (Some "hemingway") (Some [("borges", 1)]) None
     = Ok r
     /\ TextPrompt.source r = "Hemingway-esque")
  /\ (exists r,
        generate_image_prompt (Some "hemingway") (Some [("borges", 1)])
          None "" = Ok r
        /\ ImagePrompt.source r = "Hemingway-esque").
Proof.
  split; eexists; (split; [vm_compute; reflexivity | reflexivity]).
Qed.

(* ================================================================== *)
(** * Distances over the catalog *)
(* ================================================================== *)

Lemma Q_same_eq (x y : Q) : Q_same x y = true -> x = y.
Proof.
  destruct x as [n d], y as [n' d']. unfold Q_same. simpl.
  intros H. apply andb_true_iff in H. destruct H as [Hn Hd].
  apply Z.eqb_eq in Hn. apply Pos.eqb_eq in Hd. now subst.
Qed.

Lemma symmetric_everywhere :
  forallb
    (fun a =>
       forallb (fun b => symmetric_at a b false && symmetric_at a b true)
         (keys AUTHOR_CATALOG))
    (keys AUTHOR_CATALOG) = true.
Proof. vm_compute. reflexivity. Qed.

(** C8.  For any two catalog authors, weighted or not, the distance
    report of (a, b) and that of (b, a) carry the same Euclidean
    distance and the same normalized distance. *)
Theorem distance_symmetry (a b : string) (weighted : bool) :
  known a -> known b ->
  exists r1 r2,
    compute_style_distance a b weighted = Ok r1
    /\ compute_style_distance b a weighted = Ok r2
    /\ Distance.euclidean_distance r1 = Distance.euclidean_distance r2
    /\ Distance.normalized_distance r1 = Distance.normalized_distance r2.
Proof.
  intros Ha Hb. pose proof symmetric_everywhere as H.
  rewrite forallb_forall in H. specialize (H a Ha).
  rewrite forallb_forall in H. specialize (H b Hb).
  apply andb_true_iff in H. destruct H as [Hf Ht].
  assert (Hs : symmetric_at a b weighted = true)
    by (destruct weighted; assumption).
  unfold symmetric_at in Hs.
  destruct (compute_style_distance a b weighted) as [r1|]; [|discriminate].
  destruct (compute_style_distance b a weighted) as [r2|]; [|discriminate].
  apply andb_true_iff in Hs. destruct Hs as [He Hn].
  exists r1, r2. repeat split; try reflexivity; now apply Q_same_eq.
Qed.

Lemma distance_symmetry_witness :
  exists r1 r2,
    compute_style_distance "hemingway" "de_sade" true = Ok r1
    /\ compute_style_distance "de_sade" "hemingway" true = Ok r2
    /\ Distance.euclidean_distance r1 = Distance.euclidean_distance r2
    /\ Distance.normalized_distance r1 = Distance.normalized_distance r2.
Proof.
  apply (distance_symmetry "hemingway" "de_sade" true);
    unfold known; simpl; tauto.
Defined.

Lemma closer_than_spec (total : root) (l : list (string * string)) :
  forallb (closer_than total) l = true -> Forall (closer total) l.
Proof.
  intros H. rewrite forallb_forall in H. apply Forall_forall.
  intros pr Hpr. specialize (H pr Hpr). unfold closer_than in H.
  unfold closer. destruct (euclidean (fst pr) (snd pr)) as [d|];
    [|discriminate].
  exists d. split; [reflexivity|]. now apply Qltb_lt.
Qed.

Lemma no_farther_than_spec (total : root) (l : list (string * string)) :
  forallb (no_farther_than total) l = true -> Forall (no_farther total) l.
Proof.
  intros H. rewrite forallb_forall in H. apply Forall_forall.
  intros pr Hpr. specialize (H pr Hpr). unfold no_farther_than in H.
  unfold no_farther. destruct (euclidean (fst pr) (snd pr)) as [d|];
    [|discriminate].
  exists d. split; [reflexivity|].
  apply negb_true_iff in H. now apply Qltb_ge.
Qed.

Lemma pair_listed_spec (x y : string) :
  pair_listed x y = true -> In (x, y) catalog_pairs \/ In (y, x) catalog_pairs.
Proof.
  unfold pair_listed. rewrite existsb_exists.
  intros [[a b] [Hin H]]. simpl in H.
  apply orb_true_iff in H.
  destruct H as [H|H]; apply andb_true_iff in H; destruct H as [H1 H2];
    apply String.eqb_eq in H1; apply String.eqb_eq in H2; subst; auto.
Qed.

Lemma catalog_pairs_cover (x y : string) :
  known x -> known y -> x <> y ->
  In (x, y) catalog_pairs \/ In (y, x) catalog_pairs.
Proof.
  assert (H : forallb
                (fun x =>
                   forallb (fun y => String.eqb x y || pair_listed x y)
                     (keys AUTHOR_CATALOG))
                (keys AUTHOR_CATALOG) = true) by (vm_compute; reflexivity).
  intros Hx Hy Hne. rewrite forallb_forall in H. specialize (H x Hx).
  rewrite forallb_forall in H. specialize (H y Hy).
  apply orb_true_iff in H. destruct H as [H|H].
  - apply String.eqb_eq in H. contradiction.
  - now apply pair_listed_spec.
Qed.

(** C6.  The double loop visits 55 pairs, one for each two distinct
    authors of the 11 in the catalog.  [find_max_contrast_pair] returns
    the unweighted distance report of the pair whose Euclidean distance
    is the largest; every pair visited before it is strictly closer and
    no pair visited after it is farther, so among pairs of maximal
    distance it is the first in the order of the loop. *)
Theorem max_contrast_pair_is_maximal :
  exists a b report total before after,
    find_max_contrast_pair = Ok report
    /\ compute_style_distance a b false = Ok report
    /\ euclidean a b = Ok total
    /\ Distance.euclidean_distance report = round_root total 4
    /\ catalog_pairs = (before ++ (a, b) :: after)%list
    /\ Forall (closer total) before
    /\ Forall (no_farther total) after
    /\ length (keys AUTHOR_CATALOG) = 11%nat
    /\ length catalog_pairs = 55%nat
    /\ (forall x y, known x -> known y -> x <> y ->
          In (x, y) catalog_pairs \/ In (y, x) catalog_pairs).
Proof.
  exists "hemingway", "lovecraft".
  eexists. eexists.
  exists (firstn 3 catalog_pairs), (skipn 4 catalog_pairs).
  split; [vm_compute; reflexivity|].
  split; [vm_compute; reflexivity|].
  split; [vm_compute; reflexivity|].
  split; [vm_compute; reflexivity|].
  split; [vm_compute; reflexivity|].
  split; [apply closer_than_spec; vm_compute; reflexivity|].
  split; [apply no_farther_than_spec; vm_compute; reflexivity|].
  split; [reflexivity|]. split; [reflexivity|].
  exact catalog_pairs_cover.
Qed.

Lemma max_contrast_pair_is_maximal_witness :
  In ("kafka", "borges") catalog_pairs \/ In ("borges", "kafka") catalog_pairs.
Proof.
  destruct max_contrast_pair_is_maximal
    as [a [b [report [total [before [after H]]]]]].
  decompose [and] H. clear H.
  match goal with
  | Hc : forall x y, known x -> known y -> x <> y -> _ |- _ =>
      apply Hc; [unfold known; simpl; tauto | unfold known; simpl; tauto
                | discriminate]
  end.
Defined.

(* ================================================================== *)
(** * The scan for the maximum, for any list of pairs *)
(* ================================================================== *)

(** X20.  Whatever pairs of catalog authors are scanned, and from
    whatever bound, the maximum scan succeeds and keeps the first pair
    whose reported distance is the largest, provided it exceeds the
    initial bound; later pairs of equal distance do not replace it, and
    if no pair exceeds the bound the initial state is returned
    unchanged. *)
Lemma contrast_scan_first_max (dist : string * string -> Q)
    (l : list (string * string)) :
  (forall pr, In pr l ->
     exists r, compute_style_distance (fst pr) (snd pr) false = Ok r
               /\ Distance.euclidean_distance r = dist pr) ->
  forall m0 p0,
  exists m p,
    for_each l contrast_step (m0, p0) = Ok (m, p)
    /\ ((m = m0 /\ p = p0 /\ Forall (fun x => dist x <= m0) l)
        \/ (exists before pr after,
              l = (before ++ pr :: after)%list
              /\ p = Some pr /\ m = dist pr /\ m0 < m
              /\ Forall (fun x => dist x < m) before
              /\ Forall (fun x => dist x <= m) after)).
Proof.
  induction l as [|[a1 a2] l IH]; intros Hd m0 p0.
  - exists m0, p0. split; [reflexivity|]. left. auto.
  - destruct (Hd (a1, a2) (or_introl eq_refl)) as [r [Er Hr]].
    simpl in Er, Hr.
    assert (Hd' : forall pr, In pr l ->
              exists r, compute_style_distance (fst pr) (snd pr) false = Ok r
                        /\ Distance.euclidean_distance r = dist pr)
      by (intros pr Hpr; apply Hd; now right).
    cbn [for_each]. unfold contrast_step at 1. rewrite Er. cbn [bind].
    rewrite Hr. destruct (Qltb m0 (dist (a1, a2))) eqn:E; cbn [bind].
    + apply Qltb_lt in E.
      destruct (IH Hd' (dist (a1, a2)) (Some (a1, a2)))
        as [m [p [Es [[-> [-> Hall]]|Hex]]]].
      * exists (dist (a1, a2)), (Some (a1, a2)). split; [exact Es|].
        right. exists [], (a1, a2), l.
        split; [reflexivity|]. split; [reflexivity|].
        split; [reflexivity|]. split; [exact E|].
        split; [constructor | exact Hall].
      * destruct Hex as [before [pr [after [-> [-> [-> [Hlt [Hb Ha]]]]]]]].
        exists (dist pr), (Some pr). split; [exact Es|].
        right. exists ((a1, a2) :: before), pr, after.
        split; [reflexivity|]. split; [reflexivity|].
        split; [reflexivity|]. split; [lra|].
        split; [constructor; [exact Hlt | exact Hb] | exact Ha].
    + apply Qltb_ge in E.
      destruct (IH Hd' m0 p0) as [m [p [Es [[-> [-> Hall]]|Hex]]]].
      * exists m0, p0. split; [exact Es|]. left.
        split; [reflexivity|]. split; [reflexivity|].
        constructor; [exact E | exact Hall].
      * destruct Hex as [before [pr [after [-> [-> [-> [Hlt [Hb Ha]]]]]]]].
        exists (dist pr), (Some pr). split; [exact Es|].
        right. exists ((a1, a2) :: before), pr, after.
        split; [reflexivity|]. split; [reflexivity|].
        split; [reflexivity|]. split; [exact Hlt|].
        split; [constructor; [lra | exact Hb] | exact Ha].
Qed.

Lemma contrast_scan_first_max_witness :
  exists m p,
    for_each [("kafka", "borges"); ("borges", "kafka"); ("kafka", "kafka")]
      contrast_step (0, None) = Ok (m, p).
Proof.
  destruct (contrast_scan_first_max
              (fun pr => reported_distance (fst pr) (snd pr))
              [("kafka", "borges"); ("borges", "kafka"); ("kafka", "kafka")])
    with (m0 := 0) (p0 := @None (string * string)) as [m [p [E _]]].
  - intros pr [<-|[<-|[<-|[]]]];
      (eexists; split; [vm_compute; reflexivity|]); vm_compute; reflexivity.
  - exists m, p. exact E.
Defined.

(* ================================================================== *)
(** * The rounding functions return a nearest decimal *)
(* ================================================================== *)

Lemma py_round_int_nearest (x : Q) :
  inject_Z (py_round_int x) - (1 # 2) <= x
  /\ x <= inject_Z (py_round_int x) + (1 # 2).
Proof.
  pose proof (Qfloor_le x) as Hlo. pose proof (Qlt_floor x) as Hhi.
  unfold py_round_int.
  rewrite inject_Z_plus in Hhi. change (inject_Z 1) with 1 in Hhi.
  destruct (Qcompare_spec (x - inject_Z (Qfloor x)) (1 # 2)) as [E|L|G];
    [destruct (Z.even (Qfloor x))| |];
    rewrite ?inject_Z_plus; change (inject_Z 1) with 1; split; lra.
Qed.

(** [round(x, n)] differs from [x] by at most half a unit of the last
    decimal kept. *)
Lemma py_round_nearest (x : Q) (n : nat) :
  Qabs (py_round x n - x) <= (1 # 2) / inject_Z (pow10 n).
Proof.
  pose proof (inject_pow10_pos n) as Hp.
  destruct (py_round_int_nearest (x * inject_Z (pow10 n))) as [H1 H2].
  unfold py_round. rewrite Qred_correct.
  set (k := inject_Z (py_round_int (x * inject_Z (pow10 n)))) in *.
  set (P := inject_Z (pow10 n)) in *.
  assert (HP : ~ P == 0) by lra.
  assert (E : (k / P - x) * P == k - x * P) by (field; exact HP).
  apply Qabs_Qle_condition. split.
  - assert (H : (- (1 # 2)) / P <= k / P - x).
    { apply Qle_shift_div_r; [exact Hp|]. rewrite E. lra. }
    assert (E' : - ((1 # 2) / P) == (- (1 # 2)) / P) by (field; exact HP).
    rewrite E'. exact H.
  - apply Qle_shift_div_l; [exact Hp|]. rewrite E. lra.
Qed.

(** [round(math.sqrt(s), n)] is [k / 10^n] for an integer [k] within
    one half of [10^n * sqrt s]: in squares, with
    [t = (2 * 10^n)^2 * s], [(2k - 1)^2 <= t <= (2k + 1)^2]. *)
Lemma round_root_nearest (s : Q) (n : nat) :
  0 <= s ->
  let t := 4 * s * inject_Z (pow10 n * pow10 n) in
  exists k : Z,
    round_root (Sqrt s) n == inject_Z k / inject_Z (pow10 n)
    /\ (0 <= k)%Z
    /\ (k = 0%Z \/ inject_Z ((2 * k - 1) * (2 * k - 1)) <= t)
    /\ t <= inject_Z ((2 * k + 1) * (2 * k + 1)).
Proof.
  intros Hs t.
  assert (Ht : 0 <= t).
  { unfold t. pose proof (pow10_pos n) as Hp.
    assert (Hpp : 0 <= inject_Z (pow10 n * pow10 n)).
    { change 0 with (inject_Z 0). rewrite <- Zle_Qle. nia. }
    apply Qmult_le_0_compat; [lra | exact Hpp]. }
  assert (HF : (0 <= Qfloor t)%Z).
  { change 0%Z with (Qfloor 0). now apply Qfloor_resp_le. }
  pose proof (Z.sqrt_spec (Qfloor t) HF) as Hm. cbv zeta in Hm.
  pose proof (Z.sqrt_nonneg (Qfloor t)) as Hm0.
  pose proof (Qfloor_le t) as Hlo. pose proof (Qlt_floor t) as Hhi.
  unfold round_root. cbn [radicand]. fold t.
  set (m := Z.sqrt (Qfloor t)) in *.
  assert (Hlow : inject_Z (m * m) <= t).
  { eapply Qle_trans; [|exact Hlo]. rewrite <- Zle_Qle. lia. }
  assert (Hup : t <= inject_Z ((m + 1) * (m + 1))).
  { apply Qlt_le_weak. eapply Qlt_le_trans; [exact Hhi|].
    rewrite <- Zle_Qle. lia. }
  pose proof (Z.div_mod m 2 ltac:(lia)) as Hdm.
  destruct (Z.even m) eqn:Ev.
  - apply Z.even_spec in Ev. destruct Ev as [j Hj].
    assert (Ej : (m / 2 = j)%Z)
      by (rewrite Hj, Z.mul_comm; now apply Z.div_mul).
    rewrite Ej. exists j. rewrite Qred_correct.
    split; [reflexivity|]. split; [lia|]. split.
    + destruct (Z.eq_dec j 0) as [->|Hne]; [now left | right].
      eapply Qle_trans; [|exact Hlow]. rewrite <- Zle_Qle. nia.
    + eapply Qle_trans; [exact Hup|]. rewrite <- Zle_Qle. nia.
  - assert (Hodd : Z.odd m = true)
      by (rewrite <- Z.negb_even, Ev; reflexivity).
    apply Z.odd_spec in Hodd. destruct Hodd as [j Hj].
    assert (Ej : (m / 2 = j)%Z).
    { rewrite Hj, Z.mul_comm. rewrite Z.div_add_l by lia.
      change (1 / 2)%Z with 0%Z. lia. }
    rewrite Ej.
    destruct (Qeq_bool t (inject_Z (m * m)) && Z.even j) eqn:Etie.
    + apply andb_true_iff in Etie. destruct Etie as [Eq _].
      apply Qeq_bool_iff in Eq.
      exists j. rewrite Qred_correct.
      split; [reflexivity|]. split; [lia|]. split.
      * destruct (Z.eq_dec j 0) as [->|Hne]; [now left | right].
        eapply Qle_trans; [|exact Hlow]. rewrite <- Zle_Qle. nia.
      * rewrite Eq. rewrite <- Zle_Qle. nia.
    + exists (j + 1)%Z. rewrite Qred_correct.
      split; [reflexivity|]. split; [lia|]. split.
      * right. eapply Qle_trans; [|exact Hlow]. rewrite <- Zle_Qle. nia.
      * eapply Qle_trans; [exact Hup|]. rewrite <- Zle_Qle. nia.
Qed.

(* ================================================================== *)
(** * The tier boundaries in binary64 *)
(* ================================================================== *)

Lemma binary64_literals_nearest :
  Binary64.nearest_to 0.33 Binary64.lit_0_33 (-54)
  /\ Binary64.nearest_to 0.34 Binary64.lit_0_34 (-54)
  /\ Binary64.nearest_to 0.67 Binary64.lit_0_67 (-53)
  /\ Binary64.nearest_to 0.329999 Binary64.lit_0_329999 (-54).
Proof.
  repeat split; eexists; (split; [reflexivity|]); vm_compute; discriminate.
Qed.

Lemma binary64_tier_boundaries :
  (Binary64._get_tier Binary64.lit_0_33 = "mid"
   /\ Binary64.boundary_proximity Binary64.lit_0_33 = Some 0)
  /\ (Binary64._get_tier Binary64.lit_0_329999 = "low"
      /\ Binary64.boundary_proximity Binary64.lit_0_329999 = Some 1)
  /\ (Binary64._get_tier Binary64.lit_0_67 = "high"
      /\ Binary64.boundary_proximity Binary64.lit_0_67 = Some 0).
Proof. repeat split; vm_compute; reflexivity. Qed.

(* ================================================================== *)
(** * The tool wrappers choose one source *)
(* ================================================================== *)

(** The wrappers make the same choice as the operations: with no source
    they fail with the demand for one, and with an author identifier
    the other two arguments are not even parsed. *)
Lemma tools_select_one_source (json_loads : string -> M (dict Q))
    (dumps_text : TextPrompt.Result -> string)
    (dumps_image : ImagePrompt.Result -> string)
    (author_id blend_spec_json custom_coordinates_json style_modifier
     : string) :
  generate_text_style_prompt json_loads dumps_text "" "" "" = Raise no_source
  /\ generate_image_style_prompt json_loads dumps_image "" "" ""
       style_modifier = Raise no_source
  /\ (author_id <> "" ->
      generate_text_style_prompt json_loads dumps_text author_id
        blend_spec_json custom_coordinates_json
      = generate_text_style_prompt json_loads dumps_text author_id "" ""
      /\ generate_image_style_prompt json_loads dumps_image author_id
           blend_spec_json custom_coordinates_json style_modifier
         = generate_image_style_prompt json_loads dumps_image author_id
             "" "" style_modifier).
Proof.
  split; [reflexivity|]. split; [reflexivity|].
  intros Hne. destruct author_id; [congruence|]. split; reflexivity.
Qed.

(* ================================================================== *)
(** * Catalog queries *)
(* ================================================================== *)

Lemma lookup_map_values {V W : Type} (f : V -> W) (d : dict V) (k : string) :
  lookup k (map (fun '(a, v) => (a, f v)) d) = option_map f (lookup k d).
Proof.
  induction d as [|[a v] d IH]; simpl; [reflexivity|].
  destruct (String.eqb k a); [reflexivity | exact IH].
Qed.

Lemma keys_map_values {V W : Type} (f : V -> W) (d : dict V) :
  keys (map (fun '(a, v) => (a, f v)) d) = keys d.
Proof.
  unfold keys. rewrite map_map. apply map_ext. now intros [a v].
Qed.

Lemma catalog_ids_match (a : string) (e : AuthorEntry) :
  lookup a AUTHOR_CATALOG = Some e -> entry_id e = a.
Proof.
  assert (H : forallb (fun kv => String.eqb (entry_id (snd kv)) (fst kv))
                AUTHOR_CATALOG = true) by (vm_compute; reflexivity).
  rewrite forallb_forall in H. intros Hl.
  apply lookup_In in Hl. apply (H _) in Hl. now apply String.eqb_eq in Hl.
Qed.

(** X1.  The listing of authors and the profile lookup agree: the
    listing has the catalog's identifiers in catalog order; for each of
    them [get_author_profile] succeeds and returns the entry whose id is
    that identifier and whose name, origin and coordinates are the ones
    listed, and [get_coordinates] and [get_all_coordinates] give the same
    coordinates.  For any other identifier the profile lookup fails with
    the error that names it and lists the valid identifiers. *)
Theorem listing_round_trip (aid : string) :
  keys list_authors = get_author_ids
  /\ keys get_all_coordinates = get_author_ids
  /\ (In aid (keys list_authors) ->
      exists s e,
        lookup aid list_authors = Some s
        /\ get_author_profile aid = Ok e
        /\ entry_id e = aid
        /\ display_name e = AuthorSummary.display_name s
        /\ language_origin e = AuthorSummary.language_origin s
        /\ coordinates e = AuthorSummary.coordinates s
        /\ get_coordinates aid = Ok (AuthorSummary.coordinates s)
        /\ lookup aid get_all_coordinates
           = Some (AuthorSummary.coordinates s))
  /\ (~ In aid (keys list_authors) ->
      get_author_profile aid = Raise (unknown_author aid)
      /\ lookup aid list_authors = None).
Proof.
  assert (Hk : keys list_authors = keys AUTHOR_CATALOG).
  { unfold list_authors.
    apply (keys_map_values
             (fun entry =>
                {| AuthorSummary.display_name := display_name entry;
                   AuthorSummary.language_origin := language_origin entry;
                   AuthorSummary.coordinates := coordinates entry |})). }
  split; [exact Hk|].
  split; [apply (keys_map_values coordinates)|].
  rewrite Hk. split.
  - intros Hin. apply lookup_keys in Hin. destruct Hin as [e He].
    eexists. exists e.
    split.
    { unfold list_authors.
      rewrite (lookup_map_values
                 (fun entry =>
                    {| AuthorSummary.display_name := display_name entry;
                       AuthorSummary.language_origin := language_origin entry;
                       AuthorSummary.coordinates := coordinates entry |})).
      rewrite He. reflexivity. }
    split.
    { unfold get_author_profile, contains, getitem. rewrite He. reflexivity. }
    split; [now apply catalog_ids_match|].
    split; [reflexivity|]. split; [reflexivity|]. split; [reflexivity|].
    split.
    + unfold get_coordinates, contains, getitem. rewrite He. reflexivity.
    + unfold get_all_coordinates.
      rewrite (lookup_map_values coordinates). now rewrite He.
  - intros Hn.
    assert (Hl : lookup aid AUTHOR_CATALOG = None).
    { destruct (lookup aid AUTHOR_CATALOG) as [e|] eqn:E; [|reflexivity].
      exfalso. apply Hn. apply lookup_keys. eauto. }
    split.
    + unfold get_author_profile, contains. now rewrite Hl.
    + unfold list_authors.
      rewrite (lookup_map_values
                 (fun entry =>
                    {| AuthorSummary.display_name := display_name entry;
                       AuthorSummary.language_origin := language_origin entry;
                       AuthorSummary.coordinates := coordinates entry |})).
      now rewrite Hl.
Qed.

Lemma listing_round_trip_witness :
  exists s e,
    lookup "borges" list_authors = Some s
    /\ get_author_profile "borges" = Ok e
    /\ entry_id e = "borges"
    /\ coordinates e = AuthorSummary.coordinates s.
Proof.
  destruct (listing_round_trip "borges") as [_ [_ [H _]]].
  destruct H as [s [e [H1 [H2 [H3 [_ [_ [H6 _]]]]]]]].
  - vm_compute. tauto.
  - exists s, e. repeat split; assumption.
Defined.

(* ================================================================== *)
(** * The distance report *)
(* ================================================================== *)

Lemma round_root_proper (a b : root) (n : nat) :
  radicand a == radicand b -> round_root a n = round_root b n.
Proof.
  intros E. unfold round_root.
  set (P := inject_Z (pow10 n * pow10 n)).
  assert (Et : 4 * radicand a * P == 4 * radicand b * P) by now rewrite E.
  rewrite (Qfloor_comp _ _ Et).
  set (m := Z.sqrt (Qfloor (4 * radicand b * P))).
  assert (Eq : Qeq_bool (4 * radicand a * P) (inject_Z (m * m))
               = Qeq_bool (4 * radicand b * P) (inject_Z (m * m))).
  { destruct (Qeq_bool (4 * radicand b * P) (inject_Z (m * m))) eqn:H.
    - apply Qeq_bool_iff. apply Qeq_bool_iff in H. now rewrite Et.
    - destruct (Qeq_bool (4 * radicand a * P) (inject_Z (m * m))) eqn:H';
        [|reflexivity].
      apply Qeq_bool_iff in H'. rewrite Et in H'.
      apply Qeq_bool_iff in H'. congruence. }
  now rewrite Eq.
Qed.

(** [max(..., key=...)] returns the first element whose key is maximal. *)
Lemma max_by_from {A : Type} (key : A -> Q) (l pre mid : list A) (best : A) :
  Forall (fun x => key x < key best) pre ->
  Forall (fun x => key x <= key best) mid ->
  exists before after,
    (pre ++ best :: mid ++ l)%list
    = (before ++ max_by key best l :: after)%list
    /\ Forall (fun x => key x < key (max_by key best l)) before
    /\ Forall (fun x => key x <= key (max_by key best l)) after.
Proof.
  revert pre mid best. induction l as [|x l IH]; intros pre mid best Hp Hm.
  - exists pre, mid. simpl. rewrite app_nil_r. auto.
  - simpl. destruct (Qltb (key best) (key x)) eqn:E.
    + apply Qltb_lt in E.
      destruct (IH (pre ++ best :: mid)%list [] x) as [before [after [E1 H]]].
      * apply Forall_app. split.
        -- eapply Forall_impl; [|exact Hp]. intros y Hy. simpl in Hy. lra.
        -- constructor; [exact E|].
           eapply Forall_impl; [|exact Hm]. intros y Hy. simpl in Hy. lra.
      * constructor.
      * exists before, after. split; [|exact H].
        rewrite <- E1. rewrite <- app_assoc. reflexivity.
    + apply Qltb_ge in E.
      destruct (IH pre (mid ++ [x])%list best Hp) as [before [after [E1 H]]].
      * apply Forall_app. split; [exact Hm|]. constructor; [exact E|constructor].
      * exists before, after. split; [|exact H].
        rewrite <- E1. rewrite <- app_assoc. reflexivity.
Qed.

Lemma max_by_first_max {A : Type} (key : A -> Q) (best : A) (l : list A) :
  exists before after,
    best :: l = (before ++ max_by key best l :: after)%list
    /\ Forall (fun x => key x < key (max_by key best l)) before
    /\ Forall (fun x => key x <= key (max_by key best l)) after.
Proof.
  destruct (max_by_from key l [] [] best) as [before [after H]];
    [constructor | constructor |].
  exists before, after. exact H.
Qed.

Lemma distance_loop (c1 c2 : AuthorCoordinates) (weighted : bool)
    (ps : list string) :
  forall acc s d t,
    for_each ps (distance_step c1 c2 weighted) (acc, s) = Ok (d, t) ->
    NoDup ps -> (forall p, In p ps -> ~ In p (keys acc)) ->
    keys d = (keys acc ++ ps)%list
    /\ (forall p, In p ps -> exists g, lookup p d = Some g /\ gap_of c1 c2 p g)
    /\ (forall p, ~ In p ps -> lookup p d = lookup p acc).
Proof.
  induction ps as [|p ps IH]; intros acc s d t E Hnd Hdisj.
  - simpl in E. inversion E; subst. rewrite app_nil_r.
    split; [reflexivity|]. split; [intros p []|reflexivity].
  - cbn [for_each] in E. apply bind_Ok in E. destruct E as [[acc' s'] [E1 E2]].
    unfold distance_step in E1.
    apply bind_Ok in E1. destruct E1 as [v2 [Hv2 E1]].
    apply bind_Ok in E1. destruct E1 as [v1 [Hv1 E1]].
    apply bind_Ok in E1. destruct E1 as [w [Hw E1]].
    inversion E1; subst acc' s'. clear E1.
    inversion Hnd as [|? ? Hp Hps]; subst.
    assert (Hnew : ~ In p (keys acc)) by (apply Hdisj; now left).
    destruct (IH _ _ _ _ E2 Hps) as [Hk [Hin Hout]].
    { intros q Hq. rewrite (keys_setitem_new _ _ _ Hnew), in_app_iff.
      intros [H|[->|[]]]; [|contradiction].
      revert H. apply Hdisj. now right. }
    split; [|split].
    + rewrite Hk, (keys_setitem_new _ _ _ Hnew), <- app_assoc. reflexivity.
    + intros q [<-|Hq]; [|now apply Hin].
      rewrite (Hout p Hp), lookup_setitem_same.
      eexists. split; [reflexivity|].
      exists v1, v2. apply getitem_Ok in Hv1, Hv2. simpl. auto 10.
    + intros q Hq. rewrite Hout by (intros H; apply Hq; now right).
      apply lookup_setitem_other. intros ->. apply Hq. now left.
Qed.

Lemma compute_style_distance_inv (a b : string) (weighted : bool)
    (r : Distance.Report) :
  compute_style_distance a b weighted = Ok r ->
  exists c1 c2 sum_sq kv rest e1 e2,
    get_coordinates a = Ok c1 /\ get_coordinates b = Ok c2
    /\ for_each PARAMETER_NAMES (distance_step c1 c2 weighted) ([], 0)
       = Ok (kv :: rest, sum_sq)
    /\ getitem AUTHOR_CATALOG a = Ok e1 /\ getitem AUTHOR_CATALOG b = Ok e2
    /\ r = {| Distance.author_1 := display_name e1;
              Distance.author_2 := display_name e2;
              Distance.euclidean_distance := round_root (Sqrt sum_sq) 4;
              Distance.normalized_distance :=
                round_root
                  (root_div (Sqrt sum_sq)
                     (Sqrt (inject_Z (Z.of_nat (length PARAMETER_NAMES)))))
                  4;
              Distance.max_contrast_axis :=
                fst (max_by (fun kv => Distance.absolute_gap (snd kv)) kv rest);
              Distance.max_contrast_gap :=
                Distance.absolute_gap
                  (snd (max_by (fun kv => Distance.absolute_gap (snd kv))
                          kv rest));
              Distance.per_dimension := kv :: rest |}.
Proof.
  intros E. unfold compute_style_distance in E.
  apply bind_Ok in E. destruct E as [c1 [Ec1 E]].
  apply bind_Ok in E. destruct E as [c2 [Ec2 E]].
  apply bind_Ok in E. destruct E as [[per_dim sum_sq] [El E]].
  apply bind_Ok in E. destruct E as [total [Et E]].
  apply bind_Ok in E. destruct E as [[max_axis max_gap] [Em E]].
  apply bind_Ok in E. destruct E as [e1 [Ee1 E]].
  apply bind_Ok in E. destruct E as [e2 [Ee2 E]].
  apply bind_Ok in E. destruct E as [root_n [En E]].
  destruct per_dim as [|kv rest]; [discriminate|].
  unfold math_sqrt in Et, En.
  destruct (Qltb sum_sq 0); [discriminate|].
  destruct (Qltb _ 0) in En; [discriminate|].
  inversion Et; subst total. inversion En; subst root_n.
  inversion Em as [Hm]. inversion E; subst r.
  exists c1, c2, sum_sq, kv, rest, e1, e2.
  repeat (split; [assumption|]).
  rewrite Hm. reflexivity.
Qed.

Lemma distance_defined (a b : string) (weighted : bool) :
  known a -> known b ->
  exists r, compute_style_distance a b weighted = Ok r.
Proof.
  assert (H : forallb
                (fun a =>
                   forallb
                     (fun b =>
                        is_ok (compute_style_distance a b false)
                        && is_ok (compute_style_distance a b true))
                     (keys AUTHOR_CATALOG))
                (keys AUTHOR_CATALOG) = true) by (vm_compute; reflexivity).
  intros Ha Hb. rewrite forallb_forall in H. specialize (H a Ha).
  rewrite forallb_forall in H. specialize (H b Hb).
  apply andb_true_iff in H. destruct H as [Hf Ht].
  destruct weighted;
    [destruct (compute_style_distance a b true) as [r|]
    |destruct (compute_style_distance a b false) as [r|]];
    try discriminate; eauto.
Qed.

(** X2.  [compute_style_distance] resolves the first identifier, then
    the second: an unknown first identifier is the one reported, even
    when the second is unknown too; an unknown second identifier is
    reported when the first is known; and for two catalog identifiers a
    report is returned.  The error names the identifier and lists the
    catalog's identifiers. *)
Theorem distance_identifier_resolution (a b : string) (weighted : bool) :
  (~ known a ->
   compute_style_distance a b weighted = Raise (unknown_author a))
  /\ (known a -> ~ known b ->
      compute_style_distance a b weighted = Raise (unknown_author b))
  /\ (known a -> known b ->
      exists r, compute_style_distance a b weighted = Ok r)
  /\ unknown_author a
     = ValueError
         ("Unknown author '" ++ a ++ "'. Available: "
          ++ "['hemingway', 'de_sade', 'le_guin', 'didion', 'lovecraft', "
          ++ "'borges', 'murakami', 'marquez', 'kafka', 'shonagon', "
          ++ "'lispector']").
Proof.
  split; [|split; [|split]].
  - intros Ha. unfold compute_style_distance.
    now rewrite (get_coordinates_unknown a Ha).
  - intros Ha Hb. unfold compute_style_distance.
    destruct (get_coordinates_known a Ha) as [e [_ [_ Ec]]].
    rewrite Ec. cbn [bind]. now rewrite (get_coordinates_unknown b Hb).
  - apply distance_defined.
  - reflexivity.
Qed.

Lemma distance_identifier_resolution_witness :
  compute_style_distance "nobody" "nowhere" true
  = Raise (unknown_author "nobody")
  /\ compute_style_distance "kafka" "nowhere" true
     = Raise (unknown_author "nowhere").
Proof.
  destruct (distance_identifier_resolution "nobody" "nowhere" true)
    as [H1 _].
  destruct (distance_identifier_resolution "kafka" "nowhere" true)
    as [_ [H2 _]].
  split.
  - apply H1. unfold known. simpl. intuition discriminate.
  - apply H2; unfold known; simpl; [tauto | intuition discriminate].
Defined.

(** X3.  In the report of two catalog authors the per-dimension
    breakdown has the 8 parameters in canonical order; each line holds
    the two stored values, their rounded difference and rounded absolute
    gap; and the max-contrast axis is the first parameter whose gap is
    the largest, the reported max-contrast gap being that gap. *)
Theorem max_contrast_axis_first_largest (a b : string) (weighted : bool) :
  known a -> known b ->
  exists r c1 c2,
    compute_style_distance a b weighted = Ok r
    /\ get_coordinates a = Ok c1 /\ get_coordinates b = Ok c2
    /\ keys (Distance.per_dimension r) = PARAMETER_NAMES
    /\ (forall p g, lookup p (Distance.per_dimension r) = Some g ->
          gap_of c1 c2 p g)
    /\ exists before g after,
         Distance.per_dimension r
         = (before ++ (Distance.max_contrast_axis r, g) :: after)%list
         /\ Distance.max_contrast_gap r = Distance.absolute_gap g
         /\ Forall (fun kv => Distance.absolute_gap (snd kv)
                              < Distance.absolute_gap g) before
         /\ Forall (fun kv => Distance.absolute_gap (snd kv)
                              <= Distance.absolute_gap g) after.
Proof.
  intros Ha Hb. destruct (distance_defined a b weighted Ha Hb) as [r Er].
  destruct (compute_style_distance_inv a b weighted r Er)
    as [c1 [c2 [s [kv [rest [e1 [e2 [Ec1 [Ec2 [El [_ [_ ->]]]]]]]]]]]].
  destruct (distance_loop c1 c2 weighted PARAMETER_NAMES [] 0 _ _ El
              NoDup_PARAMETER_NAMES) as [Hk [Hin _]]; [intros p _ []|].
  change (keys [] ++ PARAMETER_NAMES)%list with PARAMETER_NAMES in Hk.
  eexists. exists c1, c2. split; [exact Er|].
  split; [exact Ec1|]. split; [exact Ec2|]. cbn [Distance.per_dimension].
  split; [exact Hk|]. split.
  - intros p g Hg.
    assert (Hp : In p PARAMETER_NAMES).
    { rewrite <- Hk. apply lookup_keys. eauto. }
    destruct (Hin p Hp) as [g' [Hg' Hgap]]. congruence.
  - cbn [Distance.max_contrast_axis Distance.max_contrast_gap].
    destruct (max_by_first_max
                (fun kv : string * Distance.DimensionGap =>
                   Distance.absolute_gap (snd kv)) kv rest)
      as [before [after [E [Hb' Ha']]]].
    set (m := max_by _ kv rest) in *.
    exists before, (snd m), after.
    split; [rewrite E; now destruct m|].
    split; [reflexivity|]. split; assumption.
Qed.

Lemma max_contrast_axis_first_largest_witness :
  exists r,
    compute_style_distance "hemingway" "de_sade" false = Ok r
    /\ keys (Distance.per_dimension r) = PARAMETER_NAMES.
Proof.
  destruct (max_contrast_axis_first_largest "hemingway" "de_sade" false)
    as [r [c1 [c2 [Er [_ [_ [Hk _]]]]]]].
  - unfold known. simpl. tauto.
  - unfold known. simpl. tauto.
  - exists r. split; assumption.
Defined.

Lemma over_catalog_pairs (check : string -> string -> bool -> bool) :
  forallb
    (fun a =>
       forallb (fun b => check a b false && check a b true)
         (keys AUTHOR_CATALOG))
    (keys AUTHOR_CATALOG) = true ->
  forall a b weighted, known a -> known b -> check a b weighted = true.
Proof.
  intros H a b weighted Ha Hb. rewrite forallb_forall in H.
  specialize (H a Ha). rewrite forallb_forall in H. specialize (H b Hb).
  apply andb_true_iff in H. destruct H as [Hf Ht].
  destruct weighted; assumption.
Qed.

Lemma mirrored_everywhere :
  forall a b weighted, known a -> known b -> mirrored_at a b weighted = true.
Proof. apply over_catalog_pairs. vm_compute. reflexivity. Qed.

(** X4.  Swapping the two authors mirrors the whole report: the two
    names are exchanged, the max-contrast axis and gap are the same, and
    on every parameter the two values are exchanged, the raw and
    weighted differences change sign and the absolute gap is the
    same. *)
Theorem distance_report_mirrored (a b : string) (weighted : bool) :
  known a -> known b ->
  exists r1 r2,
    compute_style_distance a b weighted = Ok r1
    /\ compute_style_distance b a weighted = Ok r2
    /\ Distance.author_1 r1 = Distance.author_2 r2
    /\ Distance.author_2 r1 = Distance.author_1 r2
    /\ Distance.max_contrast_axis r1 = Distance.max_contrast_axis r2
    /\ Distance.max_contrast_gap r1 = Distance.max_contrast_gap r2
    /\ forall p g1,
         lookup p (Distance.per_dimension r1) = Some g1 ->
         exists g2,
           lookup p (Distance.per_dimension r2) = Some g2
           /\ Distance.value_1 g2 = Distance.value_2 g1
           /\ Distance.value_2 g2 = Distance.value_1 g1
           /\ Distance.raw_difference g2 == - Distance.raw_difference g1
           /\ Distance.weighted_difference g2
              == - Distance.weighted_difference g1
           /\ Distance.absolute_gap g2 = Distance.absolute_gap g1.
Proof.
  intros Ha Hb. pose proof (mirrored_everywhere a b weighted Ha Hb) as H.
  unfold mirrored_at in H.
  destruct (compute_style_distance a b weighted) as [r1|]; [|discriminate].
  destruct (compute_style_distance b a weighted) as [r2|]; [|discriminate].
  unfold report_mirrored in H.
  repeat (apply andb_true_iff in H; destruct H as [H ?]).
  exists r1, r2. split; [reflexivity|]. split; [reflexivity|].
  split; [now apply String.eqb_eq|]. split; [now apply String.eqb_eq|].
  split; [now apply String.eqb_eq|]. split; [now apply Q_same_eq|].
  intros p g1 Hg1.
  match goal with
  | Hall : forallb _ _ = true |- _ =>
      rewrite forallb_forall in Hall;
      specialize (Hall (p, g1) (lookup_In _ _ _ Hg1)); cbn [fst snd] in Hall;
      destruct (lookup p (Distance.per_dimension r2)) as [g2|];
      [|discriminate]; unfold gap_mirrored in Hall;
      do 4 (apply andb_true_iff in Hall; destruct Hall as [Hall ?]);
      exists g2
  end.
  split; [reflexivity|]. split; [now apply Q_same_eq|].
  split; [now apply Q_same_eq|]. split; [now apply Qeq_bool_iff|].
  split; [now apply Qeq_bool_iff | now apply Q_same_eq].
Qed.

Lemma distance_report_mirrored_witness :
  exists r1 r2,
    compute_style_distance "kafka" "borges" true = Ok r1
    /\ compute_style_distance "borges" "kafka" true = Ok r2
    /\ Distance.max_contrast_axis r1 = Distance.max_contrast_axis r2.
Proof.
  destruct (distance_report_mirrored "kafka" "borges" true)
    as [r1 [r2 [E1 [E2 [_ [_ [Hx _]]]]]]].
  - unfold known. simpl. tauto.
  - unfold known. simpl. tauto.
  - exists r1, r2. repeat split; assumption.
Defined.

Lemma in_range_everywhere :
  forall a b weighted, known a -> known b -> in_range_at a b weighted = true.
Proof. apply over_catalog_pairs. vm_compute. reflexivity. Qed.

Lemma eqb_reflect_iff (P Q : Prop) (p q : bool) :
  (p = true <-> P) -> (q = true <-> Q) -> Bool.eqb p q = true -> (P <-> Q).
Proof.
  intros Hp Hq E. apply Bool.eqb_prop in E. subst q.
  rewrite <- Hp, <- Hq. reflexivity.
Qed.

(** X5.  For two catalog authors, weighted or not, the reported
    distances are never negative, the normalized distance is at most 1,
    and the distance, the normalized distance and the max-contrast gap
    are zero exactly when the two identifiers are the same: distinct
    authors are never at distance zero. *)
Theorem distance_range_and_identity (a b : string) (weighted : bool) :
  known a -> known b ->
  exists r,
    compute_style_distance a b weighted = Ok r
    /\ 0 <= Distance.euclidean_distance r
    /\ 0 <= Distance.normalized_distance r
    /\ Distance.normalized_distance r <= 1
    /\ (Distance.euclidean_distance r == 0 <-> a = b)
    /\ (Distance.normalized_distance r == 0 <-> a = b)
    /\ (Distance.max_contrast_gap r == 0 <-> a = b).
Proof.
  intros Ha Hb. pose proof (in_range_everywhere a b weighted Ha Hb) as H.
  unfold in_range_at in H.
  destruct (compute_style_distance a b weighted) as [r|]; [|discriminate].
  unfold report_in_range in H.
  repeat (apply andb_true_iff in H; destruct H as [H ?]).
  exists r. split; [reflexivity|].
  split; [now apply Qleb_le|]. split; [now apply Qleb_le|].
  split; [now apply Qleb_le|].
  split; [|split];
    (eapply eqb_reflect_iff;
     [apply Qeq_bool_iff | apply String.eqb_eq | eassumption]).
Qed.

Lemma distance_range_and_identity_witness :
  exists r,
    compute_style_distance "le_guin" "le_guin" true = Ok r
    /\ Distance.euclidean_distance r == 0.
Proof.
  destruct (distance_range_and_identity "le_guin" "le_guin" true)
    as [r [Er [_ [_ [_ [[_ Hz] _]]]]]].
  - unfold known. simpl. tauto.
  - unfold known. simpl. tauto.
  - exists r. split; [exact Er | now apply Hz].
Defined.

(* ================================================================== *)
(** * The nearest neighbour *)
(* ================================================================== *)

Lemma neighbor_scan_first_min (a : string) (dist : string -> Q)
    (l : list string) :
  (forall x, In x l -> x <> a ->
     exists r, compute_style_distance a x false = Ok r
               /\ Distance.euclidean_distance r = dist x) ->
  forall m0 n0,
  exists m n,
    for_each l (neighbor_step a) (m0, n0) = Ok (m, n)
    /\ ((m = m0 /\ n = n0
         /\ Forall (fun x => x <> a -> bound_not_above m0 (dist x)) l)
        \/ (exists before x after,
              l = (before ++ x :: after)%list
              /\ x <> a /\ n = Some x /\ m = Some (dist x)
              /\ bound_above m0 (dist x)
              /\ Forall (fun y => y <> a -> dist x < dist y) before
              /\ Forall (fun y => y <> a -> dist x <= dist y) after)).
Proof.
  induction l as [|x l IH]; intros Hd m0 n0.
  - exists m0, n0. split; [reflexivity|]. left. auto.
  - assert (Hd' : forall y, In y l -> y <> a ->
              exists r, compute_style_distance a y false = Ok r
                        /\ Distance.euclidean_distance r = dist y)
      by (intros y Hy; apply Hd; now right).
    cbn [for_each]. unfold neighbor_step at 1.
    destruct (String.eqb_spec x a) as [->|Hne].
    + cbn [bind].
      destruct (IH Hd' m0 n0) as [m [n [Es [[-> [-> Hall]]|Hex]]]].
      * exists m0, n0. split; [exact Es|]. left.
        split; [reflexivity|]. split; [reflexivity|].
        constructor; [congruence | exact Hall].
      * destruct Hex as [before [y [after [-> [Hy [-> [-> [Hb [Hbe Haf]]]]]]]]].
        exists (Some (dist y)), (Some y). split; [exact Es|]. right.
        exists (a :: before), y, after.
        split; [reflexivity|]. split; [exact Hy|].
        split; [reflexivity|]. split; [reflexivity|]. split; [exact Hb|].
        split; [constructor; [congruence | exact Hbe] | exact Haf].
    + destruct (Hd x (or_introl eq_refl) Hne) as [r [Er Hr]].
      rewrite Er. cbn [bind]. rewrite Hr.
      assert (Hnew : forall m n,
                for_each l (neighbor_step a) (Some (dist x), Some x)
                = Ok (m, n) ->
                (m = Some (dist x) /\ n = Some x
                 /\ Forall (fun y => y <> a ->
                                     bound_not_above (Some (dist x)) (dist y))
                      l)
                \/ (exists before y after,
                      l = (before ++ y :: after)%list
                      /\ y <> a /\ n = Some y /\ m = Some (dist y)
                      /\ bound_above (Some (dist x)) (dist y)
                      /\ Forall (fun z => z <> a -> dist y < dist z) before
                      /\ Forall (fun z => z <> a -> dist y <= dist z) after) ->
                bound_above m0 (dist x) ->
                exists before y after,
                  x :: l = (before ++ y :: after)%list
                  /\ y <> a /\ n = Some y /\ m = Some (dist y)
                  /\ bound_above m0 (dist y)
                  /\ Forall (fun z => z <> a -> dist y < dist z) before
                  /\ Forall (fun z => z <> a -> dist y <= dist z) after).
      { intros m n _ [[-> [-> Hall]]|Hex] Hm0.
        - exists [], x, l. split; [reflexivity|]. split; [exact Hne|].
          split; [reflexivity|]. split; [reflexivity|]. split; [exact Hm0|].
          split; [constructor | exact Hall].
        - destruct Hex
            as [before [y [after [-> [Hy [-> [-> [Hb [Hbe Haf]]]]]]]]].
          simpl in Hb.
          exists (x :: before), y, after.
          split; [reflexivity|]. split; [exact Hy|].
          split; [reflexivity|]. split; [reflexivity|].
          split; [destruct m0 as [v|]; simpl in *; [lra | exact I]|].
          split; [constructor; [intros _; exact Hb | exact Hbe] | exact Haf]. }
      destruct m0 as [v|].
      * destruct (Qltb (dist x) v) eqn:E.
        -- apply Qltb_lt in E.
           destruct (IH Hd' (Some (dist x)) (Some x)) as [m [n [Es Hcase]]].
           exists m, n. split; [exact Es|]. right.
           apply (Hnew m n Es Hcase). exact E.
        -- apply Qltb_ge in E.
           destruct (IH Hd' (Some v) n0) as [m [n [Es [[-> [-> Hall]]|Hex]]]].
           ++ exists (Some v), n0. split; [exact Es|]. left.
              split; [reflexivity|]. split; [reflexivity|].
              constructor; [intros _; exact E | exact Hall].
           ++ destruct Hex
                as [before [y [after [-> [Hy [-> [-> [Hb [Hbe Haf]]]]]]]]].
              simpl in Hb.
              exists (Some (dist y)), (Some y). split; [exact Es|]. right.
              exists (x :: before), y, after.
              split; [reflexivity|]. split; [exact Hy|].
              split; [reflexivity|]. split; [reflexivity|].
              split; [exact Hb|].
              split; [constructor; [intros _; lra | exact Hbe] | exact Haf].
      * destruct (IH Hd' (Some (dist x)) (Some x)) as [m [n [Es Hcase]]].
        exists m, n. split; [exact Es|]. right.
        apply (Hnew m n Es Hcase). exact I.
Qed.

Lemma reported_distance_defined (a x : string) :
  known a -> known x ->
  exists r, compute_style_distance a x false = Ok r
            /\ Distance.euclidean_distance r = reported_distance a x.
Proof.
  intros Ha Hx. destruct (distance_defined a x false Ha Hx) as [r Er].
  exists r. split; [exact Er|]. unfold reported_distance. now rewrite Er.
Qed.

(** X6.  For a catalog author, [find_nearest_neighbor] returns the
    unweighted report to another catalog author, never to the author
    itself, whose reported distance is the smallest: every other author
    earlier in catalog order is strictly farther and none later is
    closer.  For an identifier outside the catalog it fails with that
    identifier's resolution error. *)
Theorem nearest_neighbor_is_closest (a : string) :
  (known a ->
   exists other r before after,
     find_nearest_neighbor a = Ok r
     /\ compute_style_distance a other false = Ok r
     /\ other <> a
     /\ keys AUTHOR_CATALOG = (before ++ other :: after)%list
     /\ Forall (fun y => y <> a ->
                         Distance.euclidean_distance r < reported_distance a y)
          before
     /\ Forall (fun y => y <> a ->
                         Distance.euclidean_distance r <= reported_distance a y)
          after)
  /\ (~ known a -> find_nearest_neighbor a = Raise (unknown_author a)).
Proof.
  split.
  - intros Ha.
    destruct (neighbor_scan_first_min a (reported_distance a)
                (keys AUTHOR_CATALOG)) with (m0 := @None Q) (n0 := @None string)
      as [m [n [Es [[_ [_ Hall]]|Hex]]]].
    + intros x Hx _. now apply reported_distance_defined.
    + exfalso. rewrite Forall_forall in Hall.
      destruct (string_dec a "hemingway") as [->|Hne].
      * apply (Hall "de_sade"); [vm_compute; tauto | discriminate].
      * apply (Hall "hemingway"); [vm_compute; tauto | congruence].
    + destruct Hex as [before [x [after [E [Hx [-> [-> [_ [Hbe Haf]]]]]]]]].
      assert (Hkx : known x).
      { unfold known. rewrite E, in_app_iff. right. now left. }
      destruct (reported_distance_defined a x Ha Hkx) as [r [Er Hr]].
      exists x, r, before, after.
      unfold find_nearest_neighbor. rewrite Es. cbn [bind].
      split; [exact Er|]. split; [exact Er|]. split; [exact Hx|].
      split; [exact E|]. rewrite Hr. split; assumption.
  - intros Ha. unfold find_nearest_neighbor.
    change (keys AUTHOR_CATALOG)
      with ("hemingway" :: tl (keys AUTHOR_CATALOG)).
    cbn [for_each]. unfold neighbor_step at 1.
    destruct (String.eqb_spec "hemingway" a) as [<-|Hne].
    + exfalso. apply Ha. vm_compute. tauto.
    + unfold compute_style_distance at 1.
      rewrite (get_coordinates_unknown a Ha). reflexivity.
Qed.

Lemma nearest_neighbor_is_closest_witness :
  (exists other r,
     find_nearest_neighbor "kafka" = Ok r
     /\ compute_style_distance "kafka" other false = Ok r
     /\ other <> "kafka")
  /\ find_nearest_neighbor "nobody" = Raise (unknown_author "nobody").
Proof.
  split.
  - destruct (proj1 (nearest_neighbor_is_closest "kafka"))
      as [other [r [before [after [E1 [E2 [Hne _]]]]]]].
    + unfold known. simpl. tauto.
    + exists other, r. repeat split; assumption.
  - apply (proj2 (nearest_neighbor_is_closest "nobody")).
    unfold known. simpl. intuition discriminate.
Defined.

(* ================================================================== *)
(** * The fields of a blend *)
(* ================================================================== *)

Lemma interpolate_styles_result (blend_spec : dict Q) :
  (forall a, In a (keys blend_spec) -> known a) ->
  0 < py_sum (values blend_spec) ->
  let normalized := normalize blend_spec (py_sum (values blend_spec)) in
  exists r d e,
    interpolate_styles blend_spec = Ok r
    /\ blended_coordinates normalized = Ok (Blend.coordinates r)
    /\ keys (Blend.coordinates r) = PARAMETER_NAMES
    /\ nearest_scan (Blend.coordinates r)
       = Ok (Some d, Some (Blend.id (Blend.nearest_catalog_author r)))
    /\ Blend.distance (Blend.nearest_catalog_author r) = round_root d 4
    /\ getitem AUTHOR_CATALOG (Blend.id (Blend.nearest_catalog_author r))
       = Ok e
    /\ Blend.display_name (Blend.nearest_catalog_author r) = display_name e
    /\ _extract_text_vocabulary (Blend.coordinates r)
       = Ok (Blend.text_vocabulary r)
    /\ _extract_image_vocabulary (Blend.coordinates r)
       = Ok (Blend.image_vocabulary r)
    /\ blended_moves normalized = Ok (Blend.signature_moves r)
    /\ blend_display_of normalized = Ok (Blend.blend_display r)
    /\ Blend.blend_spec r
       = map (fun '(aid, w) => (aid, py_round w 3)) normalized.
Proof.
  intros Hk Hpos normalized.
  assert (Hkn : forall a, In a (keys normalized) -> known a).
  { intros a Ha. apply Hk. unfold normalized in Ha.
    now rewrite normalize_keys in Ha. }
  unfold interpolate_styles.
  destruct (is_empty blend_spec) eqn:Eempty.
  { destruct blend_spec; [|discriminate]. exfalso.
    unfold py_sum in Hpos. simpl in Hpos. lra. }
  apply Qleb_gt in Hpos. rewrite Hpos. cbv zeta. fold normalized.
  destruct (blended_coordinates_ok normalized Hkn) as [blended [Eb [Kb _]]].
  rewrite Eb. cbn [bind].
  pose proof (keys_has_all blended Kb) as Hall.
  destruct (nearest_scan_ok blended Hall) as [d [aid [En Hn]]].
  rewrite En. cbn [bind].
  destruct (extract_vocabulary_ok "text_output_mapping" blended)
    as [tv [Et _]]; [simpl; tauto | exact Hall |].
  destruct (extract_vocabulary_ok "image_output_mapping" blended)
    as [iv [Ei _]]; [simpl; tauto | exact Hall |].
  unfold _extract_text_vocabulary, _extract_image_vocabulary.
  rewrite Et, Ei. cbn [bind].
  rewrite (blended_moves_ok normalized Hkn). cbn [bind].
  destruct (blend_display_of_ok normalized Hkn) as [s Es].
  rewrite Es. cbn [bind].
  destruct (get_coordinates_known aid Hn) as [e [_ [Eg _]]].
  rewrite Eg. cbn [bind].
  eexists. exists d, e. split; [reflexivity|].
  cbn [Blend.coordinates Blend.nearest_catalog_author Blend.id Blend.distance
       Blend.display_name Blend.text_vocabulary Blend.image_vocabulary
       Blend.signature_moves Blend.blend_display Blend.blend_spec].
  repeat (split; [first [reflexivity | assumption]|]). reflexivity.
Qed.

(* ================================================================== *)
(** * Blends with equal normalized weights *)
(* ================================================================== *)

Lemma for_each_rel {A A' S S' : Type} (R : A -> A' -> Prop)
    (RS : S -> S' -> Prop) (body : S -> A -> M S) (body' : S' -> A' -> M S')
    (l : list A) (l' : list A') :
  Forall2 R l l' ->
  (forall s s' x x', RS s s' -> R x x' -> M_rel RS (body s x) (body' s' x')) ->
  forall acc acc', RS acc acc' ->
  M_rel RS (for_each l body acc) (for_each l' body' acc').
Proof.
  intros Hl Hb. induction Hl as [|x x' l l' Hx Hl IH]; intros acc acc' Hacc.
  - exact Hacc.
  - simpl. specialize (Hb acc acc' x x' Hacc Hx).
    destruct (body acc x) as [s|e], (body' acc' x') as [s'|e'];
      simpl in *; try contradiction; [now apply IH | exact Hb].
Qed.

Lemma M_rel_eq {A : Type} (m m' : M A) : M_rel eq m m' -> m = m'.
Proof.
  destruct m, m'; simpl; intros H; try contradiction; now subst.
Qed.

Lemma blended_value_equiv (n n' : dict Q) (p : string) :
  weights_equiv n n' ->
  M_rel Qeq (blended_value n p) (blended_value n' p).
Proof.
  intros H. unfold blended_value.
  apply (for_each_rel (fun x y => fst x = fst y /\ snd x == snd y) Qeq);
    [exact H | | reflexivity].
  intros s s' [a w] [a' w'] Hs [Ha Hw]. simpl in Ha, Hw. subst a'.
  destruct (get_coordinates a) as [c|e]; simpl; [|reflexivity].
  destruct (getitem c p) as [v|e]; simpl; [|reflexivity].
  now rewrite Hs, Hw.
Qed.

Lemma build_dict_ext {V : Type} (names : list string) (f f' : string -> M V) :
  (forall k, f k = f' k) -> build_dict names f = build_dict names f'.
Proof.
  intros H. unfold build_dict. generalize (@nil (string * V)).
  induction names as [|k names IH]; intros acc; simpl; [reflexivity|].
  rewrite H. destruct (f' k); simpl; [apply IH | reflexivity].
Qed.

Lemma blended_coordinates_equiv (n n' : dict Q) :
  weights_equiv n n' -> blended_coordinates n = blended_coordinates n'.
Proof.
  intros H. unfold blended_coordinates. apply build_dict_ext. intros p.
  pose proof (blended_value_equiv n n' p H) as Hv.
  destruct (blended_value n p) as [v|e], (blended_value n' p) as [v'|e'];
    simpl in *; try contradiction; [|now subst].
  now rewrite Hv.
Qed.

Lemma insert_by_equiv (x x' : string * Q) (l l' : dict Q) :
  fst x = fst x' /\ snd x == snd x' -> weights_equiv l l' ->
  weights_equiv (insert_by (fun y => - snd y) x l)
    (insert_by (fun y => - snd y) x' l').
Proof.
  intros Hx Hl. induction Hl as [|y y' l l' Hy Hl IH]; simpl.
  - constructor; [exact Hx | constructor].
  - assert (E : Qleb (- snd x) (- snd y) = Qleb (- snd x') (- snd y')).
    { destruct Hx as [_ Hx], Hy as [_ Hy]. now rewrite Hx, Hy. }
    rewrite E. destruct (Qleb (- snd x') (- snd y')).
    + constructor; [exact Hx|]. constructor; [exact Hy | exact Hl].
    + constructor; [exact Hy | exact IH].
Qed.

Lemma by_weight_equiv (n n' : dict Q) :
  weights_equiv n n' -> weights_equiv (by_weight n) (by_weight n').
Proof.
  intros H. unfold by_weight.
  induction H as [|x x' l l' Hx Hl IH]; simpl; [constructor|].
  now apply insert_by_equiv.
Qed.

Lemma n_moves_proper (w w' : Q) : w == w' -> n_moves w = n_moves w'.
Proof. intros E. unfold n_moves. now rewrite E. Qed.

Lemma blended_moves_equiv (n n' : dict Q) :
  weights_equiv n n' -> blended_moves n = blended_moves n'.
Proof.
  intros H. unfold blended_moves. apply M_rel_eq.
  apply (for_each_rel (fun x y => fst x = fst y /\ snd x == snd y) eq);
    [now apply by_weight_equiv | | reflexivity].
  intros s s' [a w] [a' w'] -> [Ha Hw]. simpl in Ha, Hw. subst a'.
  destruct (getitem AUTHOR_CATALOG a) as [e|e]; simpl; [|reflexivity].
  now rewrite (n_moves_proper w w' Hw).
Qed.

Lemma blend_display_of_equiv (n n' : dict Q) :
  weights_equiv n n' -> blend_display_of n = blend_display_of n'.
Proof.
  intros H. unfold blend_display_of. f_equal. apply M_rel_eq.
  apply (for_each_rel (fun x y => fst x = fst y /\ snd x == snd y) eq);
    [now apply by_weight_equiv | | reflexivity].
  intros s s' [a w] [a' w'] -> [Ha Hw]. simpl in Ha, Hw. subst a'.
  destruct (getitem AUTHOR_CATALOG a) as [e|e]; simpl; [|reflexivity].
  assert (E : w * 100 == w' * 100) by now rewrite Hw.
  now rewrite E.
Qed.

Lemma rounded_spec_equiv (n n' : dict Q) :
  weights_equiv n n' ->
  map (fun '(aid, w) => (aid, py_round w 3)) n
  = map (fun '(aid, w) => (aid, py_round w 3)) n'.
Proof.
  induction 1 as [|[a w] [a' w'] l l' [Ha Hw] Hl IH]; simpl; [reflexivity|].
  simpl in Ha, Hw. subst a'. now rewrite Hw, IH.
Qed.

Lemma interpolate_styles_equiv (l l' : dict Q) :
  is_empty l = is_empty l' ->
  Qleb (py_sum (values l)) 0 = Qleb (py_sum (values l')) 0 ->
  (Qleb (py_sum (values l)) 0 = false ->
   weights_equiv (normalize l (py_sum (values l)))
     (normalize l' (py_sum (values l')))) ->
  interpolate_styles l = interpolate_styles l'.
Proof.
  intros He Hs Hn. unfold interpolate_styles. rewrite <- He, <- Hs.
  destruct (is_empty l); [reflexivity|].
  destruct (Qleb (py_sum (values l)) 0); [reflexivity|].
  specialize (Hn eq_refl). cbv zeta.
  rewrite (blended_coordinates_equiv _ _ Hn), (blended_moves_equiv _ _ Hn),
    (blend_display_of_equiv _ _ Hn), (rounded_spec_equiv _ _ Hn).
  reflexivity.
Qed.

(* ================================================================== *)
(** * Further properties of the blend *)
(* ================================================================== *)

Lemma over_catalog (check : string -> bool) :
  forallb check (keys AUTHOR_CATALOG) = true ->
  forall a, known a -> check a = true.
Proof. intros H a Ha. rewrite forallb_forall in H. now apply H. Qed.

Lemma single_blend_everywhere :
  forall a, known a -> single_blend_check a = true.
Proof. apply over_catalog. vm_compute. reflexivity. Qed.

(** X9.  A blend of one catalog author with any positive weight
    reports that author as the nearest catalog author, at distance 0,
    gives all of the author's signature moves in stored order, displays
    as 100% of the author, and has normalized weight 1. *)
Theorem single_entry_blend_report (a : string) (w : Q) :
  known a -> 0 < w ->
  exists r e,
    interpolate_styles [(a, w)] = Ok r
    /\ getitem AUTHOR_CATALOG a = Ok e
    /\ Blend.id (Blend.nearest_catalog_author r) = a
    /\ Blend.display_name (Blend.nearest_catalog_author r) = display_name e
    /\ Blend.distance (Blend.nearest_catalog_author r) = 0
    /\ Blend.signature_moves r = signature_moves e
    /\ Blend.blend_display r = "100% " ++ display_name e
    /\ Blend.blend_spec r = [(a, 1)].
Proof.
  intros Ha Hw.
  assert (E : interpolate_styles [(a, w)] = interpolate_styles [(a, 1)]).
  { apply interpolate_styles_equiv; [reflexivity | |].
    - unfold py_sum. simpl.
      assert (H1 : Qleb (0 + w) 0 = false) by (apply Qleb_gt; lra).
      assert (H2 : Qleb (0 + 1) 0 = false) by (apply Qleb_gt; lra).
      now rewrite H1, H2.
    - intros _. unfold py_sum. simpl. constructor; [|constructor].
      simpl. split; [reflexivity|]. field. lra. }
  rewrite E. pose proof (single_blend_everywhere a Ha) as H.
  unfold single_blend_check in H.
  destruct (interpolate_styles [(a, 1)]) as [r|]; [|discriminate].
  destruct (getitem AUTHOR_CATALOG a) as [e|]; [|discriminate].
  cbv zeta in H.
  do 5 (apply andb_true_iff in H; destruct H as [H ?]).
  exists r, e. split; [reflexivity|]. split; [reflexivity|].
  split; [now apply String.eqb_eq|]. split; [now apply String.eqb_eq|].
  split; [now apply Q_same_eq|].
  split.
  { match goal with
    | Hm : (if list_eq_dec string_dec ?x ?y then true else false) = true
      |- _ => destruct (list_eq_dec string_dec x y); [assumption|discriminate]
    end. }
  split; [now apply String.eqb_eq|].
  match goal with
  | Hs : match Blend.blend_spec r with [] => _ | _ :: _ => _ end = true
    |- _ =>
      destruct (Blend.blend_spec r) as [|[k v] [|]]; try discriminate;
      apply andb_true_iff in Hs; destruct Hs as [Hk Hv];
      apply String.eqb_eq in Hk; apply Q_same_eq in Hv; now subst
  end.
Qed.

Lemma single_entry_blend_report_witness :
  exists r,
    interpolate_styles [("lispector", 5 # 2)] = Ok r
    /\ Blend.id (Blend.nearest_catalog_author r) = "lispector"
    /\ Blend.distance (Blend.nearest_catalog_author r) = 0.
Proof.
  destruct (single_entry_blend_report "lispector" (5 # 2))
    as [r [e [Er [_ [Hi [_ [Hd _]]]]]]].
  - unfold known. simpl. tauto.
  - reflexivity.
  - exists r. repeat split; assumption.
Defined.

Lemma catalog_in_unit_interval (a p : string) :
  known a -> In p PARAMETER_NAMES ->
  0 <= coordinate a p /\ coordinate a p <= 1.
Proof.
  assert (H : forallb
                (fun kv =>
                   forallb (fun c => Qleb 0 (snd c) && Qleb (snd c) 1)
                     (coordinates (snd kv)))
                AUTHOR_CATALOG = true) by (vm_compute; reflexivity).
  intros Ha Hp. destruct (stored_known a p Ha Hp) as [Es _].
  destruct (get_coordinates_known a Ha) as [e [He [_ Ec]]].
  unfold stored in Es. rewrite Ec in Es. simpl in Es.
  apply getitem_Ok, lookup_In in Es.
  rewrite forallb_forall in H. specialize (H _ He). simpl in H.
  rewrite forallb_forall in H. specialize (H _ Es). simpl in H.
  apply andb_true_iff in H. destruct H as [H0 H1].
  split; now apply Qleb_le.
Qed.

(** X10.  A blend of catalog authors with non-negative weights and a
    positive total stays in the unit cube: it has the 8 coordinates, in
    canonical order, each between 0 and 1, as the stored coordinates of
    every catalog author are. *)
Theorem blend_in_unit_cube (blend_spec : dict Q) :
  (forall a, In a (keys blend_spec) -> known a) ->
  (forall a w, In (a, w) blend_spec -> 0 <= w) ->
  0 < py_sum (values blend_spec) ->
  exists r,
    interpolate_styles blend_spec = Ok r
    /\ keys (Blend.coordinates r) = PARAMETER_NAMES
    /\ forall p b, lookup p (Blend.coordinates r) = Some b ->
         0 <= b /\ b <= 1.
Proof.
  intros Hk Hw Hpos.
  destruct (interpolate_styles_ok blend_spec Hk Hpos) as [r [Er _]].
  destruct (blended_point blend_spec r Hk Hpos Er) as [Kb Hl].
  exists r. split; [exact Er|]. split; [exact Kb|].
  intros p b Hb.
  assert (Hp : In p PARAMETER_NAMES).
  { rewrite <- Kb. apply lookup_keys. eauto. }
  destruct (Hl p Hp) as [val [Hv Hb']].
  rewrite Hb in Hb'. inversion Hb'; subst b. clear Hb'.
  set (normalized := normalize blend_spec (py_sum (values blend_spec))) in *.
  destruct (weighted_sum_bounds p normalized 0 1) as [B1 B2].
  { intros a w Hin. apply normalize_In in Hin.
    destruct Hin as [v [Hin ->]].
    split; [apply Qdiv_nonneg; [now apply (Hw a) | exact Hpos]|].
    apply catalog_in_unit_interval; [|exact Hp].
    apply Hk, keys_In. eauto. }
  pose proof (normalized_total blend_spec Hpos) as Ht.
  fold normalized in Ht. rewrite Ht, <- Hv in B1, B2.
  split.
  - assert (E0 : py_round 0 4 == 0) by reflexivity.
    rewrite <- E0. apply py_round_mono. lra.
  - assert (E1 : py_round 1 4 == 1) by reflexivity.
    rewrite <- E1. apply py_round_mono. lra.
Qed.

Lemma blend_in_unit_cube_witness :
  exists r,
    interpolate_styles [("marquez", 2); ("didion", 0); ("kafka", 5)] = Ok r
    /\ keys (Blend.coordinates r) = PARAMETER_NAMES.
Proof.
  destruct (blend_in_unit_cube [("marquez", 2); ("didion", 0); ("kafka", 5)])
    as [r [Er [Kr _]]].
  - intros a [<-|[<-|[<-|[]]]]; unfold known; simpl; tauto.
  - intros a w [E|[E|[E|[]]]]; inversion E; subst; lra.
  - vm_compute. reflexivity.
  - exists r. split; assumption.
Defined.

Lemma five_moves (a : string) : known a -> length (moves_of a) = 5%nat.
Proof.
  intros Ha. apply Nat.eqb_eq.
  apply (over_catalog (fun a => Nat.eqb (length (moves_of a)) 5));
    [vm_compute; reflexivity | exact Ha].
Qed.

Lemma Qsum_bounds_each (l : list Q) (v : Q) :
  (forall x, In x l -> 0 <= x) -> In v l -> v <= Qsum l /\ 0 <= Qsum l.
Proof.
  induction l as [|x l IH]; intros Hpos Hin; [destruct Hin|].
  assert (H0 : 0 <= x) by (apply Hpos; now left).
  assert (Hl : forall y, In y l -> 0 <= y)
    by (intros y Hy; apply Hpos; now right).
  assert (Hs : 0 <= Qsum l).
  { clear -Hl. induction l as [|y l IH]; simpl; [lra|].
    assert (0 <= y) by (apply Hl; now left).
    assert (0 <= Qsum l) by (apply IH; intros z Hz; apply Hl; now right).
    lra. }
  simpl. destruct Hin as [->|Hin]; [lra|].
  destruct (IH Hl Hin). lra.
Qed.

Lemma n_moves_bounds (w : Q) : 0 <= w -> w <= 1 -> (1 <= n_moves w <= 5)%Z.
Proof.
  intros H0 H1. unfold n_moves.
  assert (H5 : (py_round_int (w * 5) <= py_round_int (inject_Z 5))%Z)
    by (apply py_round_int_mono; unfold inject_Z; lra).
  rewrite py_round_int_integer in H5. lia.
Qed.

(** X11.  In a blend of catalog authors with non-negative weights and
    a positive total, the signature moves are made of one run for each
    contributor, the contributors taken in some order: the first [n]
    stored moves of that author, with [n] between 1 and 5.  So the list
    has at least as many moves as the blend has contributors, and at
    most 5 times as many. *)
Theorem blend_move_counts (blend_spec : dict Q) :
  (forall a, In a (keys blend_spec) -> known a) ->
  (forall a w, In (a, w) blend_spec -> 0 <= w) ->
  0 < py_sum (values blend_spec) ->
  exists r order runs,
    interpolate_styles blend_spec = Ok r
    /\ Permutation order (keys blend_spec)
    /\ Forall2 (fun a run =>
                  exists n, (1 <= n <= 5)%nat
                            /\ run = firstn n (moves_of a)
                            /\ length run = n)
         order runs
    /\ Blend.signature_moves r = concat runs
    /\ (length blend_spec <= length (Blend.signature_moves r)
        <= 5 * length blend_spec)%nat.
Proof.
  intros Hk Hw Hpos.
  set (normalized := normalize blend_spec (py_sum (values blend_spec))).
  destruct (interpolate_styles_ok blend_spec Hk Hpos) as [r [Er [_ [Em _]]]].
  fold normalized in Em.
  assert (Hkn : forall a, In a (keys normalized) -> known a).
  { intros a Ha. apply Hk. unfold normalized in Ha.
    now rewrite normalize_keys in Ha. }
  assert (Hb : forall a w, In (a, w) normalized ->
                           (1 <= n_moves w <= 5)%Z).
  { intros a w Hin.
    apply normalize_In in Hin. destruct Hin as [v [Hin ->]].
    assert (Hv : 0 <= v) by now apply (Hw a).
    assert (Hvin : In v (values blend_spec)).
    { unfold values. apply in_map_iff. exists (a, v). auto. }
    destruct (Qsum_bounds_each (values blend_spec) v) as [Hle _];
      [|exact Hvin|].
    { intros x Hx. unfold values in Hx. apply in_map_iff in Hx.
      destruct Hx as [[a' x'] [<- Hx]]. now apply (Hw a'). }
    rewrite <- py_sum_Qsum in Hle.
    apply n_moves_bounds.
    - now apply Qdiv_nonneg.
    - apply Qle_shift_div_r; [exact Hpos | lra]. }
  assert (Hin : forall x, In x (by_weight normalized) -> In x normalized).
  { intros x Hx.
    apply (sorted_In (fun x : string * Q => - snd x)). exact Hx. }
  assert (Hruns : Forall2 (fun a run =>
                             exists n, (1 <= n <= 5)%nat
                                       /\ run = firstn n (moves_of a)
                                       /\ length run = n)
                    (keys (by_weight normalized))
                    (map (fun '(a, w) => slice_to (moves_of a) (n_moves w))
                       (by_weight normalized))).
  { revert Hin. generalize (by_weight normalized).
    intros l. induction l as [|[a w] l IH]; intros Hin; simpl; constructor.
    - destruct (Hb a w) as [L U]; [apply Hin; now left|].
      assert (Ha : known a).
      { apply Hkn, keys_In. exists w. apply Hin. now left. }
      exists (Z.to_nat (n_moves w)). split; [lia|].
      unfold slice_to. destruct (Z.leb_spec 0 (n_moves w)); [|lia].
      split; [reflexivity|].
      rewrite length_firstn, (five_moves a Ha). lia.
    - apply IH. intros x Hx. apply Hin. now right. }
  exists r, (keys (by_weight normalized)),
    (map (fun '(a, w) => slice_to (moves_of a) (n_moves w))
       (by_weight normalized)).
  split; [exact Er|].
  assert (Hp : Permutation (keys (by_weight normalized)) (keys blend_spec)).
  { rewrite <- (normalize_keys blend_spec (py_sum (values blend_spec))).
    fold normalized. unfold keys. apply Permutation_map.
    unfold by_weight. apply sorted_perm. }
  split; [exact Hp|]. split; [exact Hruns|].
  split; [rewrite Em; apply flat_map_concat_map|].
  rewrite Em, flat_map_concat_map.
  assert (Hl : length blend_spec = length (keys (by_weight normalized))).
  { rewrite (Permutation_length Hp). unfold keys. now rewrite length_map. }
  rewrite Hl. clear -Hruns.
  induction Hruns as [|a run order runs [n [Hn [_ Hlen]]] Hr IH]; simpl;
    [lia|].
  rewrite length_app. lia.
Qed.

Lemma blend_move_counts_witness :
  exists r,
    interpolate_styles [("shonagon", 1); ("kafka", 9)] = Ok r
    /\ (2 <= length (Blend.signature_moves r) <= 10)%nat.
Proof.
  destruct (blend_move_counts [("shonagon", 1); ("kafka", 9)])
    as [r [order [runs [Er [_ [_ [_ Hl]]]]]]].
  - intros a [<-|[<-|[]]]; unfold known; simpl; tauto.
  - intros a w [E|[E|[]]]; inversion E; subst; lra.
  - vm_compute. reflexivity.
  - exists r. split; [exact Er | exact Hl].
Defined.

(* ================================================================== *)
(** * The annotated tier bundle *)
(* ================================================================== *)

Lemma tier_bundle_annotated (dim_id : string) (v : Q) (output_type : string) :
  In dim_id PARAMETER_NAMES -> In output_type output_types ->
  exists bundle,
    table_bundle dim_id output_type (_get_tier v) = Ok bundle
    /\ _interpolate_tier_vocabularies dim_id v output_type
       = Ok (bundle ++ annotations dim_id v)%list
    /\ directive_sentences (bundle ++ annotations dim_id v)%list
       = directive_sentences bundle
    /\ length (directive_sentences bundle) = 1%nat.
Proof.
  intros Hd Ho.
  unfold table_bundle, annotations, boundary_proximity,
    _interpolate_tier_vocabularies, _get_tier.
  generalize (py_round v 3); intros q0.
  generalize (py_round (v / 0.33) 3); intros q1.
  generalize (py_round ((v - 0.33) / 0.34) 3); intros q2.
  generalize (py_round ((v - 0.67) / 0.33) 3); intros q3.
  simpl in Hd, Ho.
  destruct (Qltb v 0.33); [|destruct (Qltb v 0.67)];
    repeat (destruct Hd as [<-|Hd]; [|try contradiction]);
    repeat (destruct Ho as [<-|Ho]; [|try contradiction]);
    (eexists; split; [vm_compute; reflexivity|]);
    (split; [reflexivity|]); split; vm_compute; reflexivity.
Qed.

Lemma py_round_between (x lo hi : Q) (n : nat) (zl zh : Z) :
  lo * inject_Z (pow10 n) == inject_Z zl ->
  hi * inject_Z (pow10 n) == inject_Z zh ->
  lo <= x -> x <= hi -> lo <= py_round x n /\ py_round x n <= hi.
Proof.
  intros El Eh Hl Hh. split.
  - rewrite <- (py_round_exact lo n zl El). now apply py_round_mono.
  - rewrite <- (py_round_exact hi n zh Eh). now apply py_round_mono.
Qed.

Lemma boundary_proximity_range (v : Q) :
  (0 <= v -> v <= 1 ->
   0 <= boundary_proximity v /\ boundary_proximity v <= 1)
  /\ (v <= 0 -> boundary_proximity v <= 0)
  /\ (1 <= v -> 1 <= boundary_proximity v).
Proof.
  unfold boundary_proximity.
  assert (E1 : v / 0.33 == v * (100 # 33)) by (field).
  assert (E2 : (v - 0.33) / 0.34 == (v - 0.33) * (100 # 34)) by (field).
  assert (E3 : (v - 0.67) / 0.33 == (v - 0.67) * (100 # 33)) by (field).
  assert (Z0 : 0 * inject_Z (pow10 3) == inject_Z 0) by reflexivity.
  assert (Z1 : 1 * inject_Z (pow10 3) == inject_Z 1000) by reflexivity.
  destruct (Qltb v 0.33) eqn:L1; [|destruct (Qltb v 0.67) eqn:L2];
    try apply Qltb_lt in L1; try apply Qltb_ge in L1;
    try apply Qltb_lt in L2; try apply Qltb_ge in L2.
  - rewrite E1. split; [|split].
    + intros H0 H1. apply (py_round_between _ 0 1 3 0 1000 Z0 Z1); lra.
    + intros H0. rewrite <- (py_round_exact 0 3 0 Z0).
      apply py_round_mono. lra.
    + intros H1. exfalso. lra.
  - rewrite E2. split; [|split].
    + intros H0 H1. apply (py_round_between _ 0 1 3 0 1000 Z0 Z1); lra.
    + intros H0. exfalso. lra.
    + intros H1. exfalso. lra.
  - rewrite E3. split; [|split].
    + intros H0 H1. apply (py_round_between _ 0 1 3 0 1000 Z0 Z1); lra.
    + intros H0. exfalso. lra.
    + intros H1. rewrite <- (py_round_exact 1 3 1000 Z1).
      apply py_round_mono. lra.
Qed.

(** X12.  For each of the 8 dimensions and both output tables, the
    extraction returns the table's bundle for the value's tier, every
    descriptor kept as stored, followed by the four annotations
    [_dimension], [_value], [_tier] and [_boundary_proximity], the first
    and the third being the dimension and the tier.  The proximity is
    between 0 and 1 for a value between 0 and 1, at most 0 for a value
    at or below 0 and at least 1 for a value at or above 1.  A dimension
    that is not in the table is a [KeyError] on its name. *)
Theorem tier_annotation (dim_id output_type : string) (v : Q) :
  (In dim_id PARAMETER_NAMES -> In output_type output_types ->
   exists bundle rounded proximity,
     table_bundle dim_id output_type (_get_tier v) = Ok bundle
     /\ _interpolate_tier_vocabularies dim_id v output_type
        = Ok (bundle ++ [("_dimension", VStr dim_id);
                         ("_value", VFloat rounded);
                         ("_tier", VStr (_get_tier v));
                         ("_boundary_proximity", VFloat proximity)])%list
     /\ (0 <= v -> v <= 1 -> 0 <= proximity /\ proximity <= 1)
     /\ (v <= 0 -> proximity <= 0)
     /\ (1 <= v -> 1 <= proximity))
  /\ (~ In dim_id PARAMETER_NAMES ->
      _interpolate_tier_vocabularies dim_id v output_type
      = Raise (KeyError dim_id)).
Proof.
  split.
  - intros Hd Ho.
    destruct (tier_bundle_annotated dim_id v output_type Hd Ho)
      as [bundle [E1 [E2 _]]].
    exists bundle, (py_round v 3), (boundary_proximity v).
    split; [exact E1|]. split; [exact E2|].
    apply boundary_proximity_range.
  - intros Hn. unfold _interpolate_tier_vocabularies, getitem.
    destruct (lookup dim_id DIMENSIONS) as [d|] eqn:E; [|reflexivity].
    exfalso. apply Hn.
    assert (Hk : In dim_id (keys DIMENSIONS)) by (apply lookup_keys; eauto).
    exact Hk.
Qed.

Lemma tier_annotation_witness :
  (exists bundle rounded proximity,
     _interpolate_tier_vocabularies "interiority" (1 # 2)
       "image_output_mapping"
     = Ok (bundle ++ [("_dimension", VStr "interiority");
                      ("_value", VFloat rounded);
                      ("_tier", VStr "mid");
                      ("_boundary_proximity", VFloat proximity)])%list
     /\ 0 <= proximity /\ proximity <= 1)
  /\ _interpolate_tier_vocabularies "mood" (1 # 2) "image_output_mapping"
     = Raise (KeyError "mood").
Proof.
  destruct (tier_annotation "interiority" "image_output_mapping" (1 # 2))
    as [H _].
  destruct (tier_annotation "mood" "image_output_mapping" (1 # 2))
    as [_ H'].
  split.
  - destruct H as [bundle [rounded [proximity [_ [E [Hr _]]]]]];
      [simpl; tauto | simpl; tauto |].
    exists bundle, rounded, proximity. split; [exact E|].
    apply Hr; lra.
  - apply H'. simpl. intuition discriminate.
Defined.

(* ================================================================== *)
(** * The composition of the prompts *)
(* ================================================================== *)

Lemma generate_text_prompt_custom (a : option string)
    (b : option (dict Q)) (cc : dict Q) :
  truthy_str a = false -> truthy_dict b = false -> cc <> [] ->
  generate_text_prompt a b (Some cc)
  = text_prompt_of cc "Custom coordinates" [] [].
Proof.
  intros Ha Hb Hc. destruct cc as [|x cc]; [congruence|].
  destruct a as [[|]|], b as [[|]|]; try discriminate; reflexivity.
Qed.

Lemma generate_image_prompt_custom (a : option string)
    (b : option (dict Q)) (cc : dict Q) (m : string) :
  truthy_str a = false -> truthy_dict b = false -> cc <> [] ->
  generate_image_prompt a b (Some cc) m
  = image_prompt_of cc "Custom coordinates"
      [("keywords", VList []); ("color_palette", VList []);
       ("compositional_rules", VList [])] m.
Proof.
  intros Ha Hb Hc. destruct cc as [|x cc]; [congruence|].
  destruct a as [[|]|], b as [[|]|]; try discriminate; reflexivity.
Qed.

Lemma generate_text_prompt_blend (a : option string) (spec : dict Q)
    (c : option (dict Q)) :
  truthy_str a = false -> spec <> [] ->
  generate_text_prompt a (Some spec) c
  = (result <- interpolate_styles spec ;;
     text_prompt_of (Blend.coordinates result) (Blend.blend_display result)
       [] (Blend.signature_moves result)).
Proof.
  intros Ha Hs. destruct spec as [|x spec]; [congruence|].
  destruct a as [[|]|]; try discriminate;
    unfold generate_text_prompt;
    destruct (interpolate_styles (x :: spec)); reflexivity.
Qed.

Lemma generate_image_prompt_blend (a : option string) (spec : dict Q)
    (c : option (dict Q)) (m : string) :
  truthy_str a = false -> spec <> [] ->
  generate_image_prompt a (Some spec) c m
  = (result <- interpolate_styles spec ;;
     image_prompt_of (Blend.coordinates result) (Blend.blend_display result)
       (map (fun '(k, b) => (k, VDict b)) (Blend.image_vocabulary result)) m).
Proof.
  intros Ha Hs. destruct spec as [|x spec]; [congruence|].
  destruct a as [[|]|]; try discriminate;
    unfold generate_image_prompt;
    destruct (interpolate_styles (x :: spec)); reflexivity.
Qed.

Lemma generate_text_prompt_author (a : string) (b c : option (dict Q)) :
  a <> "" ->
  generate_text_prompt (Some a) b c
  = (coords <- get_coordinates a ;;
     entry <- getitem AUTHOR_CATALOG a ;;
     text_prompt_of coords (display_name entry) (text_vocabulary entry)
       (signature_moves entry)).
Proof.
  intros Ha. destruct a as [|ch s]; [congruence|].
  unfold generate_text_prompt.
  destruct (get_coordinates (String ch s)); [|reflexivity]. cbn [bind].
  destruct (getitem AUTHOR_CATALOG (String ch s)); reflexivity.
Qed.

Lemma generate_image_prompt_author (a : string) (b c : option (dict Q))
    (m : string) :
  a <> "" ->
  generate_image_prompt (Some a) b c m
  = (coords <- get_coordinates a ;;
     entry <- getitem AUTHOR_CATALOG a ;;
     image_prompt_of coords (display_name entry) (image_vocabulary entry) m).
Proof.
  intros Ha. destruct a as [|ch s]; [congruence|].
  unfold generate_image_prompt.
  destruct (get_coordinates (String ch s)); [|reflexivity]. cbn [bind].
  destruct (getitem AUTHOR_CATALOG (String ch s)); reflexivity.
Qed.

Lemma extract_vocabulary_bundles (output_type : string) (coords : dict Q)
    (dims : dict (dict pyobj)) :
  In output_type output_types -> has_all_dimensions coords ->
  extract_vocabulary output_type coords = Ok dims ->
  forall p, In p PARAMETER_NAMES ->
    exists v bundle,
      lookup p coords = Some v
      /\ table_bundle p output_type (_get_tier v) = Ok bundle
      /\ lookup p dims = Some (bundle ++ annotations p v)%list
      /\ directive_sentences (bundle ++ annotations p v)%list
         = directive_sentences bundle
      /\ length (directive_sentences bundle) = 1%nat.
Proof.
  intros Ho Hc E. unfold extract_vocabulary in E.
  destruct (build_dict_ok PARAMETER_NAMES
              (fun dim_id =>
                 v <- getitem coords dim_id ;;
                 _interpolate_tier_vocabularies dim_id v output_type))
    as [d [Ed [Hin Hk]]].
  - intros p Hp. destruct (Hc p Hp) as [v Hv].
    destruct (tier_bundle_annotated p v output_type Hp Ho) as [b [_ [Eb _]]].
    eexists. unfold getitem. rewrite Hv. exact Eb.
  - rewrite E in Ed. inversion Ed; subst d.
    intros p Hp. destruct (Hin p Hp) as [b [Eb Hb]].
    destruct (Hc p Hp) as [v Hv].
    destruct (tier_bundle_annotated p v output_type Hp Ho)
      as [bundle [Et [Ei [Es Hl]]]].
    unfold getitem in Eb. rewrite Hv in Eb. simpl in Eb.
    rewrite Ei in Eb. inversion Eb; subst b.
    exists v, bundle. auto.
Qed.

Lemma collect_directives_from (dims : dict (dict pyobj)) (l : list string)
    (acc : list string) :
  (forall p, In p l -> exists b, lookup p dims = Some b) ->
  for_each l
    (fun parts dim_id =>
       tier_data <- getitem dims dim_id ;;
       Ok (parts ++ directive_sentences tier_data)%list)
    acc
  = Ok (acc ++ flat_map
                 (fun p => match lookup p dims with
                           | Some b => directive_sentences b
                           | None => []
                           end) l)%list.
Proof.
  revert acc. induction l as [|p l IH]; intros acc H; simpl.
  - now rewrite app_nil_r.
  - destruct (H p (or_introl eq_refl)) as [b Hb].
    unfold getitem. rewrite Hb. simpl.
    rewrite IH by (intros q Hq; apply H; now right).
    now rewrite app_assoc.
Qed.

Lemma flat_map_singletons {A B : Type} (f : A -> list B) (l : list A) :
  (forall x, In x l -> length (f x) = 1%nat) ->
  length (flat_map f l) = length l
  /\ forall n, firstn n (flat_map f l) = flat_map f (firstn n l).
Proof.
  induction l as [|x l IH]; intros H.
  - split; [reflexivity|]. intros n. now destruct n.
  - destruct IH as [IL IF]; [intros y Hy; apply H; now right|].
    pose proof (H x (or_introl eq_refl)) as Hx.
    simpl. destruct (f x) as [|y [|z t]] eqn:Ex; try discriminate.
    split; [simpl; now rewrite IL|].
    intros [|n]; [reflexivity|]. simpl. now rewrite Ex, IF.
Qed.

Lemma flat_map_agree {A B : Type} (f g : A -> list B) (l : list A) :
  (forall x, In x l -> f x = g x) -> flat_map f l = flat_map g l.
Proof.
  induction l as [|x l IH]; intros H; simpl; [reflexivity|].
  rewrite (H x (or_introl eq_refl)), IH; [reflexivity|].
  intros y Hy. apply H. now right.
Qed.

Lemma tier_directives_each (output_type : string) (coords : dict Q) :
  In output_type output_types -> has_all_dimensions coords ->
  forall p, In p PARAMETER_NAMES ->
    length (match lookup p coords with
            | Some v =>
                match table_bundle p output_type (_get_tier v) with
                | Ok bundle => directive_sentences bundle
                | Raise _ => []
                end
            | None => []
            end) = 1%nat.
Proof.
  intros Ho Hc p Hp. destruct (Hc p Hp) as [v Hv]. rewrite Hv.
  destruct (tier_bundle_annotated p v output_type Hp Ho)
    as [bundle [Et [_ [_ Hl]]]].
  now rewrite Et.
Qed.

Lemma tier_directives_length (output_type : string) (coords : dict Q) :
  In output_type output_types -> has_all_dimensions coords ->
  length (tier_directives output_type coords) = 8%nat
  /\ length (firstn 6 (tier_directives output_type coords)) = 6%nat.
Proof.
  intros Ho Hc. unfold tier_directives.
  destruct (flat_map_singletons _ PARAMETER_NAMES
              (tier_directives_each output_type coords Ho Hc)) as [L _].
  rewrite length_firstn, L. split; reflexivity.
Qed.

Lemma tier_directives_same (output_type : string) (c c' : dict Q)
    (n : nat) :
  In output_type output_types ->
  has_all_dimensions c -> has_all_dimensions c' ->
  same_tiers (firstn n PARAMETER_NAMES) c c' ->
  firstn n (tier_directives output_type c)
  = firstn n (tier_directives output_type c').
Proof.
  intros Ho Hc Hc' Hs. unfold tier_directives.
  destruct (flat_map_singletons _ PARAMETER_NAMES
              (tier_directives_each output_type c Ho Hc)) as [_ F].
  destruct (flat_map_singletons _ PARAMETER_NAMES
              (tier_directives_each output_type c' Ho Hc')) as [_ F'].
  rewrite F, F'. apply flat_map_agree. intros p Hp.
  destruct (Hs p Hp) as [v [v' [Hv [Hv' Et]]]].
  now rewrite Hv, Hv', Et.
Qed.

Lemma collect_extracted_directives (output_type : string) (coords : dict Q)
    (dims : dict (dict pyobj)) :
  In output_type output_types -> has_all_dimensions coords ->
  extract_vocabulary output_type coords = Ok dims ->
  collect_directives dims = Ok (tier_directives output_type coords).
Proof.
  intros Ho Hc E.
  pose proof (extract_vocabulary_bundles output_type coords dims Ho Hc E)
    as Hb.
  unfold collect_directives. rewrite collect_directives_from.
  - rewrite app_nil_l. f_equal. unfold tier_directives.
    apply flat_map_agree. intros p Hp.
    destruct (Hb p Hp) as [v [bundle [Hv [Et [Hd [Es _]]]]]].
    now rewrite Hd, Hv, Et.
  - intros p Hp. destruct (Hb p Hp) as [v [bundle [_ [_ [Hd _]]]]]. eauto.
Qed.

Lemma text_prompt_of_ok (coords : dict Q) (source_label : string)
    (text_vocab : dict pyobj) (sig_moves : list string) (vocab_text : string) :
  has_all_dimensions coords ->
  vocabulary_text text_vocab = Ok vocab_text ->
  exists dims,
    _extract_text_vocabulary coords = Ok dims
    /\ text_prompt_of coords source_label text_vocab sig_moves
       = Ok {| TextPrompt.source := source_label;
               TextPrompt.coordinates := coords;
               TextPrompt.master_directive :=
                 join " " (tier_directives "text_output_mapping" coords);
               TextPrompt.signature_moves :=
                 match sig_moves with
                 | [] => ""
                 | _ :: _ =>
                     "Key techniques: " ++ join "; " (firstn 5 sig_moves)
                     ++ "."
                 end;
               TextPrompt.vocabulary_constraints := vocab_text;
               TextPrompt.full_prompt :=
                 strip ("[Style: " ++ source_label ++ "] "
                        ++ join " "
                             (tier_directives "text_output_mapping" coords)
                        ++ " "
                        ++ match sig_moves with
                           | [] => ""
                           | _ :: _ =>
                               "Key techniques: "
                               ++ join "; " (firstn 5 sig_moves) ++ "."
                           end
                        ++ " " ++ vocab_text);
               TextPrompt.per_dimension_directives := dims |}.
Proof.
  intros Hc Ev.
  assert (Ho : In "text_output_mapping" output_types) by (simpl; tauto).
  destruct (extract_vocabulary_ok "text_output_mapping" coords Ho Hc)
    as [dims [Ed _]].
  exists dims. split; [exact Ed|].
  unfold text_prompt_of, _extract_text_vocabulary in *.
  rewrite Ed. cbn [bind].
  rewrite (collect_extracted_directives _ _ _ Ho Hc Ed). cbn [bind].
  rewrite Ev. reflexivity.
Qed.

Lemma image_prompt_of_ok (coords : dict Q) (source_label : string)
    (img_vocab : dict pyobj) (m : string)
    (all_keywords colors rules : list string) :
  has_all_dimensions coords ->
  get_list img_vocab "keywords" = Ok all_keywords ->
  get_list img_vocab "color_palette" = Ok colors ->
  get_list img_vocab "compositional_rules" = Ok rules ->
  exists dims,
    _extract_image_vocabulary coords = Ok dims
    /\ image_prompt_of coords source_label img_vocab m
       = Ok {| ImagePrompt.source := source_label;
               ImagePrompt.coordinates := coords;
               ImagePrompt.prompt :=
                 join ", "
                   (modifier_part m
                    ++ firstn 8 all_keywords
                    ++ (match colors with
                        | [] => []
                        | _ :: _ =>
                            [("color palette: "
                              ++ join ", " (firstn 4 colors))%string]
                        end)
                    ++ firstn 6
                         (tier_directives "image_output_mapping" coords))%list;
               ImagePrompt.keywords := all_keywords;
               ImagePrompt.color_palette := colors;
               ImagePrompt.compositional_rules := rules;
               ImagePrompt.per_dimension_visuals := dims |}.
Proof.
  intros Hc Ek Eco Er.
  assert (Ho : In "image_output_mapping" output_types) by (simpl; tauto).
  destruct (extract_vocabulary_ok "image_output_mapping" coords Ho Hc)
    as [dims [Ed _]].
  exists dims. split; [exact Ed|].
  unfold image_prompt_of, _extract_image_vocabulary in *.
  rewrite Ed. cbn [bind].
  rewrite (collect_extracted_directives _ _ _ Ho Hc Ed). cbn [bind].
  rewrite Ek, Eco, Er. reflexivity.
Qed.

Ltac prompt_fields :=
  cbn [TextPrompt.source TextPrompt.coordinates TextPrompt.master_directive
       TextPrompt.signature_moves TextPrompt.vocabulary_constraints
       TextPrompt.full_prompt TextPrompt.per_dimension_directives
       ImagePrompt.source ImagePrompt.coordinates ImagePrompt.prompt
       ImagePrompt.keywords ImagePrompt.color_palette
       ImagePrompt.compositional_rules ImagePrompt.per_dimension_visuals].

(** X13.  For raw coordinates that cover the 8 dimensions, given with
    no author and no blend, the master directive of the text prompt is
    the 8 directive sentences of the tiers of the values, one per
    dimension in canonical order, joined by spaces; the text prompt has
    no techniques and no vocabulary constraints, and its full prompt is
    the label [[Style: Custom coordinates]] followed by the master
    directive.  The image prompt is the style modifier, if any, followed
    by the visual directives of the first 6 dimensions only, joined by
    commas; its keywords, colour palette and compositional rules are
    empty. *)
Theorem raw_point_prompts (a : option string) (b : option (dict Q))
    (cc : dict Q) (m : string) :
  truthy_str a = false -> truthy_dict b = false ->
  has_all_dimensions cc ->
  exists rt ri,
    generate_text_prompt a b (Some cc) = Ok rt
    /\ generate_image_prompt a b (Some cc) m = Ok ri
    /\ TextPrompt.master_directive rt
       = join " " (tier_directives "text_output_mapping" cc)
    /\ length (tier_directives "text_output_mapping" cc) = 8%nat
    /\ TextPrompt.signature_moves rt = ""
    /\ TextPrompt.vocabulary_constraints rt = ""
    /\ TextPrompt.full_prompt rt
       = strip ("[Style: Custom coordinates] "
                ++ TextPrompt.master_directive rt ++ "  ")
    /\ ImagePrompt.prompt ri
       = join ", "
           (modifier_part m
            ++ firstn 6 (tier_directives "image_output_mapping" cc))%list
    /\ length (firstn 6 (tier_directives "image_output_mapping" cc)) = 6%nat
    /\ ImagePrompt.keywords ri = []
    /\ ImagePrompt.color_palette ri = []
    /\ ImagePrompt.compositional_rules ri = [].
Proof.
  intros Ha Hb Hc.
  destruct (has_all_dimensions_nonempty cc Hc) as [c0 [cc' Ecc]].
  assert (Hne : cc <> []) by (rewrite Ecc; discriminate).
  rewrite (generate_text_prompt_custom a b cc Ha Hb Hne).
  rewrite (generate_image_prompt_custom a b cc m Ha Hb Hne).
  destruct (text_prompt_of_ok cc "Custom coordinates" [] [] ""
              Hc eq_refl) as [dt [_ Et]].
  destruct (image_prompt_of_ok cc "Custom coordinates"
              [("keywords", VList []); ("color_palette", VList []);
               ("compositional_rules", VList [])] m [] [] []
              Hc eq_refl eq_refl eq_refl) as [di [_ Ei]].
  rewrite Et, Ei. do 2 eexists.
  split; [reflexivity|]. split; [reflexivity|]. prompt_fields.
  split; [reflexivity|].
  split; [apply tier_directives_length; [simpl; tauto | exact Hc]|].
  do 3 (split; [reflexivity|]).
  split; [reflexivity|].
  split; [apply tier_directives_length; [simpl; tauto | exact Hc]|].
  auto.
Qed.

Lemma raw_point_prompts_witness :
  exists rt ri,
    generate_text_prompt None None
      (Some (map (fun p => (p, 1 # 2)) PARAMETER_NAMES)) = Ok rt
    /\ generate_image_prompt None None
         (Some (map (fun p => (p, 1 # 2)) PARAMETER_NAMES)) "etching" = Ok ri
    /\ ImagePrompt.keywords ri = [].
Proof.
  destruct (raw_point_prompts None None
              (map (fun p => (p, 1 # 2)) PARAMETER_NAMES) "etching")
    as [rt [ri [Et [Ei [_ [_ [_ [_ [_ [_ [_ [Hk _]]]]]]]]]]]].
  - reflexivity.
  - reflexivity.
  - apply keys_has_all. reflexivity.
  - exists rt, ri. auto.
Defined.

(** X14.  The composed prompts depend on the tiers of the values only.
    Two raw points whose values fall in the same tier on every dimension
    get the same master directive; two raw points whose values fall in
    the same tier on the first 6 dimensions get the same image prompt,
    whatever their interiority and temporal mode. *)
Theorem prompts_follow_tiers (c c' : dict Q) (m : string) :
  has_all_dimensions c -> has_all_dimensions c' ->
  exists rt rt' ri ri',
    generate_text_prompt None None (Some c) = Ok rt
    /\ generate_text_prompt None None (Some c') = Ok rt'
    /\ generate_image_prompt None None (Some c) m = Ok ri
    /\ generate_image_prompt None None (Some c') m = Ok ri'
    /\ (same_tiers PARAMETER_NAMES c c' ->
        TextPrompt.master_directive rt = TextPrompt.master_directive rt'
        /\ TextPrompt.full_prompt rt = TextPrompt.full_prompt rt')
    /\ (same_tiers (firstn 6 PARAMETER_NAMES) c c' ->
        ImagePrompt.prompt ri = ImagePrompt.prompt ri').
Proof.
  intros Hc Hc'.
  assert (Hne : forall x : dict Q, has_all_dimensions x -> x <> []).
  { intros x Hx. destruct (has_all_dimensions_nonempty x Hx) as [c0 [t E]].
    rewrite E. discriminate. }
  rewrite !(generate_text_prompt_custom None None _ eq_refl eq_refl
              (Hne _ Hc)).
  rewrite !(generate_text_prompt_custom None None _ eq_refl eq_refl
              (Hne _ Hc')).
  rewrite !(generate_image_prompt_custom None None _ m eq_refl eq_refl
              (Hne _ Hc)).
  rewrite !(generate_image_prompt_custom None None _ m eq_refl eq_refl
              (Hne _ Hc')).
  destruct (text_prompt_of_ok c "Custom coordinates" [] [] ""
              Hc eq_refl) as [dt [_ Et]].
  destruct (text_prompt_of_ok c' "Custom coordinates" [] [] ""
              Hc' eq_refl) as [dt' [_ Et']].
  destruct (image_prompt_of_ok c "Custom coordinates"
              [("keywords", VList []); ("color_palette", VList []);
               ("compositional_rules", VList [])] m [] [] []
              Hc eq_refl eq_refl eq_refl) as [di [_ Ei]].
  destruct (image_prompt_of_ok c' "Custom coordinates"
              [("keywords", VList []); ("color_palette", VList []);
               ("compositional_rules", VList [])] m [] [] []
              Hc' eq_refl eq_refl eq_refl) as [di' [_ Ei']].
  rewrite Et, Et', Ei, Ei'. do 4 eexists.
  do 4 (split; [reflexivity|]). prompt_fields.
  assert (Ht : In "text_output_mapping" output_types) by (simpl; tauto).
  assert (Hi : In "image_output_mapping" output_types) by (simpl; tauto).
  split.
  - intros Hs.
    assert (E : tier_directives "text_output_mapping" c
                = tier_directives "text_output_mapping" c').
    { pose proof (tier_directives_same "text_output_mapping" c c' 8
                    Ht Hc Hc' Hs) as E8.
      destruct (tier_directives_length "text_output_mapping" c Ht Hc)
        as [L _].
      destruct (tier_directives_length "text_output_mapping" c' Ht Hc')
        as [L' _].
      rewrite <- (firstn_all (tier_directives "text_output_mapping" c)).
      rewrite <- (firstn_all (tier_directives "text_output_mapping" c')).
      rewrite L, L'. exact E8. }
    rewrite E. split; reflexivity.
  - intros Hs.
    now rewrite (tier_directives_same "image_output_mapping" c c' 6
                   Hi Hc Hc' Hs).
Qed.

Lemma prompts_follow_tiers_witness :
  exists ri ri',
    generate_image_prompt None None
      (Some (map (fun p => (p, 1 # 10)) PARAMETER_NAMES)) "" = Ok ri
    /\ generate_image_prompt None None
         (Some (map (fun p => (p, 1 # 10)) (firstn 6 PARAMETER_NAMES)
                ++ [("interiority", 9 # 10); ("temporal_mode", 1 # 2)])%list)
         "" = Ok ri'
    /\ ImagePrompt.prompt ri = ImagePrompt.prompt ri'.
Proof.
  destruct (prompts_follow_tiers
              (map (fun p => (p, 1 # 10)) PARAMETER_NAMES)
              (map (fun p => (p, 1 # 10)) (firstn 6 PARAMETER_NAMES)
               ++ [("interiority", 9 # 10); ("temporal_mode", 1 # 2)])%list
              "")
    as [rt [rt' [ri [ri' [_ [_ [Ei [Ei' [_ H]]]]]]]]].
  - apply keys_has_all. reflexivity.
  - apply keys_has_all. reflexivity.
  - exists ri, ri'. split; [exact Ei|]. split; [exact Ei'|].
    apply H. intros p Hp. simpl in Hp.
    repeat (destruct Hp as [<-|Hp];
            [exists (1 # 10), (1 # 10); repeat split|]).
    destruct Hp.
Defined.

(* ================================================================== *)
(** * Prompts of a blend and of a catalog author *)
(* ================================================================== *)

Lemma blend_moves_nonempty (normalized : dict Q) :
  normalized <> [] ->
  (forall a, In a (keys normalized) -> known a) ->
  flat_map (fun '(a, w) => slice_to (moves_of a) (n_moves w))
    (by_weight normalized) <> [].
Proof.
  intros Hne Hk.
  destruct (by_weight normalized) as [|[a w] t] eqn:E.
  - exfalso. apply Hne. apply Permutation_nil.
    unfold by_weight in E. rewrite <- E. apply sorted_perm.
  - assert (Ha : known a).
    { apply Hk. apply by_weight_keys. rewrite E. simpl. now left. }
    pose proof (five_moves a Ha) as L5.
    simpl. unfold slice_to.
    assert (Hn : (1 <= n_moves w)%Z) by (unfold n_moves; lia).
    assert (H0 : (0 <=? n_moves w)%Z = true) by (apply Z.leb_le; lia).
    rewrite H0.
    destruct (Z.to_nat (n_moves w)) as [|k] eqn:Ek; [lia|].
    destruct (moves_of a) as [|x l]; [discriminate|].
    simpl. discriminate.
Qed.

Lemma get_list_absent (iv : dict (dict pyobj)) (k : string) :
  ~ In k (keys iv) ->
  get_list (map (fun '(k, b) => (k, VDict b)) iv) k = Ok [].
Proof.
  intros H. unfold get_list. rewrite lookup_map_values.
  assert (E : @lookup (dict pyobj) k iv = None).
  { destruct (lookup k iv) as [b|] eqn:E; [|reflexivity].
    exfalso. apply H. apply lookup_keys. eauto. }
  unfold dict in *. rewrite E. reflexivity.
Qed.

(** X15.  For a blend of catalog authors with non-negative weights and
    a positive total, given with no author, both prompt generators carry
    the blend: source
    label, coordinates and per-dimension extraction are those of
    [interpolate_styles].  The master directive is the 8 tier directives
    of the blended point; the techniques clause is never empty and lists
    the first 5 of the blend's signature moves; there are no vocabulary
    constraints.  The image prompt is the style modifier, if any,
    followed by the visual directives of the first 6 dimensions: the
    contributors' own keywords, palettes and compositional rules are not
    used, and the three lists are empty. *)
Theorem blend_prompts (a : option string) (spec : dict Q)
    (c : option (dict Q)) (m : string) :
  truthy_str a = false ->
  (forall k, In k (keys spec) -> known k) ->
  (forall k w, In (k, w) spec -> 0 <= w) ->
  0 < py_sum (values spec) ->
  exists rb rt ri,
    interpolate_styles spec = Ok rb
    /\ generate_text_prompt a (Some spec) c = Ok rt
    /\ generate_image_prompt a (Some spec) c m = Ok ri
    /\ TextPrompt.source rt = Blend.blend_display rb
    /\ ImagePrompt.source ri = Blend.blend_display rb
    /\ TextPrompt.coordinates rt = Blend.coordinates rb
    /\ ImagePrompt.coordinates ri = Blend.coordinates rb
    /\ TextPrompt.per_dimension_directives rt = Blend.text_vocabulary rb
    /\ ImagePrompt.per_dimension_visuals ri = Blend.image_vocabulary rb
    /\ TextPrompt.master_directive rt
       = join " " (tier_directives "text_output_mapping"
                     (Blend.coordinates rb))
    /\ TextPrompt.signature_moves rt
       = "Key techniques: "
         ++ join "; " (firstn 5 (Blend.signature_moves rb)) ++ "."
    /\ TextPrompt.vocabulary_constraints rt = ""
    /\ ImagePrompt.prompt ri
       = join ", "
           (modifier_part m
            ++ firstn 6 (tier_directives "image_output_mapping"
                           (Blend.coordinates rb)))%list
    /\ ImagePrompt.keywords ri = []
    /\ ImagePrompt.color_palette ri = []
    /\ ImagePrompt.compositional_rules ri = [].
Proof.
  intros Ha Hk _ Hpos.
  assert (Hne : spec <> []).
  { intros ->. unfold py_sum in Hpos. simpl in Hpos. lra. }
  destruct (interpolate_styles_result spec Hk Hpos)
    as [rb [d [e [Er [_ [Kc [_ [_ [_ [_ [Etv [Eiv [Em _]]]]]]]]]]]]].
  pose proof (keys_has_all _ Kc) as Hall.
  assert (Hkn : forall x,
            In x (keys (normalize spec (py_sum (values spec)))) -> known x).
  { intros x Hx. apply Hk. now rewrite normalize_keys in Hx. }
  rewrite (blended_moves_ok _ Hkn) in Em. inversion Em as [Em'].
  assert (Hmoves : Blend.signature_moves rb <> []).
  { rewrite <- Em'. apply blend_moves_nonempty; [|exact Hkn].
    destruct spec; [congruence | discriminate]. }
  assert (Hiv : keys (Blend.image_vocabulary rb) = PARAMETER_NAMES).
  { destruct (extract_vocabulary_ok "image_output_mapping"
                (Blend.coordinates rb)) as [dims [Ed [Kd _]]];
      [simpl; tauto | exact Hall |].
    unfold _extract_image_vocabulary in Eiv. rewrite Ed in Eiv.
    inversion Eiv; subst. exact Kd. }
  assert (Habs : forall k,
            ~ In k PARAMETER_NAMES ->
            get_list (map (fun '(k, b) => (k, VDict b))
                        (Blend.image_vocabulary rb)) k = Ok []).
  { intros k Hn. apply get_list_absent. now rewrite Hiv. }
  destruct (text_prompt_of_ok (Blend.coordinates rb)
              (Blend.blend_display rb) [] (Blend.signature_moves rb) ""
              Hall eq_refl) as [dt [Edt Et]].
  destruct (image_prompt_of_ok (Blend.coordinates rb)
              (Blend.blend_display rb)
              (map (fun '(k, b) => (k, VDict b)) (Blend.image_vocabulary rb))
              m [] [] [] Hall) as [di [Edi Ei]];
    try (apply Habs; simpl; intuition discriminate).
  rewrite Etv in Edt. inversion Edt; subst dt.
  rewrite Eiv in Edi. inversion Edi; subst di.
  exists rb. do 2 eexists.
  split; [exact Er|].
  split; [rewrite (generate_text_prompt_blend a spec c Ha Hne), Er;
          cbn [bind]; exact Et|].
  split; [rewrite (generate_image_prompt_blend a spec c m Ha Hne), Er;
          cbn [bind]; exact Ei|].
  prompt_fields.
  destruct (Blend.signature_moves rb) as [|x l]; [congruence|].
  repeat (split; [reflexivity|]). reflexivity.
Qed.

Lemma blend_prompts_witness :
  exists rt ri,
    generate_text_prompt None (Some [("kafka", 1); ("borges", 3)]) None
    = Ok rt
    /\ generate_image_prompt None (Some [("kafka", 1); ("borges", 3)]) None ""
       = Ok ri
    /\ TextPrompt.vocabulary_constraints rt = ""
    /\ ImagePrompt.keywords ri = [].
Proof.
  destruct (blend_prompts None [("kafka", 1); ("borges", 3)] None "")
    as (rb & rt & ri & _ & Et & Ei & _ & _ & _ & _ & _ & _ & _ & _ & Hv
        & _ & Hk & _).
  - reflexivity.
  - intros k [<-|[<-|[]]]; unfold known; simpl; tauto.
  - intros k w [E|[E|[]]]; inversion E; subst; lra.
  - vm_compute. reflexivity.
  - exists rt, ri. auto.
Defined.

Lemma string_append_assoc (s1 s2 s3 : string) :
  ((s1 ++ s2) ++ s3 = s1 ++ (s2 ++ s3))%string.
Proof.
  induction s1 as [|ch s1 IH]; simpl; [reflexivity | now rewrite IH].
Qed.

Lemma vocabulary_text_full (tv : dict pyobj) (register rhythm : string)
    (forbidden : list string) :
  lookup "register" tv = Some (VStr register) ->
  lookup "paragraph_rhythm" tv = Some (VStr rhythm) ->
  lookup "forbidden" tv = Some (VList forbidden) ->
  vocabulary_text tv
  = Ok ("Register: " ++ register ++ ". "
        ++ "Paragraph rhythm: " ++ rhythm ++ ". "
        ++ "Avoid these words: " ++ join ", " forbidden ++ ". ").
Proof.
  intros Hr Hp Hf. unfold vocabulary_text, contains, getitem.
  destruct tv as [|x tv]; [discriminate|].
  rewrite Hr, Hp, Hf. cbn [bind format_str as_list].
  f_equal. now rewrite !string_append_assoc.
Qed.

Lemma catalog_vocabulary_ok (a : string) :
  known a ->
  exists e, getitem AUTHOR_CATALOG a = Ok e /\ entry_vocabulary_ok e = true.
Proof.
  intros Ha.
  pose proof (over_catalog author_vocabulary_check) as H.
  specialize (H ltac:(vm_compute; reflexivity) a Ha).
  unfold author_vocabulary_check in H.
  destruct (getitem AUTHOR_CATALOG a) as [e|]; [eauto | discriminate].
Qed.

(** X16.  For every catalog author, whatever else is passed, both
    prompt generators succeed with the author's display name and stored
    coordinates.  The master directive is the 8 tier directives of the
    stored coordinates; the techniques clause lists all of the author's
    signature moves; the vocabulary constraints have the three clauses,
    register, paragraph rhythm and words to avoid, from the author's
    text vocabulary.  The image prompt is the style modifier, if any,
    then the first 8 keywords, then a colour-palette clause with the
    first 4 colours, then the visual directives of the first 6
    dimensions; keywords, palette and rules are returned as stored.  A
    non-empty identifier that is not in the catalog is reported as an
    unknown author by both generators. *)
Theorem author_prompts (a : string) (b c : option (dict Q)) (m : string) :
  (known a ->
   exists e rt ri register rhythm forbidden keywords colors rules,
     getitem AUTHOR_CATALOG a = Ok e
     /\ lookup "register" (text_vocabulary e) = Some (VStr register)
     /\ lookup "paragraph_rhythm" (text_vocabulary e) = Some (VStr rhythm)
     /\ lookup "forbidden" (text_vocabulary e) = Some (VList forbidden)
     /\ lookup "keywords" (image_vocabulary e) = Some (VList keywords)
     /\ lookup "color_palette" (image_vocabulary e) = Some (VList colors)
     /\ lookup "compositional_rules" (image_vocabulary e)
        = Some (VList rules)
     /\ generate_text_prompt (Some a) b c = Ok rt
     /\ generate_image_prompt (Some a) b c m = Ok ri
     /\ TextPrompt.source rt = display_name e
     /\ TextPrompt.coordinates rt = coordinates e
     /\ TextPrompt.master_directive rt
        = join " " (tier_directives "text_output_mapping" (coordinates e))
     /\ TextPrompt.signature_moves rt
        = "Key techniques: " ++ join "; " (signature_moves e) ++ "."
     /\ TextPrompt.vocabulary_constraints rt
        = "Register: " ++ register ++ ". "
          ++ "Paragraph rhythm: " ++ rhythm ++ ". "
          ++ "Avoid these words: " ++ join ", " forbidden ++ ". "
     /\ ImagePrompt.source ri = display_name e
     /\ ImagePrompt.coordinates ri = coordinates e
     /\ ImagePrompt.keywords ri = keywords
     /\ ImagePrompt.color_palette ri = colors
     /\ ImagePrompt.compositional_rules ri = rules
     /\ ImagePrompt.prompt ri
        = join ", "
            (modifier_part m
             ++ firstn 8 keywords
             ++ [("color palette: " ++ join ", " (firstn 4 colors))%string]
             ++ firstn 6 (tier_directives "image_output_mapping"
                            (coordinates e)))%list)
  /\ (~ known a -> a <> "" ->
      generate_text_prompt (Some a) b c = Raise (unknown_author a)
      /\ generate_image_prompt (Some a) b c m = Raise (unknown_author a)).
Proof.
  split.
  - intros Ha.
    assert (Hne : a <> "").
    { intros ->. revert Ha. unfold known. vm_compute. intuition discriminate. }
    destruct (get_coordinates_known a Ha) as [e [Hin [Ee Ec]]].
    destruct (catalog_vocabulary_ok a Ha) as [e' [Ee' Hv]].
    rewrite Ee in Ee'. inversion Ee'; subst e'. clear Ee'.
    pose proof (five_moves a Ha) as L5.
    unfold moves_of in L5. rewrite Ee in L5.
    pose proof (keys_has_all _ (entry_keys a e Hin)) as Hall.
    unfold entry_vocabulary_ok in Hv.
    destruct (lookup "register" (text_vocabulary e))
      as [[register| | | |]|] eqn:Hr; try discriminate.
    destruct (lookup "paragraph_rhythm" (text_vocabulary e))
      as [[rhythm| | | |]|] eqn:Hp; try discriminate.
    destruct (lookup "forbidden" (text_vocabulary e))
      as [[| | |forbidden|]|] eqn:Hf; try discriminate.
    destruct (lookup "keywords" (image_vocabulary e))
      as [[| | |keywords|]|] eqn:Hkw; try discriminate.
    destruct (lookup "color_palette" (image_vocabulary e))
      as [[| | |colors|]|] eqn:Hco; try discriminate.
    destruct colors as [|c0 colors]; [discriminate|].
    destruct (lookup "compositional_rules" (image_vocabulary e))
      as [[| | |rules|]|] eqn:Hru; try discriminate.
    destruct (text_prompt_of_ok (coordinates e) (display_name e)
                (text_vocabulary e) (signature_moves e) _ Hall
                (vocabulary_text_full _ _ _ _ Hr Hp Hf)) as [dt [_ Et]].
    destruct (image_prompt_of_ok (coordinates e) (display_name e)
                (image_vocabulary e) m keywords (c0 :: colors) rules Hall)
      as [di [_ Ei]];
      try (unfold get_list; rewrite ?Hkw, ?Hco, ?Hru; reflexivity).
    exists e. do 2 eexists. exists register, rhythm, forbidden, keywords,
      (c0 :: colors), rules.
    do 7 (split; [assumption|]).
    split; [rewrite (generate_text_prompt_author a b c Hne), Ec, Ee;
            cbn [bind]; exact Et|].
    split; [rewrite (generate_image_prompt_author a b c m Hne), Ec, Ee;
            cbn [bind]; exact Ei|].
    prompt_fields.
    assert (E5 : firstn 5 (signature_moves e) = signature_moves e)
      by (rewrite <- L5; apply firstn_all).
    rewrite E5.
    destruct (signature_moves e) as [|x l]; [discriminate|].
    repeat (split; [reflexivity|]). reflexivity.
  - intros Hn Hne.
    rewrite (generate_text_prompt_author a b c Hne).
    rewrite (generate_image_prompt_author a b c m Hne).
    rewrite (get_coordinates_unknown a Hn). split; reflexivity.
Qed.

Lemma author_prompts_witness :
  (exists rt ri,
     generate_text_prompt (Some "kafka") (Some [("borges", 1)]) None = Ok rt
     /\ generate_image_prompt (Some "kafka") (Some [("borges", 1)]) None
          "woodcut" = Ok ri)
  /\ generate_text_prompt (Some "homer") None None
     = Raise (unknown_author "homer").
Proof.
  destruct (author_prompts "kafka" (Some [("borges", 1)]) None "woodcut")
    as [H _].
  destruct (author_prompts "homer" None None "") as [_ H'].
  split.
  - destruct H as [e [rt [ri [r1 [r2 [f [k [co [ru H]]]]]]]]];
      [unfold known; simpl; tauto|].
    exists rt, ri. split; apply H.
  - apply H'; [unfold known; simpl; intuition discriminate | discriminate].
Defined.

(* ================================================================== *)
(** * The perceptual weights *)
(* ================================================================== *)

Lemma reweighted_everywhere :
  forall a b weighted, known a -> known b -> reweighted_at a b weighted = true.
Proof. apply over_catalog_pairs. vm_compute. reflexivity. Qed.

(** X17.  For two catalog authors the perceptual weights change only
    the weighted differences and the two distances.  The weighted report
    has the same names, the same max-contrast axis and gap, and on every
    parameter the same stored values, raw difference and absolute gap as
    the unweighted one: the max-contrast axis ignores the weights.  The
    weighted difference is the product of the difference of the stored
    values with the parameter's weight, rounded to 3 decimals; without
    weights it is the raw difference. *)
Theorem weights_leave_axis (a b : string) :
  known a -> known b ->
  exists ru rw,
    compute_style_distance a b false = Ok ru
    /\ compute_style_distance a b true = Ok rw
    /\ Distance.author_1 rw = Distance.author_1 ru
    /\ Distance.author_2 rw = Distance.author_2 ru
    /\ Distance.max_contrast_axis rw = Distance.max_contrast_axis ru
    /\ Distance.max_contrast_gap rw = Distance.max_contrast_gap ru
    /\ forall p gu,
         lookup p (Distance.per_dimension ru) = Some gu ->
         exists gw w,
           lookup p (Distance.per_dimension rw) = Some gw
           /\ lookup p PERCEPTUAL_WEIGHTS = Some w
           /\ Distance.value_1 gw = Distance.value_1 gu
           /\ Distance.value_2 gw = Distance.value_2 gu
           /\ Distance.raw_difference gw = Distance.raw_difference gu
           /\ Distance.absolute_gap gw = Distance.absolute_gap gu
           /\ Distance.weighted_difference gu == Distance.raw_difference gu
           /\ Distance.weighted_difference gw
              = py_round ((Distance.value_2 gu - Distance.value_1 gu) * w) 3.
Proof.
  intros Ha Hb. pose proof (reweighted_everywhere a b false Ha Hb) as H.
  unfold reweighted_at in H.
  destruct (compute_style_distance a b false) as [ru|]; [|discriminate].
  destruct (compute_style_distance a b true) as [rw|]; [|discriminate].
  unfold report_reweighted in H.
  do 4 (apply andb_true_iff in H; destruct H as [H ?]).
  exists ru, rw. split; [reflexivity|]. split; [reflexivity|].
  split; [now apply String.eqb_eq|]. split; [now apply String.eqb_eq|].
  split; [now apply String.eqb_eq|]. split; [now apply Q_same_eq|].
  intros p gu Hgu.
  match goal with
  | Hall : forallb _ _ = true |- _ =>
      rewrite forallb_forall in Hall;
      specialize (Hall (p, gu) (lookup_In _ _ _ Hgu)); cbn [fst snd] in Hall;
      destruct (lookup p (Distance.per_dimension rw)) as [gw|];
        [|discriminate];
      destruct (lookup p PERCEPTUAL_WEIGHTS) as [w|]; [|discriminate];
      unfold gap_reweighted in Hall;
      do 5 (apply andb_true_iff in Hall; destruct Hall as [Hall ?])
  end.
  exists gw, w. split; [reflexivity|]. split; [reflexivity|].
  split; [now apply Q_same_eq|]. split; [now apply Q_same_eq|].
  split; [now apply Q_same_eq|]. split; [now apply Q_same_eq|].
  split; [now apply Qeq_bool_iff | now apply Q_same_eq].
Qed.

Lemma weights_leave_axis_witness :
  exists ru rw,
    compute_style_distance "didion" "marquez" false = Ok ru
    /\ compute_style_distance "didion" "marquez" true = Ok rw
    /\ Distance.max_contrast_axis rw = Distance.max_contrast_axis ru.
Proof.
  destruct (weights_leave_axis "didion" "marquez")
    as (ru & rw & Eu & Ew & _ & _ & Hx & _).
  - unfold known. simpl. tauto.
  - unfold known. simpl. tauto.
  - exists ru, rw. auto.
Defined.

(* ================================================================== *)
(** * The pairs of the double loop *)
(* ================================================================== *)

Lemma pairs_in_order_members (l : list string) (a b : string) :
  In (a, b) (pairs_in_order l) ->
  exists l1 l2, l = (l1 ++ a :: l2)%list /\ In b l2.
Proof.
  induction l as [|x rest IH]; simpl; [tauto|].
  rewrite in_app_iff, in_map_iff. intros [[y [E Hy]]|H].
  - inversion E; subst. exists [], rest. auto.
  - destruct (IH H) as [l1 [l2 [-> Hb]]].
    exists (x :: l1), l2. auto.
Qed.

Lemma pairs_in_order_In (l : list string) (a b : string) :
  In (a, b) (pairs_in_order l) -> In a l /\ In b l.
Proof.
  intros H. destruct (pairs_in_order_members l a b H) as [l1 [l2 [-> Hb]]].
  split; apply in_app_iff; right; [now left | now right].
Qed.

Lemma NoDup_map_pair (x : string) (l : list string) :
  NoDup l -> NoDup (map (pair x) l).
Proof.
  induction 1 as [|y l Hy Hl IH]; simpl; constructor; [|exact IH].
  rewrite in_map_iff. intros [z [E Hz]]. inversion E; subst. contradiction.
Qed.

Lemma pairs_in_order_NoDup (l : list string) :
  NoDup l -> NoDup (pairs_in_order l).
Proof.
  induction 1 as [|x rest Hx Hr IH]; simpl; [constructor|].
  apply NoDup_app; [now apply NoDup_map_pair | exact IH |].
  intros [a b] Hin Hin'. apply in_map_iff in Hin.
  destruct Hin as [y [E _]]. inversion E; subst.
  apply pairs_in_order_In in Hin'. tauto.
Qed.

Lemma pairs_in_order_length (l : list string) :
  (2 * length (pairs_in_order l) = length l * (length l - 1))%nat.
Proof.
  induction l as [|x rest IH]; [reflexivity|].
  cbn [pairs_in_order]. rewrite length_app, length_map.
  cbn [length]. destruct (length rest) as [|n]; simpl in *; lia.
Qed.

Lemma pairs_in_order_one_way (l : list string) :
  NoDup l ->
  forall a b, In (a, b) (pairs_in_order l) ->
    a <> b /\ ~ In (b, a) (pairs_in_order l).
Proof.
  induction 1 as [|x rest Hx Hr IH]; intros a b; simpl; [tauto|].
  rewrite !in_app_iff, !in_map_iff. intros [[y [E Hy]]|H].
  - inversion E; subst. split; [intros ->; contradiction|].
    intros [[z [E' Hz]]|H'].
    + inversion E'; subst. contradiction.
    + apply pairs_in_order_In in H'. destruct H' as [_ Ha]. contradiction.
  - destruct (pairs_in_order_In _ _ _ H) as [Ha Hb].
    destruct (IH a b H) as [Hne Hn]. split; [exact Hne|].
    intros [[z [E' Hz]]|H']; [|contradiction].
    inversion E'; subst. contradiction.
Qed.

(** X18.  The double loop
    [for i, a1 in enumerate(authors): for a2 in authors[i + 1:]], on any
    list without repetition, visits each two distinct entries exactly
    once, the earlier one first: no pair is visited twice, no entry is
    paired with itself, no pair is visited in both orders, and a list of
    n entries gives n (n - 1) / 2 pairs. *)
Theorem pairs_in_order_each_pair_once (authors : list string) :
  NoDup authors ->
  NoDup (pairs_in_order authors)
  /\ (2 * length (pairs_in_order authors)
      = length authors * (length authors - 1))%nat
  /\ (forall a b, In (a, b) (pairs_in_order authors) ->
        a <> b /\ ~ In (b, a) (pairs_in_order authors)
        /\ exists l1 l2, authors = (l1 ++ a :: l2)%list /\ In b l2)
  /\ (forall a b, In a authors -> In b authors -> a <> b ->
        In (a, b) (pairs_in_order authors)
        \/ In (b, a) (pairs_in_order authors)).
Proof.
  intros Hnd. split; [now apply pairs_in_order_NoDup|].
  split; [apply pairs_in_order_length|]. split.
  - intros a b Hin.
    destruct (pairs_in_order_one_way authors Hnd a b Hin) as [Hne Hn].
    split; [exact Hne|]. split; [exact Hn|].
    now apply pairs_in_order_members.
  - induction Hnd as [|x rest Hx Hr IH]; intros a b Ha Hb Hne; [destruct Ha|].
    simpl. rewrite !in_app_iff, !in_map_iff.
    destruct Ha as [->|Ha], Hb as [->|Hb].
    + congruence.
    + left. left. eauto.
    + right. left. eauto.
    + destruct (IH a b Ha Hb Hne); [left | right]; right; assumption.
Qed.

Lemma pairs_in_order_each_pair_once_witness :
  NoDup (pairs_in_order (keys AUTHOR_CATALOG))
  /\ (In ("kafka", "borges") (pairs_in_order (keys AUTHOR_CATALOG))
      \/ In ("borges", "kafka") (pairs_in_order (keys AUTHOR_CATALOG))).
Proof.
  destruct (pairs_in_order_each_pair_once (keys AUTHOR_CATALOG))
    as [Hn [_ [_ Hc]]].
  - repeat constructor; simpl; intuition discriminate.
  - split; [exact Hn|].
    apply Hc; [simpl; tauto | simpl; tauto | discriminate].
Defined.

(* ================================================================== *)
(** * The two prompt tools *)
(* ================================================================== *)

(** X19.  The prompt tools choose their source by the three strings,
    before anything is parsed.  A non-empty author identifier is passed
    on alone and nothing is parsed.  With no author and a non-empty
    blend string, only that string is parsed: a parse failure is the
    tool's failure, the parsed blend is passed on alone, and a string
    that parses to an empty object leaves the operation without a source
    even when custom coordinates were given.  With only a coordinate
    string, that string is parsed and passed on.  With three empty
    strings the operation fails for want of a source.  The image tool
    passes the style modifier on in every case. *)
Theorem tools_choose_by_string (json_loads : string -> M (dict Q))
    (dumps_text : TextPrompt.Result -> string)
    (dumps_image : ImagePrompt.Result -> string)
    (author_id blend_spec_json custom_coordinates_json style_modifier
     : string) :
  (author_id <> "" ->
   generate_text_style_prompt json_loads dumps_text author_id
     blend_spec_json custom_coordinates_json
   = (result <- generate_text_prompt (Some author_id) None None ;;
      Ok (dumps_text result))
   /\ generate_image_style_prompt json_loads dumps_image author_id
        blend_spec_json custom_coordinates_json style_modifier
      = (result <- generate_image_prompt (Some author_id) None None
                     style_modifier ;;
         Ok (dumps_image result)))
  /\ (blend_spec_json <> "" ->
      generate_text_style_prompt json_loads dumps_text ""
        blend_spec_json custom_coordinates_json
      = (blend_spec <- json_loads blend_spec_json ;;
         result <- generate_text_prompt None (Some blend_spec) None ;;
         Ok (dumps_text result))
      /\ generate_image_style_prompt json_loads dumps_image ""
           blend_spec_json custom_coordinates_json style_modifier
         = (blend_spec <- json_loads blend_spec_json ;;
            result <- generate_image_prompt None (Some blend_spec) None
                        style_modifier ;;
            Ok (dumps_image result)))
  /\ (blend_spec_json <> "" -> json_loads blend_spec_json = Ok [] ->
      generate_text_style_prompt json_loads dumps_text ""
        blend_spec_json custom_coordinates_json = Raise no_source
      /\ generate_image_style_prompt json_loads dumps_image ""
           blend_spec_json custom_coordinates_json style_modifier
         = Raise no_source)
  /\ (custom_coordinates_json <> "" ->
      generate_text_style_prompt json_loads dumps_text "" ""
        custom_coordinates_json
      = (custom_coordinates <- json_loads custom_coordinates_json ;;
         result <- generate_text_prompt None None (Some custom_coordinates) ;;
         Ok (dumps_text result))
      /\ generate_image_style_prompt json_loads dumps_image "" ""
           custom_coordinates_json style_modifier
         = (custom_coordinates <- json_loads custom_coordinates_json ;;
            result <- generate_image_prompt None None
                        (Some custom_coordinates) style_modifier ;;
            Ok (dumps_image result)))
  /\ generate_text_style_prompt json_loads dumps_text "" "" ""
     = Raise no_source
  /\ generate_image_style_prompt json_loads dumps_image "" "" ""
       style_modifier = Raise no_source.
Proof.
  unfold generate_text_style_prompt, generate_image_style_prompt,
    source_kwargs.
  split; [|split; [|split; [|split; [|split]]]].
  - intros Hne. destruct author_id; [congruence|]. split; reflexivity.
  - intros Hne. destruct blend_spec_json as [|ch s]; [congruence|].
    destruct (json_loads (String ch s)); split; reflexivity.
  - intros Hne E. destruct blend_spec_json as [|ch s]; [congruence|].
    rewrite E. split; reflexivity.
  - intros Hne. destruct custom_coordinates_json as [|ch s]; [congruence|].
    destruct (json_loads (String ch s)); split; reflexivity.
  - reflexivity.
  - reflexivity.
Qed.

Lemma tools_choose_by_string_witness :
  generate_text_style_prompt (fun _ => Ok []) (fun _ => "{}") "" "{}"
    "{'interiority': 0.5}" = Raise no_source
  /\ generate_text_style_prompt (fun _ => Raise (ValueError "bad JSON"))
       (fun _ => "{}") "kafka" "{" "{"
     = (result <- generate_text_prompt (Some "kafka") None None ;;
        Ok ((fun _ => "{}") result)).
Proof.
  destruct (tools_choose_by_string (fun _ => Ok []) (fun _ => "{}")
              (fun _ => "{}") "" "{}" "{'interiority': 0.5}" "")
    as [_ [_ [H _]]].
  destruct (tools_choose_by_string
              (fun _ => Raise (ValueError "bad JSON")) (fun _ => "{}")
              (fun _ => "{}") "kafka" "{" "{" "")
    as [H' _].
  split.
  - apply H; [discriminate | reflexivity].
  - apply H'. discriminate.
Defined.
(* ================================================================== *)
(** * The order of the floats *)
(* ================================================================== *)

Lemma lex_compare_Lt (a b : Z * Z * Z) :
  lex_compare a b = Lt <->
  let '(a1, a2, a3) := a in
  let '(b1, b2, b3) := b in
  (a1 < b1 \/ (a1 = b1 /\ (a2 < b2 \/ (a2 = b2 /\ a3 < b3))))%Z.
Proof.
  destruct a as [[a1 a2] a3], b as [[b1 b2] b3]. unfold lex_compare.
  destruct (Z.compare_spec a1 b1); destruct (Z.compare_spec a2 b2);
    destruct (Z.compare_spec a3 b3);
    split; intros Hx; try discriminate; try reflexivity; try lia.
Qed.

Lemma lex_compare_Eq (a b : Z * Z * Z) : lex_compare a b = Eq <-> a = b.
Proof.
  destruct a as [[a1 a2] a3], b as [[b1 b2] b3]. unfold lex_compare.
  destruct (Z.compare_spec a1 b1); destruct (Z.compare_spec a2 b2);
    destruct (Z.compare_spec a3 b3);
    split; intros Hx; try discriminate; try reflexivity;
    try (inversion Hx; lia); subst; reflexivity.
Qed.

Lemma SFcompare_rank (a b : Float64.float) :
  Float64.is_nan a = false -> Float64.is_nan b = false ->
  SFcompare a b = Some (lex_compare (rank a) (rank b)).
Proof.
  intros Ha Hb.
  destruct a as [sa|sa| |sa ma ea], b as [sb|sb| |sb mb eb];
    try discriminate;
    try (destruct sa; destruct sb; reflexivity);
    try (destruct sa; reflexivity); try (destruct sb; reflexivity).
  destruct sa, sb; try reflexivity; unfold SFcompare, rank, lex_compare.
  change (-1 ?= -1)%Z with Eq. cbv iota. rewrite Z.compare_opp.
  destruct (Z.compare_spec ea eb) as [E|E|E].
  - subst. rewrite Z.compare_refl. reflexivity.
  - assert (X : (eb ?= ea)%Z = Gt) by (apply Z.compare_gt_iff; lia).
    now rewrite X.
  - assert (X : (eb ?= ea)%Z = Lt) by (apply Z.compare_lt_iff; lia).
    now rewrite X.
Qed.

Lemma ltb_rank (a b : Float64.float) :
  Float64.is_nan a = false -> Float64.is_nan b = false ->
  Float64.ltb a b = true <-> lex_compare (rank a) (rank b) = Lt.
Proof.
  intros Ha Hb. unfold Float64.ltb, SFltb.
  rewrite (SFcompare_rank a b Ha Hb).
  destruct (lex_compare (rank a) (rank b)); split; congruence.
Qed.

Lemma eqb_rank (a b : Float64.float) :
  Float64.is_nan a = false -> Float64.is_nan b = false ->
  Float64.eqb a b = true <-> rank a = rank b.
Proof.
  intros Ha Hb. unfold Float64.eqb, SFeqb.
  rewrite (SFcompare_rank a b Ha Hb), <- lex_compare_Eq.
  destruct (lex_compare (rank a) (rank b)); split; congruence.
Qed.

Lemma ltb_not_nan (a b : Float64.float) :
  Float64.ltb a b = true ->
  Float64.is_nan a = false /\ Float64.is_nan b = false.
Proof.
  destruct a, b; try discriminate; auto.
Qed.

Lemma eqb_not_nan (a b : Float64.float) :
  Float64.eqb a b = true ->
  Float64.is_nan a = false /\ Float64.is_nan b = false.
Proof.
  destruct a, b; try discriminate; auto.
Qed.

Lemma ltb_asym (a b : Float64.float) :
  Float64.ltb a b = true -> Float64.ltb b a = false.
Proof.
  intros H. destruct (ltb_not_nan a b H) as [Ha Hb].
  apply (ltb_rank a b Ha Hb) in H.
  destruct (Float64.ltb b a) eqn:E; [|reflexivity].
  apply (ltb_rank b a Hb Ha) in E.
  apply lex_compare_Lt in H. apply lex_compare_Lt in E.
  destruct (rank a) as [[a1 a2] a3], (rank b) as [[b1 b2] b3]. lia.
Qed.

Lemma ltb_trans (a b c : Float64.float) :
  Float64.ltb a b = true -> Float64.ltb b c = true -> Float64.ltb a c = true.
Proof.
  intros H1 H2. destruct (ltb_not_nan a b H1) as [Ha Hb].
  destruct (ltb_not_nan b c H2) as [_ Hc].
  apply (ltb_rank a b Ha Hb) in H1. apply (ltb_rank b c Hb Hc) in H2.
  apply (ltb_rank a c Ha Hc).
  apply lex_compare_Lt in H1. apply lex_compare_Lt in H2.
  apply lex_compare_Lt.
  destruct (rank a) as [[a1 a2] a3], (rank b) as [[b1 b2] b3],
    (rank c) as [[c1 c2] c3]. lia.
Qed.

(** Among numbers, "not below" is transitive. *)
Lemma ltb_negative_trans (a b c : Float64.float) :
  Float64.is_nan b = false ->
  Float64.ltb a b = false -> Float64.ltb b c = false ->
  Float64.ltb a c = false.
Proof.
  intros Hb H1 H2. destruct (Float64.ltb a c) eqn:E; [|reflexivity].
  destruct (ltb_not_nan a c E) as [Ha Hc].
  apply (ltb_rank a c Ha Hc) in E. apply lex_compare_Lt in E.
  assert (N1 : lex_compare (rank a) (rank b) <> Lt).
  { intros H. apply (ltb_rank a b Ha Hb) in H. congruence. }
  assert (N2 : lex_compare (rank b) (rank c) <> Lt).
  { intros H. apply (ltb_rank b c Hb Hc) in H. congruence. }
  rewrite lex_compare_Lt in N1, N2.
  destruct (rank a) as [[a1 a2] a3], (rank b) as [[b1 b2] b3],
    (rank c) as [[c1 c2] c3]. lia.
Qed.

Lemma ltb_eqb_left (a b k : Float64.float) :
  Float64.ltb a b = true -> Float64.eqb b k = true ->
  Float64.eqb a k = false.
Proof.
  intros H1 H2. destruct (ltb_not_nan a b H1) as [Ha Hb].
  destruct (eqb_not_nan b k H2) as [_ Hk].
  destruct (Float64.eqb a k) eqn:E; [|reflexivity].
  apply (ltb_rank a b Ha Hb) in H1. apply lex_compare_Lt in H1.
  apply (eqb_rank b k Hb Hk) in H2. apply (eqb_rank a k Ha Hk) in E.
  rewrite <- H2 in E. rewrite E in H1.
  destruct (rank b) as [[b1 b2] b3]. lia.
Qed.

Lemma rank_neg (a : Float64.float) :
  rank (Float64.neg a)
  = let '(a1, a2, a3) := rank a in (- a1, - a2, - a3)%Z.
Proof.
  destruct a as [s|s| |s m e]; try destruct s; simpl; try reflexivity;
    f_equal; f_equal; lia.
Qed.

Lemma is_nan_neg (a : Float64.float) :
  Float64.is_nan (Float64.neg a) = Float64.is_nan a.
Proof. now destruct a. Qed.

Lemma ltb_neg (a b : Float64.float) :
  Float64.ltb (Float64.neg b) (Float64.neg a) = Float64.ltb a b.
Proof.
  destruct (Float64.is_nan a) eqn:Ha.
  { destruct a; try discriminate. now destruct b. }
  destruct (Float64.is_nan b) eqn:Hb.
  { destruct b; try discriminate. now destruct a. }
  assert (Hna : Float64.is_nan (Float64.neg a) = false)
    by now rewrite is_nan_neg.
  assert (Hnb : Float64.is_nan (Float64.neg b) = false)
    by now rewrite is_nan_neg.
  apply eq_true_iff_eq.
  rewrite (ltb_rank _ _ Hnb Hna), (ltb_rank _ _ Ha Hb).
  rewrite !lex_compare_Lt, !rank_neg.
  destruct (rank a) as [[a1 a2] a3], (rank b) as [[b1 b2] b3]. lia.
Qed.

Lemma eqb_neg (a b : Float64.float) :
  Float64.eqb (Float64.neg a) (Float64.neg b) = Float64.eqb a b.
Proof.
  destruct (Float64.is_nan a) eqn:Ha.
  { destruct a; try discriminate. reflexivity. }
  destruct (Float64.is_nan b) eqn:Hb.
  { destruct b; try discriminate. now destruct a. }
  assert (Hna : Float64.is_nan (Float64.neg a) = false)
    by now rewrite is_nan_neg.
  assert (Hnb : Float64.is_nan (Float64.neg b) = false)
    by now rewrite is_nan_neg.
  apply eq_true_iff_eq.
  rewrite (eqb_rank _ _ Hna Hnb), (eqb_rank _ _ Ha Hb), !rank_neg.
  destruct (rank a) as [[a1 a2] a3], (rank b) as [[b1 b2] b3].
  split; intros H; inversion H; f_equal; try f_equal; lia.
Qed.


(* ================================================================== *)
(** * The stable sort on float keys *)
(* ================================================================== *)

Section FloatSort.

Context {A : Type}.
Variable key : A -> Float64.float.

Lemma float_insert_perm (x : A) (l : list A) :
  Permutation (Float64.insert_by key x l) (x :: l).
Proof.
  induction l as [|y l IH]; simpl; [reflexivity|].
  destruct (Float64.ltb (key y) (key x)); [|reflexivity].
  rewrite IH. apply perm_swap.
Qed.

Lemma float_sorted_perm (l : list A) :
  Permutation (Float64.sorted key l) l.
Proof.
  induction l as [|x l IH]; simpl; [reflexivity|].
  rewrite float_insert_perm. now constructor.
Qed.

Lemma float_sorted_In (l : list A) (x : A) :
  In x (Float64.sorted key l) <-> In x l.
Proof.
  split; apply Permutation_in;
    [apply float_sorted_perm | apply Permutation_sym, float_sorted_perm].
Qed.

Lemma float_insert_sorted (x : A) (l : list A) :
  Float64.is_nan (key x) = false ->
  Forall (fun y => Float64.is_nan (key y) = false) l ->
  StronglySorted (key_order key) l ->
  StronglySorted (key_order key) (Float64.insert_by key x l).
Proof.
  intros Hx Hn Hs. induction Hs as [|y l Hs IH Hy]; simpl.
  - constructor; constructor.
  - inversion Hn as [|? ? Hny Hnl]; subst.
    destruct (Float64.ltb (key y) (key x)) eqn:E.
    + constructor; [now apply IH|].
      apply Forall_forall. intros z Hz.
      apply (Permutation_in _ (float_insert_perm x l)) in Hz.
      destruct Hz as [<-|Hz].
      * unfold key_order. now apply ltb_asym.
      * rewrite Forall_forall in Hy. now apply Hy.
    + constructor; [constructor; assumption|].
      constructor; [exact E|].
      apply Forall_forall. intros z Hz.
      rewrite Forall_forall in Hy. specialize (Hy z Hz).
      unfold key_order in *.
      apply (ltb_negative_trans (key z) (key y) (key x) Hny Hy E).
Qed.

Lemma float_sorted_sorted (l : list A) :
  Forall (fun y => Float64.is_nan (key y) = false) l ->
  StronglySorted (key_order key) (Float64.sorted key l).
Proof.
  induction 1 as [|x l Hx Hl IH]; simpl; [constructor|].
  apply float_insert_sorted; [exact Hx | | exact IH].
  apply Forall_forall. intros y Hy.
  apply (proj1 (float_sorted_In _ _)) in Hy.
  rewrite Forall_forall in Hl. now apply Hl.
Qed.

Lemma float_insert_filter (k : Float64.float) (x : A) (l : list A) :
  filter (fun y => Float64.eqb (key y) k) (Float64.insert_by key x l)
  = filter (fun y => Float64.eqb (key y) k) (x :: l).
Proof.
  induction l as [|y l IH]; [reflexivity|]. simpl Float64.insert_by.
  destruct (Float64.ltb (key y) (key x)) eqn:E; [|reflexivity].
  cbn [filter] in *.
  destruct (Float64.eqb (key x) k) eqn:Ex.
  - rewrite (ltb_eqb_left _ _ _ E Ex). exact IH.
  - destruct (Float64.eqb (key y) k); [now rewrite IH | exact IH].
Qed.

(** Entries of equal key keep their order. *)
Lemma float_sorted_stable (k : Float64.float) (l : list A) :
  filter (fun y => Float64.eqb (key y) k) (Float64.sorted key l)
  = filter (fun y => Float64.eqb (key y) k) l.
Proof.
  induction l as [|x l IH]; [reflexivity|]. simpl Float64.sorted.
  rewrite float_insert_filter. cbn [filter]. now rewrite IH.
Qed.

End FloatSort.

Lemma float_by_weight_perm (normalized : dict Float64.float) :
  Permutation (Float64.by_weight normalized) normalized.
Proof. apply float_sorted_perm. Qed.

Lemma float_by_weight_descending (normalized : dict Float64.float) :
  Forall (fun x => Float64.is_nan (snd x) = false) normalized ->
  StronglySorted descending (Float64.by_weight normalized).
Proof.
  intros Hn.
  assert (Hk : Forall (fun y : string * Float64.float =>
                         Float64.is_nan (Float64.neg (snd y)) = false)
                 normalized).
  { eapply Forall_impl; [|exact Hn]. intros x Hx. now rewrite is_nan_neg. }
  pose proof (float_sorted_sorted (fun x => Float64.neg (snd x))
                normalized Hk) as H.
  unfold Float64.by_weight.
  induction H as [|x l Hl IH Hx]; constructor; [exact IH|].
  eapply Forall_impl; [|exact Hx].
  intros y Hy. unfold key_order in Hy. unfold descending.
  now rewrite ltb_neg in Hy.
Qed.

Lemma float_by_weight_stable (normalized : dict Float64.float)
    (w : Float64.float) :
  filter (fun x => Float64.eqb (snd x) w) (Float64.by_weight normalized)
  = filter (fun x => Float64.eqb (snd x) w) normalized.
Proof.
  assert (Hfg : forall x : string * Float64.float,
            Float64.eqb (snd x) w
            = Float64.eqb (Float64.neg (snd x)) (Float64.neg w))
    by (intros x; now rewrite eqb_neg).
  rewrite !(filter_ext _ _ Hfg). unfold Float64.by_weight.
  apply (float_sorted_stable (fun x => Float64.neg (snd x))).
Qed.

(* ================================================================== *)
(** * The steps of the blend in binary64 *)
(* ================================================================== *)

Lemma float_total_not_zero (t v : Float64.float) :
  Float64.leb t Float64.zero = false ->
  Float64.truediv v t = Ok (Float64.div v t).
Proof.
  destruct t as [s|s| |s m e]; try reflexivity.
  destruct s; discriminate.
Qed.

Lemma float_normalize_ok (blend_spec : dict Float64.float)
    (t : Float64.float) :
  Float64.leb t Float64.zero = false ->
  Float64.normalize blend_spec t
  = Ok (map (fun '(k, v) => (k, Float64.div v t)) blend_spec).
Proof.
  intros Ht. induction blend_spec as [|[k v] l IH]; [reflexivity|].
  cbn [Float64.normalize map]. rewrite (float_total_not_zero t v Ht).
  cbn [bind]. now rewrite IH.
Qed.

Lemma float_get_coordinates_known (a : string) :
  known a ->
  exists e c,
    getitem AUTHOR_CATALOG a = Ok e
    /\ Float64.get_coordinates a = Ok c
    /\ keys c = PARAMETER_NAMES.
Proof.
  intros Ha. destruct (get_coordinates_known a Ha) as [e [Hin [Ee Ec]]].
  exists e. eexists. split; [exact Ee|].
  unfold Float64.get_coordinates. rewrite Ec. cbn [bind].
  split; [reflexivity|].
  rewrite (keys_map_values Float64.of_Q). now apply (entry_keys a).
Qed.

Lemma float_get_coordinates_unknown (a : string) :
  ~ known a -> Float64.get_coordinates a = Raise (unknown_author a).
Proof.
  intros Ha. unfold Float64.get_coordinates.
  now rewrite (get_coordinates_unknown a Ha).
Qed.

Lemma float_stored (a p : string) :
  known a -> In p PARAMETER_NAMES ->
  exists c v, Float64.get_coordinates a = Ok c /\ getitem c p = Ok v.
Proof.
  intros Ha Hp.
  destruct (float_get_coordinates_known a Ha) as [e [c [_ [Ec Kc]]]].
  rewrite <- Kc in Hp. apply lookup_keys in Hp. destruct Hp as [v Hv].
  exists c, v. split; [exact Ec|]. unfold getitem. now rewrite Hv.
Qed.

Lemma float_blended_value_ok (normalized : dict Float64.float)
    (p : string) (acc : Float64.float) :
  In p PARAMETER_NAMES ->
  (forall a, In a (keys normalized) -> known a) ->
  exists v,
    for_each normalized
      (fun val '(author_id, weight) =>
         coords <- Float64.get_coordinates author_id ;;
         c <- getitem coords p ;;
         Ok (Float64.add val (Float64.mul c weight)))
      acc = Ok v.
Proof.
  intros Hp Hk.
  destruct (for_each_ok (fun _ => True) normalized
              (fun val '(author_id, weight) =>
                 coords <- Float64.get_coordinates author_id ;;
                 c <- getitem coords p ;;
                 Ok (Float64.add val (Float64.mul c weight)))
              acc I) as [v [E _]].
  - intros s [a w] Hin _.
    destruct (float_stored a p) as [c [v [Ec Ev]]];
      [apply Hk, keys_In; eauto | exact Hp |].
    rewrite Ec. cbn [bind]. rewrite Ev. cbn [bind]. eauto.
  - eauto.
Qed.

Lemma float_blended_coordinates_ok (normalized : dict Float64.float) :
  (forall a, In a (keys normalized) -> known a) ->
  exists blended,
    Float64.blended_coordinates normalized = Ok blended
    /\ keys blended = PARAMETER_NAMES.
Proof.
  intros Hk. unfold Float64.blended_coordinates.
  destruct (build_dict_ok PARAMETER_NAMES
              (fun p =>
                 val <- Float64.blended_value normalized p ;;
                 Ok (Float64.round_to val 4)))
    as [d [E [_ Hd]]].
  - intros p Hp.
    destruct (float_blended_value_ok normalized p Float64.zero Hp Hk)
      as [v Ev].
    unfold Float64.blended_value. rewrite Ev. cbn [bind]. eauto.
  - exists d. split; [exact E | exact (Hd NoDup_PARAMETER_NAMES)].
Qed.

(** The blend stops at the first author of the specification that is
    not in the catalog, with that author's resolution error. *)
Lemma float_blended_coordinates_unknown (l1 l2 : dict Float64.float)
    (a : string) (w : Float64.float) :
  (forall x, In x (keys l1) -> known x) -> ~ known a ->
  Float64.blended_coordinates (l1 ++ (a, w) :: l2)%list
  = Raise (unknown_author a).
Proof.
  intros Hk Ha. unfold Float64.blended_coordinates, PARAMETER_NAMES.
  apply build_dict_raise.
  assert (Eb : Float64.blended_value (l1 ++ (a, w) :: l2)%list
                 "syntactic_density" = Raise (unknown_author a)).
  { unfold Float64.blended_value.
    destruct (float_blended_value_ok l1 "syntactic_density" Float64.zero)
      as [s Es]; [unfold PARAMETER_NAMES; simpl; tauto | exact Hk |].
    eapply for_each_raise; [exact Es|].
    now rewrite (float_get_coordinates_unknown a Ha). }
  now rewrite Eb.
Qed.

Lemma float_tier_bundle_ok (dim_id : string) (v : Float64.float)
    (output_type : string) :
  In dim_id PARAMETER_NAMES -> In output_type output_types ->
  exists r, Float64._interpolate_tier_vocabularies dim_id v output_type = Ok r.
Proof.
  intros Hd Ho.
  unfold Float64._interpolate_tier_vocabularies, Float64._get_tier.
  simpl in Hd, Ho.
  destruct (Float64.ltb v (Float64.of_Q 0.33));
    [|destruct (Float64.ltb v (Float64.of_Q 0.67))];
    repeat (destruct Hd as [<-|Hd]; [|try contradiction]);
    repeat (destruct Ho as [<-|Ho]; [|try contradiction]);
    eexists; reflexivity.
Qed.

Lemma float_extract_vocabulary_ok (output_type : string)
    (coords : dict Float64.float) :
  In output_type output_types -> keys coords = PARAMETER_NAMES ->
  exists dims, Float64.extract_vocabulary output_type coords = Ok dims.
Proof.
  intros Ho Hk. unfold Float64.extract_vocabulary.
  destruct (build_dict_ok PARAMETER_NAMES
              (fun dim_id =>
                 v <- getitem coords dim_id ;;
                 Float64._interpolate_tier_vocabularies dim_id v output_type))
    as [d [E _]]; [|eauto].
  intros p Hp.
  assert (Hp' : In p (keys coords)) by now rewrite Hk.
  apply lookup_keys in Hp'. destruct Hp' as [v Hv].
  unfold getitem. rewrite Hv. cbn [bind].
  now apply float_tier_bundle_ok.
Qed.

(* ================================================================== *)
(** * Which failures a blend in binary64 can have *)
(* ================================================================== *)

Lemma ok_or_arithmetic_bind {A B : Type} (P : A -> Prop) (Q : B -> Prop)
    (m : M A) (k : A -> M B) :
  ok_or_arithmetic P m ->
  (forall a, P a -> ok_or_arithmetic Q (k a)) ->
  ok_or_arithmetic Q (bind m k).
Proof.
  destruct m as [a|e]; simpl; intros Hm Hk; [now apply Hk | exact Hm].
Qed.

Lemma ok_or_arithmetic_for_each {A S : Type} (P : S -> Prop) (l : list A)
    (body : S -> A -> M S) (acc : S) :
  P acc ->
  (forall s x, In x l -> P s -> ok_or_arithmetic P (body s x)) ->
  ok_or_arithmetic P (for_each l body acc).
Proof.
  revert acc. induction l as [|x l IH]; intros acc Hacc Hb; simpl.
  - exact Hacc.
  - apply (ok_or_arithmetic_bind P P).
    + apply Hb; [now left | exact Hacc].
    + intros s Hs. apply IH; [exact Hs|].
      intros s' y Hy. apply Hb. now right.
Qed.

Lemma binary_round_aux_not_negative (m e : Z) (l : location) :
  not_negative (binary_round_aux Float64.prec Float64.emax false m e l).
Proof.
  unfold binary_round_aux.
  destruct (shr_fexp Float64.prec Float64.emax m e l) as [mrs e'].
  destruct (shr_fexp Float64.prec Float64.emax _ e' loc_Exact)
    as [mrs'' e''].
  destruct (shr_m mrs''); try exact I.
  destruct (Z.leb e'' (Float64.emax - Float64.prec)); exact I.
Qed.

Lemma square_not_negative (x y : Float64.float) :
  Float64.square x = Ok y -> not_negative y.
Proof.
  unfold Float64.square.
  destruct (Float64.is_finite x
            && negb (Float64.is_finite (Float64.mul x x)));
    [discriminate|].
  intros E. inversion E; subst y. clear E.
  destruct x as [s|s| |s m e]; try (destruct s; exact I); try exact I.
  unfold Float64.mul, SFmul.
  replace (xorb s s) with false by (now destruct s).
  apply binary_round_aux_not_negative.
Qed.

Lemma square_ok_or_arithmetic (x : Float64.float) :
  ok_or_arithmetic not_negative (Float64.square x).
Proof.
  destruct (Float64.square x) as [y|e] eqn:E; simpl.
  - now apply (square_not_negative x).
  - unfold Float64.square in E.
    destruct (Float64.is_finite x
              && negb (Float64.is_finite (Float64.mul x x)));
      inversion E. left. eauto.
Qed.

Lemma add_not_negative (x y : Float64.float) :
  not_negative x -> not_negative y -> not_negative (Float64.add x y).
Proof.
  destruct x as [sx|sx| |sx mx ex], y as [sy|sy| |sy my ey];
    try (destruct sx; try contradiction);
    try (destruct sy; try contradiction);
    intros _ _; try exact I.
  unfold Float64.add, SFadd, cond_Zopp, binary_normalize.
  set (a := fst (shl_align mx ex (Z.min ex ey))).
  set (b := fst (shl_align my ey (Z.min ex ey))).
  change (Z.pos a + Z.pos b)%Z with (Z.pos (a + b)).
  unfold binary_round.
  destruct (shl_align (a + b) (Z.min ex ey) _) as [mz ez].
  apply binary_round_aux_not_negative.
Qed.

Lemma left_sum_not_negative (l : list Float64.float) :
  Forall not_negative l -> not_negative (Float64.left_sum l).
Proof.
  unfold Float64.left_sum.
  assert (H : forall acc, not_negative acc -> Forall not_negative l ->
                          not_negative (fold_left Float64.add l acc)).
  { induction l as [|x l IH]; intros acc Hacc Hl; simpl; [exact Hacc|].
    inversion Hl; subst. apply IH; [now apply add_not_negative | assumption]. }
  apply H. exact I.
Qed.

Lemma math_sqrt_not_negative (x : Float64.float) :
  not_negative x -> exists y, Float64.math_sqrt x = Ok y.
Proof.
  destruct x as [s|s| |s m e]; try destruct s; simpl;
    intros H; try contradiction; eauto.
Qed.

Lemma round_int_ok_or_arithmetic (x : Float64.float) :
  ok_or_arithmetic (fun _ => True) (Float64.round_int x).
Proof.
  destruct x as [s|s| |s m e]; simpl; auto; unfold arithmetic_error; eauto.
Qed.

Section SumOfTerms.

Variable py_sum : list Float64.float -> Float64.float.
Hypothesis py_sum_not_negative :
  forall l, Forall not_negative l -> not_negative (py_sum l).

Lemma squared_gaps_ok_or_arithmetic (blended coords : dict Float64.float) :
  keys blended = PARAMETER_NAMES -> keys coords = PARAMETER_NAMES ->
  ok_or_arithmetic (Forall not_negative)
    (Float64.squared_gaps blended coords).
Proof.
  intros Kb Kc. unfold Float64.squared_gaps.
  apply ok_or_arithmetic_for_each; [constructor|].
  intros terms p Hp Ht.
  assert (Hb : In p (keys blended)) by now rewrite Kb.
  assert (Hc : In p (keys coords)) by now rewrite Kc.
  apply lookup_keys in Hb, Hc. destruct Hb as [b Hb], Hc as [c Hc].
  unfold getitem. rewrite Hb, Hc. cbn [bind].
  apply (ok_or_arithmetic_bind not_negative); [apply square_ok_or_arithmetic|].
  intros s Hs. simpl. apply Forall_app. split; [exact Ht|].
  constructor; [exact Hs | constructor].
Qed.

Lemma nearest_step_ok_or_arithmetic (blended : dict Float64.float)
    (acc : Float64.float * option string) (aid : string) :
  keys blended = PARAMETER_NAMES -> known aid -> scan_names_known acc ->
  ok_or_arithmetic scan_names_known
    (Float64.nearest_step py_sum blended acc aid).
Proof.
  intros Kb Ha Hacc. destruct acc as [min_dist nearest].
  unfold Float64.nearest_step.
  destruct (float_get_coordinates_known aid Ha) as [e [c [_ [Ec Kc]]]].
  rewrite Ec. cbn [bind].
  apply (ok_or_arithmetic_bind (Forall not_negative));
    [now apply squared_gaps_ok_or_arithmetic|].
  intros terms Ht.
  destruct (math_sqrt_not_negative (py_sum terms)) as [d Ed];
    [now apply py_sum_not_negative|].
  rewrite Ed. cbn [bind].
  destruct (Float64.ltb d min_dist); simpl; [exact Ha | exact Hacc].
Qed.

Lemma nearest_scan_ok_or_arithmetic (blended : dict Float64.float) :
  keys blended = PARAMETER_NAMES ->
  ok_or_arithmetic scan_names_known (Float64.nearest_scan py_sum blended).
Proof.
  intros Kb. unfold Float64.nearest_scan.
  apply ok_or_arithmetic_for_each; [exact I|].
  intros s aid Ha Hs. now apply nearest_step_ok_or_arithmetic.
Qed.

Lemma float_blended_moves_ok_or_arithmetic
    (normalized : dict Float64.float) :
  (forall a, In a (keys normalized) -> known a) ->
  ok_or_arithmetic (fun _ => True) (Float64.blended_moves normalized).
Proof.
  intros Hk. unfold Float64.blended_moves.
  apply ok_or_arithmetic_for_each; [exact I|].
  intros moves [a w] Hin _.
  assert (Ha : known a).
  { apply Hk. apply keys_In. exists w.
    apply (Permutation_in _ (float_by_weight_perm normalized)). exact Hin. }
  destruct (get_coordinates_known a Ha) as [e [_ [Ee _]]].
  rewrite Ee. cbn [bind]. unfold Float64.n_moves.
  apply (ok_or_arithmetic_bind (fun _ => True));
    [|intros n _; exact I].
  apply (ok_or_arithmetic_bind (fun _ => True));
    [apply round_int_ok_or_arithmetic | intros k _; exact I].
Qed.

Lemma float_blend_display_ok_or_arithmetic
    (normalized : dict Float64.float) :
  (forall a, In a (keys normalized) -> known a) ->
  ok_or_arithmetic (fun _ => True) (Float64.blend_display_of normalized).
Proof.
  intros Hk. unfold Float64.blend_display_of.
  apply (ok_or_arithmetic_bind (fun _ => True)); [|intros parts _; exact I].
  apply ok_or_arithmetic_for_each; [exact I|].
  intros parts [a w] Hin _.
  assert (Ha : known a).
  { apply Hk. apply keys_In. exists w.
    apply (Permutation_in _ (float_by_weight_perm normalized)). exact Hin. }
  apply (ok_or_arithmetic_bind (fun _ => True));
    [apply round_int_ok_or_arithmetic|].
  intros k _. destruct (get_coordinates_known a Ha) as [e [_ [Ee _]]].
  rewrite Ee. exact I.
Qed.

Lemma blend_normalized_ok_or_arithmetic (normalized : dict Float64.float) :
  (forall a, In a (keys normalized) -> known a) ->
  ok_or_arithmetic (fun _ => True)
    (Float64.blend_normalized py_sum normalized).
Proof.
  intros Hk. unfold Float64.blend_normalized.
  destruct (float_blended_coordinates_ok normalized Hk)
    as [blended [Eb Kb]].
  rewrite Eb. cbn [bind].
  apply (ok_or_arithmetic_bind scan_names_known);
    [now apply nearest_scan_ok_or_arithmetic|].
  intros [min_dist nearest] Hn.
  destruct (float_extract_vocabulary_ok "text_output_mapping" blended)
    as [tv Et]; [simpl; tauto | exact Kb |].
  destruct (float_extract_vocabulary_ok "image_output_mapping" blended)
    as [iv Ei]; [simpl; tauto | exact Kb |].
  unfold Float64._extract_text_vocabulary, Float64._extract_image_vocabulary.
  rewrite Et, Ei. cbn [bind].
  apply (ok_or_arithmetic_bind (fun _ => True));
    [now apply float_blended_moves_ok_or_arithmetic|].
  intros moves _.
  apply (ok_or_arithmetic_bind (fun _ => True));
    [now apply float_blend_display_ok_or_arithmetic|].
  intros display _.
  destruct nearest as [aid|]; [|simpl; unfold arithmetic_error; tauto].
  unfold scan_names_known in Hn. simpl in Hn.
  destruct (get_coordinates_known aid Hn) as [e [_ [Ee _]]].
  rewrite Ee. exact I.
Qed.

End SumOfTerms.

(* ================================================================== *)
(** * The blend in binary64: its failures and its signature moves *)
(* ================================================================== *)

Lemma float_interpolate_styles_inv
    (py_sum : list Float64.float -> Float64.float)
    (blend_spec : dict Float64.float) (r : Float64.Blend.Result) :
  Float64.interpolate_styles py_sum blend_spec = Ok r ->
  blend_spec <> []
  /\ Float64.leb (py_sum (values blend_spec)) Float64.zero = false
  /\ exists normalized,
       Float64.normalize blend_spec (py_sum (values blend_spec))
       = Ok normalized
       /\ Float64.blend_normalized py_sum normalized = Ok r.
Proof.
  unfold Float64.interpolate_styles.
  destruct blend_spec as [|x l]; [discriminate|]. cbn [is_empty].
  destruct (Float64.leb (py_sum (values (x :: l))) Float64.zero);
    [discriminate|].
  cbv zeta. intros H. apply bind_Ok in H. destruct H as [n [En Hr]].
  split; [discriminate|]. split; [reflexivity|]. eauto.
Qed.

Lemma float_blend_normalized_moves
    (py_sum : list Float64.float -> Float64.float)
    (normalized : dict Float64.float) (r : Float64.Blend.Result) :
  Float64.blend_normalized py_sum normalized = Ok r ->
  Float64.blended_moves normalized = Ok (Float64.Blend.signature_moves r).
Proof.
  unfold Float64.blend_normalized. intros H.
  apply bind_Ok in H. destruct H as [blended [_ H]].
  apply bind_Ok in H. destruct H as [[min_dist nearest] [_ H]].
  apply bind_Ok in H. destruct H as [text_output [_ H]].
  apply bind_Ok in H. destruct H as [image_output [_ H]].
  apply bind_Ok in H. destruct H as [moves [Em H]].
  apply bind_Ok in H. destruct H as [display [_ H]].
  destruct nearest as [aid|]; [|discriminate].
  apply bind_Ok in H. destruct H as [entry [_ H]].
  inversion H; subst r. exact Em.
Qed.

Lemma round_int_not_nan (w five : Float64.float) (k : Z) :
  Float64.round_int (Float64.mul w five) = Ok k ->
  Float64.is_nan w = false.
Proof. destruct w; try reflexivity. discriminate. Qed.

(** The loop over the ordered contributors appends one run of moves for
    each of them. *)
Lemma float_moves_loop (order : dict Float64.float)
    (acc moves : list string) :
  for_each order
    (fun moves '(author_id, weight) =>
       entry <- getitem AUTHOR_CATALOG author_id ;;
       n <- Float64.n_moves weight ;;
       Ok (moves ++ slice_to (signature_moves entry) n)%list)
    acc = Ok moves ->
  exists runs,
    Forall2 top_moves_of order runs /\ moves = (acc ++ concat runs)%list.
Proof.
  revert acc. induction order as [|[a w] order IH]; intros acc H.
  - inversion H; subst. exists []. split; [constructor|].
    simpl. now rewrite app_nil_r.
  - cbn [for_each] in H. apply bind_Ok in H. destruct H as [acc' [Eb H]].
    apply bind_Ok in Eb. destruct Eb as [entry [Ee Eb]].
    apply bind_Ok in Eb. destruct Eb as [n [En Eb]].
    inversion Eb; subst acc'. clear Eb.
    unfold Float64.n_moves in En.
    apply bind_Ok in En. destruct En as [k [Ek En]].
    inversion En; subst n. clear En.
    destruct (IH _ H) as [runs [Hr ->]].
    exists (firstn (Z.to_nat (Z.max 1 k)) (signature_moves entry) :: runs).
    split.
    + constructor; [|exact Hr]. exists entry, k. auto.
    + unfold slice_to. destruct (Z.leb_spec 0 (Z.max 1 k)); [|lia].
      simpl. now rewrite <- app_assoc.
Qed.

Lemma float_blended_moves_total (normalized : dict Float64.float) :
  (forall a, In a (keys normalized) -> known a) ->
  (forall w, In w (values normalized) ->
             Float64.is_finite (Float64.mul w (Float64.of_Z 5)) = true) ->
  exists moves, Float64.blended_moves normalized = Ok moves.
Proof.
  intros Hk Hf. unfold Float64.blended_moves.
  destruct (for_each_ok (fun _ : list string => True)
              (Float64.by_weight normalized)
              (fun moves '(author_id, weight) =>
                 entry <- getitem AUTHOR_CATALOG author_id ;;
                 n <- Float64.n_moves weight ;;
                 Ok (moves ++ slice_to (signature_moves entry) n)%list)
              [] I) as [moves [E _]]; [|eauto].
  intros s [a w] Hin _.
  apply (Permutation_in _ (float_by_weight_perm normalized)) in Hin.
  destruct (get_coordinates_known a) as [e [_ [Ee _]]];
    [apply Hk, keys_In; eauto|].
  rewrite Ee. cbn [bind]. unfold Float64.n_moves.
  assert (Hw : Float64.is_finite (Float64.mul w (Float64.of_Z 5)) = true).
  { apply Hf. unfold values. apply in_map_iff. exists (a, w). auto. }
  destruct (Float64.mul w (Float64.of_Z 5)) as [s'|s'| |s' m' e'];
    try discriminate; simpl; eauto.
Qed.

(** C5 as the code has it.  The checks of a blend are made in a fixed
    order, whatever the built-in [sum] computes: an empty specification
    is refused first, with the message of the code; a non-empty one
    whose weight sum compares [<= 0] is refused next, whatever its
    identifiers; and a specification that passes both checks and names
    an author outside the catalog fails with the identifier-resolution
    error of the first such author in the order of the specification.
    Each of these outcomes is the exception alone. *)
Theorem blend_failures (py_sum : list Float64.float -> Float64.float) :
  Float64.interpolate_styles py_sum []
  = Raise (ValueError "blend_spec must contain at least one author")
  /\ (forall blend_spec,
        blend_spec <> [] ->
        Float64.leb (py_sum (values blend_spec)) Float64.zero = true ->
        Float64.interpolate_styles py_sum blend_spec
        = Raise (ValueError "Weights must sum to a positive value"))
  /\ (forall blend_spec a,
        Float64.leb (py_sum (values blend_spec)) Float64.zero = false ->
        first_unknown_in a blend_spec ->
        Float64.get_coordinates a = Raise (unknown_author a)
        /\ Float64.interpolate_styles py_sum blend_spec
           = Raise (unknown_author a))
  /\ (forall blend_spec : dict Float64.float,
        (exists a, In a (keys blend_spec) /\ ~ known a) ->
        exists a, first_unknown_in a blend_spec).
Proof.
  split; [reflexivity|]. split; [|split].
  - intros blend_spec Hne Hsum. unfold Float64.interpolate_styles.
    destruct blend_spec; [congruence|]. cbn [is_empty]. now rewrite Hsum.
  - intros blend_spec a Hsum [before [w [after [-> [Hk Ha]]]]].
    split; [now apply float_get_coordinates_unknown|].
    unfold Float64.interpolate_styles.
    replace (is_empty (before ++ (a, w) :: after)%list) with false
      by (destruct before; reflexivity).
    rewrite Hsum. cbv zeta.
    rewrite (float_normalize_ok _ _ Hsum). cbn [bind].
    unfold Float64.blend_normalized.
    rewrite map_app. cbn [map].
    rewrite (float_blended_coordinates_unknown _ _ a); [reflexivity| |exact Ha].
    intros x Hx. apply Hk. unfold keys in *. rewrite map_map in Hx.
    erewrite map_ext; [exact Hx|]. now intros [k v].
  - intros blend_spec. induction blend_spec as [|[a w] l IH];
      intros [x [Hx Hn]]; [destruct Hx|].
    destruct (in_dec string_dec a (keys AUTHOR_CATALOG)) as [Ha|Ha].
    + destruct IH as [a' [before [w' [after [-> [H1 H2]]]]]].
      { exists x. split; [|exact Hn].
        destruct Hx as [<-|Hx]; [contradiction | exact Hx]. }
      exists a', ((a, w) :: before), w', after. split; [reflexivity|].
      split; [|exact H2]. intros y [<-|Hy]; [exact Ha | now apply H1].
    + exists a, [], w, l. split; [reflexivity|].
      split; [intros y [] | exact Ha].
Qed.

Lemma blend_failures_witness :
  Float64.interpolate_styles Float64.left_sum
    [("kafka", Float64.of_Q 1); ("borges", Float64.of_Q (-1))]
  = Raise (ValueError "Weights must sum to a positive value")
  /\ Float64.interpolate_styles Float64.left_sum
       [("hemingway", Float64.of_Q (10 ^ 16)); ("borges", Float64.of_Q 1);
        ("kafka", Float64.of_Q (- (10 ^ 16)))]
     = Raise (ValueError "Weights must sum to a positive value")
  /\ Float64.interpolate_styles Float64.left_sum
       [("kafka", Float64.of_Q 1); ("nobody", Float64.of_Q 1);
        ("borges", Float64.of_Q 1); ("no one", Float64.of_Q 1)]
     = Raise (unknown_author "nobody").
Proof.
  split; [|split].
  - apply (proj1 (proj2 (blend_failures Float64.left_sum)));
      [discriminate | vm_compute; reflexivity].
  - apply (proj1 (proj2 (blend_failures Float64.left_sum)));
      [discriminate | vm_compute; reflexivity].
  - apply (proj1 (proj2 (proj2 (blend_failures Float64.left_sum)))).
    + vm_compute. reflexivity.
    + exists [("kafka", Float64.of_Q 1)], (Float64.of_Q 1),
        [("borges", Float64.of_Q 1); ("no one", Float64.of_Q 1)].
      split; [reflexivity|]. split.
      * intros x [<-|[]]. unfold known. simpl. tauto.
      * unfold known. simpl. intuition discriminate.
Defined.

(** C5 as stated fails.  A specification that names an unknown author
    and whose weights sum to zero is refused for its weights, not for
    the identifier; and the two messages of the code are not the quoted
    ones. *)
Lemma unknown_identifier_with_zero_total :
  In "nobody" (keys [("nobody", Float64.zero)])
  /\ Float64.get_coordinates "nobody" = Raise (unknown_author "nobody")
  /\ Float64.interpolate_styles Float64.left_sum [("nobody", Float64.zero)]
     = Raise (ValueError "Weights must sum to a positive value")
  /\ ValueError "Weights must sum to a positive value"
     <> unknown_author "nobody"
  /\ Float64.interpolate_styles Float64.left_sum []
     = Raise (ValueError "blend_spec must contain at least one author")
  /\ "blend_spec must contain at least one author"%string
     <> "must contain at least one entry"%string
  /\ "Weights must sum to a positive value"%string
     <> "weights must sum to a positive value"%string.
Proof.
  split; [simpl; tauto|]. split; [reflexivity|].
  split; [vm_compute; reflexivity|].
  split; [vm_compute; discriminate|].
  split; [reflexivity|]. split; discriminate.
Qed.

(** C7.  The synthesized signature moves of a blend, in binary64 and
    whatever the built-in [sum] computes: the contributors, with their
    normalized weights (each weight divided by the total), are put in
    descending order of weight, contributors of equal weight keeping the
    order of the blend specification; each gives its first
    [max(1, round(weight * 5))] stored moves, the product and its
    rounding being those of floats; and these runs are concatenated in
    that order, nothing being removed.  The loop gives such a list
    whenever the contributors are catalog authors and each product
    [weight * 5] is finite. *)
Theorem signature_move_synthesis
    (py_sum : list Float64.float -> Float64.float) :
  (forall blend_spec r,
     Float64.interpolate_styles py_sum blend_spec = Ok r ->
     let total_weight := py_sum (values blend_spec) in
     let normalized :=
       map (fun '(k, v) => (k, Float64.div v total_weight)) blend_spec in
     exists order runs,
       Permutation order normalized
       /\ StronglySorted descending order
       /\ (forall w,
             filter (fun x => Float64.eqb (snd x) w) order
             = filter (fun x => Float64.eqb (snd x) w) normalized)
       /\ Forall2 top_moves_of order runs
       /\ Float64.Blend.signature_moves r = concat runs)
  /\ (forall normalized,
        (forall a, In a (keys normalized) -> known a) ->
        (forall w, In w (values normalized) ->
           Float64.is_finite (Float64.mul w (Float64.of_Z 5)) = true) ->
        exists moves, Float64.blended_moves normalized = Ok moves).
Proof.
  split; [|exact float_blended_moves_total].
  intros blend_spec r Er total_weight normalized.
  destruct (float_interpolate_styles_inv py_sum blend_spec r Er)
    as [_ [Ht [n [En Eb]]]].
  fold total_weight in Ht, En.
  rewrite (float_normalize_ok blend_spec total_weight Ht) in En.
  inversion En; subst n. clear En. fold normalized in Eb.
  apply float_blend_normalized_moves in Eb.
  unfold Float64.blended_moves in Eb.
  destruct (float_moves_loop _ _ _ Eb) as [runs [Hr Em]].
  exists (Float64.by_weight normalized), runs.
  split; [apply float_by_weight_perm|].
  split; [|split; [intros w; apply float_by_weight_stable|
                   split; [exact Hr | exact Em]]].
  apply float_by_weight_descending.
  apply (Permutation_Forall (float_by_weight_perm normalized)).
  clear Em Eb. induction Hr as [|x run order runs' Hx Hr IH];
    constructor; [|exact IH].
  destruct Hx as [entry [k [_ [Ek _]]]].
  exact (round_int_not_nan (snd x) (Float64.of_Z 5) k Ek).
Qed.

Lemma signature_move_synthesis_witness :
  exists r order runs,
    Float64.interpolate_styles Float64.left_sum
      [("kafka", Float64.of_Q 0.2); ("borges", Float64.of_Q 0.7);
       ("hemingway", Float64.of_Q 0.9)] = Ok r
    /\ StronglySorted descending order
    /\ Forall2 top_moves_of order runs
    /\ Float64.Blend.signature_moves r = concat runs
    /\ length (Float64.Blend.signature_moves r) = 6%nat.
Proof.
  destruct (Float64.interpolate_styles Float64.left_sum
              [("kafka", Float64.of_Q 0.2); ("borges", Float64.of_Q 0.7);
               ("hemingway", Float64.of_Q 0.9)]) as [r|e] eqn:E;
    [|vm_compute in E; discriminate].
  destruct (proj1 (signature_move_synthesis Float64.left_sum) _ r E)
    as [order [runs [_ [Hs [_ [Hr Em]]]]]].
  exists r, order, runs.
  split; [reflexivity|]. split; [exact Hs|]. split; [exact Hr|].
  split; [exact Em|].
  vm_compute in E. inversion E. reflexivity.
Defined.

(** C10 as the code has it.  The signs of the weights are never
    examined: a blend of catalog authors whose weight sum does not
    compare [<= 0] is never refused.  It succeeds, or a step of the
    float arithmetic fails on a normalized weight that is infinite or
    not a number, on a square out of range, or on the lookup of a
    nearest author that was never set.  With a negative weight it can
    succeed with a blended coordinate below every input and below 0. *)
Theorem negative_weights_accepted :
  (forall py_sum : list Float64.float -> Float64.float,
     (forall l, Forall not_negative l -> not_negative (py_sum l)) ->
     forall blend_spec,
       blend_spec <> [] ->
       (forall a, In a (keys blend_spec) -> known a) ->
       Float64.leb (py_sum (values blend_spec)) Float64.zero = false ->
       (exists r, Float64.interpolate_styles py_sum blend_spec = Ok r)
       \/ (exists e,
             Float64.interpolate_styles py_sum blend_spec = Raise e
             /\ arithmetic_error e))
  /\ (exists blend_spec r b,
        (forall a, In a (keys blend_spec) -> known a)
        /\ Float64.leb (Float64.left_sum (values blend_spec)) Float64.zero
           = false
        /\ Exists (fun w => Float64.ltb w Float64.zero = true)
             (values blend_spec)
        /\ Float64.interpolate_styles Float64.left_sum blend_spec = Ok r
        /\ lookup "syntactic_density" (Float64.Blend.coordinates r) = Some b
        /\ Float64.ltb b Float64.zero = true
        /\ Forall (fun a =>
                     exists c v,
                       Float64.get_coordinates a = Ok c
                       /\ lookup "syntactic_density" c = Some v
                       /\ Float64.ltb b v = true)
             (keys blend_spec)).
Proof.
  split.
  - intros py_sum Hsum blend_spec Hne Hk Ht.
    assert (H : ok_or_arithmetic (fun _ => True)
                  (Float64.interpolate_styles py_sum blend_spec)).
    { unfold Float64.interpolate_styles.
      destruct blend_spec as [|x l]; [congruence|]. cbn [is_empty].
      rewrite Ht. cbv zeta.
      rewrite (float_normalize_ok _ _ Ht). cbn [bind].
      apply (blend_normalized_ok_or_arithmetic py_sum Hsum).
      intros a Ha. apply Hk. unfold keys in *. rewrite map_map in Ha.
      erewrite map_ext; [exact Ha|]. now intros [k v]. }
    destruct (Float64.interpolate_styles py_sum blend_spec) as [r|e];
      [left; eauto | right; eauto].
  - exists [("hemingway", Float64.of_Q 2); ("de_sade", Float64.of_Q (-1))].
    eexists. exists (Float64.of_Q (- (3 # 4))).
    split; [intros a [<-|[<-|[]]]; unfold known; simpl; tauto|].
    split; [vm_compute; reflexivity|].
    split; [right; left; vm_compute; reflexivity|].
    split; [vm_compute; reflexivity|].
    split; [vm_compute; reflexivity|].
    split; [vm_compute; reflexivity|].
    repeat constructor; eexists; eexists;
      (split; [vm_compute; reflexivity|]);
      (split; vm_compute; reflexivity).
Qed.

Lemma negative_weights_accepted_witness :
  (exists r,
     Float64.interpolate_styles Float64.left_sum
       [("borges", Float64.of_Q (-1)); ("kafka", Float64.of_Q 3)] = Ok r)
  \/ (exists e,
        Float64.interpolate_styles Float64.left_sum
          [("borges", Float64.of_Q (-1)); ("kafka", Float64.of_Q 3)]
        = Raise e
        /\ arithmetic_error e).
Proof.
  apply (proj1 negative_weights_accepted Float64.left_sum).
  - exact left_sum_not_negative.
  - discriminate.
  - intros a [<-|[<-|[]]]; unfold known; simpl; tauto.
  - vm_compute. reflexivity.
Defined.

(** C10 as stated fails.  Three catalog authors with finite weights
    whose float sum is strictly positive: two weights cancel, the
    normalized weights are infinite, and the blend stops in
    [round(weight * 5)]. *)
Lemma cancelling_weights_overflow :
  (forall a, In a (keys cancelling_blend) -> known a)
  /\ forallb Float64.is_finite (values cancelling_blend) = true
  /\ Float64.ltb Float64.zero (Float64.left_sum (values cancelling_blend))
     = true
  /\ Float64.interpolate_styles Float64.left_sum cancelling_blend
     = Raise (OverflowError "cannot convert float infinity to integer").
Proof.
  split; [intros a [<-|[<-|[<-|[]]]]; unfold known; simpl; tauto|].
  split; [vm_compute; reflexivity|].
  split; vm_compute; reflexivity.
Qed.

